(** * PEPITA-tools: the dose-response pipeline ([pipeline.py])

  A shallow embedding of [pipeline.main] and [pipeline._parse_results],
  stage by stage, and the properties of its natural-language specification.

  Conventions of the embedding.
  - A Python [dict] keeps insertion order, and the pipeline relies on it
    (builder-output order, first combination, last plot file): dictionaries
    are association lists with unique keys, see [Dict].
  - A measurement is a binary64 number or NaN.  The embedding keeps NaN as
    a value of its own and takes the finite numbers as rationals: a sum, a
    mean or a median is the exact one, where numpy rounds it to binary64,
    and there are no infinities and no negative zero.  What is proved of a
    value that numpy computes is proved of the exact value.
  - Exceptions are results ([Raise]); the one loop of the pipeline that can
    run forever is given fuel ([OutOfFuel]).
  - What the pipeline prints, plots and writes is recorded as a list of
    [event]s next to the result ([run]).
  - The modules [util], [analyze], [dose_response] and [json] are not part
    of the file; what the pipeline calls in them is collected in the record
    [Collaborators].  For [json] there is also a model of the text that it
    writes and reads for the results, see [json]. *)

From Stdlib Require Import List String Ascii Bool Arith ZArith QArith Lia Lqa.
From Stdlib Require Import Qabs Qminmax DecimalString.
Import ListNotations.

Local Open Scope string_scope.
Local Open Scope list_scope.

(** ** Results of Python code *)

Inductive exn : Type :=
| KeyError
| IndexError
| ValueError
| UnboundLocalError
| JSONDecodeError
| FileNotFoundError
| UserError (msg : string).

Inductive outcome (A : Type) : Type :=
| Done (a : A)
| Raise (e : exn)
| OutOfFuel.

Arguments Done {A} a.
Arguments Raise {A} e.
Arguments OutOfFuel {A}.

Definition of_option {A : Type} (e : exn) (o : option A) : outcome A :=
match o with
| Some a => Done a
| None => Raise e
end.

(** ** Insertion-ordered dictionaries *)

Class EqDec (K : Type) := eq_dec : forall x y : K, {x = y} + {x <> y}.

#[export] Instance string_EqDec : EqDec string := string_dec.
#[export] Instance list_EqDec {A : Type} `{EqDec A} : EqDec (list A) :=
list_eq_dec eq_dec.

Module Dict.
Section Dict.
Context {K V : Type} `{EqDec K}.

Definition t := list (K * V).

Definition keys (d : t) : list K := map fst d.
Definition values (d : t) : list V := map snd d.

(** [d[k]], [None] where Python raises [KeyError] *)
Fixpoint get (d : t) (k : K) : option V :=
  match d with
  | [] => None
  | (k', v) :: d' => if eq_dec k k' then Some v else get d' k
  end.

(** [k in d] *)
Definition mem (d : t) (k : K) : bool :=
  match get d k with Some _ => true | None => false end.

(** [d[k] = v]: in place for a key that is there, at the end for a new one *)
Fixpoint set (d : t) (k : K) (v : V) : t :=
  match d with
  | [] => [(k, v)]
  | (k', v') :: d' =>
      if eq_dec k k' then (k', v) :: d' else (k', v') :: set d' k v
  end.
End Dict.
Arguments t : clear implicits.
End Dict.

(** ** The data of the pipeline *)

(** A condition label, the key of [results] and the [string] of a Solution. *)
Definition label := string.

(** A [util.Solution] is used by the pipeline through [solution.string], the
  label it was parsed from, and through its Cocktail. *)
Definition Solution := label.

(** [util.Cocktail]: the tuple [drugs] of drug names. *)
Definition Cocktail := list string.

(** [util.Cocktail(drug)] for one drug name *)
Definition Cocktail_of (drug : string) : Cocktail := [drug].

(** [('Control',)] *)
Definition Control : Cocktail := ["Control"].

(** A measurement: NaN or a number. *)
Inductive float : Type :=
| nan
| fin (q : Q).

Definition Results := Dict.t label (list float).

(** ** numpy *)

Module np.

Definition isnan (x : float) : bool :=
  match x with nan => true | fin _ => false end.

(** the entries that are not NaN *)
Fixpoint finite (xs : list float) : list Q :=
  match xs with
  | [] => []
  | nan :: xs' => finite xs'
  | fin q :: xs' => q :: finite xs'
  end.

Definition sum (qs : list Q) : Q := fold_right Qplus 0 qs.

Definition mean (qs : list Q) : Q := sum qs / inject_Z (Z.of_nat (List.length qs)).

(** [np.nanmean]: the mean of the entries that are not NaN; NaN (and a
    RuntimeWarning) when there is none. *)
Definition nanmean (xs : list float) : float :=
  match finite xs with
  | [] => nan
  | qs => fin (mean qs)
  end.

Definition fmin (x y : Q) : Q := if Qlt_le_dec y x then y else x.

(** [np.nanmin]: [ValueError] on an empty sequence, NaN (and a
    RuntimeWarning) when every entry is NaN, the least entry otherwise. *)
Definition nanmin (xs : list float) : outcome float :=
  match xs with
  | [] => Raise ValueError
  | _ =>
      match finite xs with
      | [] => Done nan
      | q :: qs => Done (fin (fold_left fmin qs q))
      end
  end.

Fixpoint insert_sorted (x : Q) (qs : list Q) : list Q :=
  match qs with
  | [] => [x]
  | y :: qs' => if Qlt_le_dec y x then y :: insert_sorted x qs' else x :: qs
  end.

Definition sort (qs : list Q) : list Q := fold_right insert_sorted [] qs.

(** [np.nanmedian]: the median of the entries that are not NaN *)
Definition nanmedian (xs : list float) : float :=
  let qs := sort (finite xs) in
  let n := List.length qs in
  match n with
  | O => nan
  | _ =>
      if Nat.even n
      then fin ((nth (n / 2 - 1) qs 0 + nth (n / 2) qs 0) / 2)
      else fin (nth (n / 2) qs 0)
  end.

End np.

(** ** Python built-ins used by the pipeline *)

(** [max(a, b)]: the second argument only when it is greater *)
Definition pymax (a b : Q) : Q := if Qlt_le_dec a b then b else a.

(** [dict(pairs)] *)
Definition dict_of {K V : Type} `{EqDec K} (pairs : list (K * V)) : Dict.t K V :=
  fold_left (fun d kv => Dict.set d (fst kv) (snd kv)) pairs [].

(** the last element of a list, where there is one *)
Fixpoint last_opt {A : Type} (xs : list A) : option A :=
  match xs with
  | [] => None
  | [x] => Some x
  | _ :: xs' => last_opt xs'
  end.

(** [str(n)] for an integer that is not negative *)
Definition digits (n : Z) : string :=
  NilZero.string_of_uint (N.to_uint (Z.to_N n)).

(** the integer nearest to a rational that is not negative, ties to even *)
Definition round_half_even (q : Q) : Z :=
  let n := Qnum q in
  let d := Zpos (Qden q) in
  let fl := (n / d)%Z in
  match (2 * (n mod d) ?= d)%Z with
  | Lt => fl
  | Gt => (fl + 1)%Z
  | Eq => if Z.even fl then fl else (fl + 1)%Z
  end.

(** [f'{x:.2f}'] *)
Definition format_2f (x : float) : string :=
  match x with
  | nan => "nan"
  | fin q =>
      let h := round_half_even (Qabs q * 100) in
      let frac := (h mod 100)%Z in
      ((if Qlt_le_dec q 0 then "-" else "") ++ digits (h / 100) ++ "."
         ++ (if (frac <? 10)%Z then "0" else "") ++ digits frac)%string
  end.

(** ** Models, events and runs *)

Definition path := string.

(** A [dose_response.Model], as the pipeline constructs it: the dose series,
    the summary scores aligned with it, the Cocktail and [E_max]. *)
Record Model : Type := {
  conditions : list Solution;
  summary_scores : list float;
  cocktail : Cocktail;
  E_max : float }.

(** What a run does to the outside, in the order it does it. *)
Inductive event : Type :=
| Print (line : string)
| OpenRead (file : path)
| AnalyzeMain
| OpenWrite (file : path)
| Chart (model : Model) (scores : list float)
    (datapoints : Dict.t Solution (list float)) (name : option string)
    (scale : float * Q)
| Figure
| AnalyzeDiamond (model_a model_b model_combo : Model)
| ChartDiamond (model_a model_b model_combo : Model)
| Xlim (right : Q)
| Ylim (top : Q)
| Savefig (file : path)
| Close
| Clf
| AnalyzeCheckerboard (model_a model_b : Model) (models_combo : list Model)
    (file_name_context : option string)
| ChartCheckerboard (model_a model_b : Model) (models_combo : list Model)
    (file_name_context : option string).

(** A run: the events so far and how it ended. *)
Definition run (A : Type) : Type := list event * outcome A.

Definition ret {A : Type} (a : A) : run A := ([], Done a).

Definition bind {A B : Type} (m : run A) (k : A -> run B) : run B :=
  match m with
  | (evs, Done a) => let (evs', r) := k a in (evs ++ evs', r)
  | (evs, Raise e) => (evs, Raise e)
  | (evs, OutOfFuel) => (evs, OutOfFuel)
  end.

Definition emit (e : event) : run unit := ([e], Done tt).

Definition lift {A : Type} (o : outcome A) : run A := ([], o).

Notation "x <- m ;; k" := (bind m (fun x => k))
  (at level 61, m at next level, right associativity).
Notation "' p <- m ;; k" := (bind m (fun x => let p := x in k))
  (at level 61, p pattern, m at next level, right associativity).

(** [for x in xs: body], with the variables the body assigns as state *)
Fixpoint for_ {A S : Type} (xs : list A) (body : A -> S -> run S) (s : S) : run S :=
  match xs with
  | [] => ret s
  | x :: xs' => s' <- body x s ;; for_ xs' body s'
  end.

Definition events {A : Type} (r : run A) : list event := fst r.
Definition result {A : Type} (r : run A) : outcome A := snd r.

(** ** The collaborators *)

(** The command line of [pipeline.py], the arguments of [main]. *)
Record Args : Type := {
  imagefiles : list string;
  cap : Z;
  chartfile : option string;
  checkerboard : bool;
  conversions : list (string * string);
  debug : Z;
  group_regex : string;
  platefile : option string;
  plate_control : list string;
  plate_ignore : list string;
  plate_info : option string;
  plate_positive_control : list string;
  silent : bool }.

(** What [main] calls outside [pipeline.py]. *)
Record Collaborators : Type := {
  (** the contents of a cache file *)
  text : Type;
  (** [json.dump(results, f, ensure_ascii=False)] *)
  json_dump : Results -> text;
  (** [json.load(f)] *)
  json_load : text -> outcome Results;
  (** [util.get_inputs_hashfile(imagefiles=, cap=, group_regex=, platefile=,
      plate_control=, plate_ignore=)] *)
  get_inputs_hashfile :
    list string -> Z -> string -> option string -> list string -> list string -> path;
  (** [analyze.main(imagefiles, cap, chartfile, debug, group_regex, platefile,
      plate_control, plate_ignore, True)]: what it returns or raises; the
      files that it may write itself, such as a chart file, are not
      modelled *)
  analyze_main :
    list string -> Z -> option string -> Z -> string -> option string ->
    list string -> list string -> outcome Results;
  (** [util.Dose(label).drug] *)
  Dose_drug : string -> string;
  (** [util.Solution(condition, conversions).get_cocktail()] *)
  get_cocktail : Dict.t string string -> label -> Cocktail;
  (** [str(cocktail)] *)
  Cocktail_str : Cocktail -> string;
  (** [model.combo] *)
  combo : Model -> bool;
  (** [model.effective_concentration(fraction)] *)
  effective_concentration : Model -> Q -> float;
  (** [model.get_condition()] *)
  get_condition : Model -> string;
  (** [model.get_x_units()] *)
  get_x_units : Model -> string;
  (** [dose_response.analyze_diamond(model_a, model_b, model_combo)] *)
  analyze_diamond : Model -> Model -> Model -> path * Q * Q }.

(** The cache files: what is at each path. *)
Definition files (T : Type) : Type := path -> option T.

Definition exists_ {T : Type} (fs : files T) (p : path) : bool :=
  match fs p with Some _ => true | None => false end.

Definition write {T : Type} (fs : files T) (p : path) (c : T) : files T :=
  fun q => if string_dec q p then Some c else fs q.

(** ** The pipeline *)

Section Pipeline.

Variable ext : Collaborators.

(** *** Cached results ([main], the first statements) *)

Definition hashfile_of (a : Args) : path :=
  get_inputs_hashfile ext (imagefiles a) (cap a) (group_regex a) (platefile a)
    (plate_control a) (plate_ignore a).

Definition is_None {A : Type} (o : option A) : bool :=
  match o with None => true | Some _ => false end.

(** [if chartfile is None and debug == 0 and os.path.exists(hashfile)]: read
    the cached results; [else]: compute them and write the cache. *)
Definition load_results (fs : files (text ext)) (a : Args)
  : files (text ext) * run Results :=
  let hashfile := hashfile_of a in
  if is_None (chartfile a) && (debug a =? 0)%Z && exists_ fs hashfile
  then
    (fs,
     _ <- emit (OpenRead hashfile) ;;
     match fs hashfile with
     | Some f => lift (json_load ext f)
     | None => lift (Raise FileNotFoundError)
     end)
  else
    match analyze_main ext (imagefiles a) (cap a) (chartfile a) (debug a)
            (group_regex a) (platefile a) (plate_control a) (plate_ignore a) with
    | Done results =>
        (write fs hashfile (json_dump ext results),
         _ <- emit AnalyzeMain ;; _ <- emit (OpenWrite hashfile) ;; ret results)
    | other => (fs, _ <- emit AnalyzeMain ;; lift other)
    end.

(** *** [_parse_results] *)

(** Modelled from the spec: [util.put_multimap], which is not in
    [pipeline.py]: append the value to the sequence stored under the key, and
    start a sequence for a key that is new. *)
Definition put_multimap {K V : Type} `{EqDec K}
  (d : Dict.t K (list V)) (k : K) (v : V) : Dict.t K (list V) :=
  match Dict.get d k with
  | Some vs => Dict.set d k (vs ++ [v])
  | None => Dict.set d k [v]
  end.

Definition _parse_results (results : Results) (conversions : Dict.t string string)
  : Dict.t Cocktail (list Solution) :=
  fold_left
    (fun drug_conditions condition =>
       let solution : Solution := condition in
       put_multimap drug_conditions (get_cocktail ext conversions solution) solution)
    (Dict.keys results) [].

(** *** The positive control *)

(** [[v for k in ks for v in d[k]]] *)
Fixpoint lookup_all {K V : Type} `{EqDec K} (d : Dict.t K (list V)) (ks : list K)
  : outcome (list V) :=
  match ks with
  | [] => Done []
  | k :: ks' =>
      match Dict.get d k with
      | None => Raise KeyError
      | Some vs =>
          match lookup_all d ks' with
          | Done rest => Done (vs ++ rest)
          | other => other
          end
      end
  end.

Definition no_positive_control : string :=
  "WARNING: No positive control included. Using minimum calculated value as positive control".

Definition positive_control (results : Results)
  (drug_conditions : Dict.t Cocktail (list Solution))
  (plate_positive_control : list string) : run float :=
  let positive_control_drugs :=
    map (fun condition => Cocktail_of (Dose_drug ext condition)) plate_positive_control in
  positive_control_solutions <- lift (lookup_all drug_conditions positive_control_drugs) ;;
  positive_control_scores <- lift (lookup_all results positive_control_solutions) ;;
  let positive_control_value := np.nanmean positive_control_scores in
  if np.isnan positive_control_value
  then
    _ <- emit (Print no_positive_control) ;;
    lift (np.nanmin (List.concat (Dict.values results)))
  else ret positive_control_value.

(** *** Models and dose-response charts *)

(** The lists of [drug_conditions] are Python objects that the loop changes in
    place: the dictionary is the store, and a list is named by its key. *)
Definition store : Type := Dict.t Cocktail (list Solution).

Definition conditions_of (dc : store) (c : Cocktail) : list Solution :=
  match Dict.get dc c with Some l => l | None => [] end.

(** [for solution in drug_conditions[control_drug]: conditions.insert(0, solution)]
    where [conditions] is the list of [cocktail].  A Python list iterator
    holds an index [i] into the live list: it stops when [i] reaches the
    length the list has at that moment. *)
Fixpoint insert_controls (fuel : nat) (dc : store) (cocktail control_drug : Cocktail)
  (i : nat) : outcome store :=
  match fuel with
  | O => OutOfFuel
  | S fuel' =>
      match nth_error (conditions_of dc control_drug) i with
      | None => Done dc
      | Some solution =>
          insert_controls fuel'
            (Dict.set dc cocktail (solution :: conditions_of dc cocktail))
            cocktail control_drug (S i)
      end
  end.

(** [for control_drug in control_drugs: for solution in ...] *)
Fixpoint prepend_controls (fuel : nat) (dc : store) (cocktail : Cocktail)
  (control_drugs : list Cocktail) : outcome store :=
  match control_drugs with
  | [] => Done dc
  | control_drug :: rest =>
      match Dict.get dc control_drug with
      | None => Raise KeyError
      | Some _ =>
          match insert_controls fuel dc cocktail control_drug 0 with
          | Done dc' => prepend_controls fuel dc' cocktail rest
          | other => other
          end
      end
  end.

(** [for solution in conditions:] the raw scores by Solution and the
    summary scores *)
Fixpoint score_conditions (results : Results) (conditions : list Solution)
  (cocktail_scores : Dict.t Solution (list float)) (summary_scores : list float)
  : outcome (Dict.t Solution (list float) * list float) :=
  match conditions with
  | [] => Done (cocktail_scores, summary_scores)
  | solution :: rest =>
      match Dict.get results solution with
      | None => Raise KeyError
      | Some scores =>
          score_conditions results rest
            (Dict.set cocktail_scores solution scores)
            (summary_scores ++ [np.nanmedian scores])
      end
  end.

(** [plate_info + '_' + str(cocktail) if plate_info else None] *)
Definition chart_name (plate_info : option string) (c : Cocktail) : option string :=
  match plate_info with
  | None => None
  | Some "" => None
  | Some info => Some (info ++ "_" ++ Cocktail_str ext c)%string
  end.

(** The variables of the loop: the store, [models] and [solution], which
    the chart call reads after the loop over [conditions]. *)
Definition build_state : Type :=
  store * Dict.t Cocktail Model * option Solution.

(** The body of [for cocktail, conditions in drug_conditions.items()] *)
Definition generate_model (fuel : nat) (results : Results)
  (control_drugs : list Cocktail) (positive_control_value : float)
  (plate_info : option string) (c : Cocktail) (st : build_state) : run build_state :=
  let '(dc, models, solution) := st in
  if eq_dec c Control then ret st
  else
    dc <- lift (prepend_controls fuel dc c control_drugs) ;;
    let conditions := conditions_of dc c in
    '(cocktail_scores, summary_scores) <-
      lift (score_conditions results conditions [] []) ;;
    let solution :=
      match last_opt conditions with Some s => Some s | None => solution end in
    let model :=
      {| conditions := conditions; summary_scores := summary_scores;
         cocktail := c; E_max := positive_control_value |} in
    let models := Dict.set models c model in
    solution' <- lift (of_option UnboundLocalError solution) ;;
    scores <- lift (of_option KeyError (Dict.get results solution')) ;;
    _ <- emit (Chart model scores cocktail_scores (chart_name plate_info c)
                 (positive_control_value, 100)) ;;
    ret (dc, models, solution).

Definition generate_models (fuel : nat) (results : Results)
  (control_drugs : list Cocktail) (positive_control_value : float)
  (plate_info : option string) (drug_conditions : store) : run build_state :=
  for_ (Dict.keys drug_conditions)
    (generate_model fuel results control_drugs positive_control_value plate_info)
    (drug_conditions, [], None).

Definition models_of (st : build_state) : Dict.t Cocktail Model := snd (fst st).

(** *** EC values *)

Definition ec_values : list Z := [50; 75; 90]%Z.

(** [f'{model.get_condition()} EC_{ec_value}={concentn:.2f}{model.get_x_units()}'] *)
Definition ec_line (model : Model) (ec_value : Z) (concentn : float) : string :=
  (get_condition ext model ++ " EC_" ++ digits ec_value ++ "="
     ++ format_2f concentn ++ get_x_units ext model)%string.

Definition print_ec_value (model : Model) (ec_value : Z) (_ : unit) : run unit :=
  let concentn := effective_concentration ext model (inject_Z ec_value / 100) in
  if negb (np.isnan concentn)
  then emit (Print (ec_line model ec_value concentn))
  else ret tt.

Definition print_ec_values (models : Dict.t Cocktail Model) : run unit :=
  for_ (Dict.values models)
    (fun model _ => for_ ec_values (print_ec_value model) tt) tt.

(** *** Combinations *)

Definition models_combo_of (models : Dict.t Cocktail Model) : list Model :=
  filter (combo ext) (Dict.values models).

(** The variables of the diamond loop: [total_max_x], [total_max_y] and
    [plot_filename], which has no value before the first analysis. *)
Definition diamond_state : Type := Q * Q * option path.

(** The body of [for model_combo in models_combo] *)
Definition diamond (models : Dict.t Cocktail Model) (model_combo : Model)
  (st : diamond_state) : run diamond_state :=
  let '(total_max_x, total_max_y, plot_filename) := st in
  drug_a <- lift (of_option IndexError (nth_error (cocktail model_combo) 0)) ;;
  let subcocktail_a := Cocktail_of drug_a in
  if negb (Dict.mem models subcocktail_a) then ret st
  else
    drug_b <- lift (of_option IndexError (nth_error (cocktail model_combo) 1)) ;;
    let subcocktail_b := Cocktail_of drug_b in
    model_a <- lift (of_option KeyError (Dict.get models subcocktail_a)) ;;
    model_b <- lift (of_option KeyError (Dict.get models subcocktail_b)) ;;
    let '(plot_filename, max_x, max_y) :=
      analyze_diamond ext model_a model_b model_combo in
    _ <- emit (AnalyzeDiamond model_a model_b model_combo) ;;
    _ <- emit (ChartDiamond model_a model_b model_combo) ;;
    ret (pymax total_max_x max_x, pymax total_max_y max_y, Some plot_filename).

Definition analyze_diamonds (models : Dict.t Cocktail Model) : run unit :=
  let models_combo := models_combo_of models in
  _ <- emit Figure ;;
  '(total_max_x, total_max_y, plot_filename) <-
    for_ models_combo (diamond models) (1, 1, None) ;;
  match models_combo with
  | [] => ret tt
  | _ =>
      _ <- emit (Xlim total_max_x) ;;
      _ <- emit (Ylim total_max_y) ;;
      plot_filename <- lift (of_option UnboundLocalError plot_filename) ;;
      _ <- emit (Savefig plot_filename) ;;
      _ <- emit Close ;;
      emit Clf
  end.

Definition analyze_checkerboard (plate_info : option string)
  (models : Dict.t Cocktail Model) : run unit :=
  let models_combo := models_combo_of models in
  model_combo <- lift (of_option IndexError (nth_error models_combo 0)) ;;
  drug_a <- lift (of_option IndexError (nth_error (cocktail model_combo) 0)) ;;
  model_a <- lift (of_option KeyError (Dict.get models (Cocktail_of drug_a))) ;;
  drug_b <- lift (of_option IndexError (nth_error (cocktail model_combo) 1)) ;;
  model_b <- lift (of_option KeyError (Dict.get models (Cocktail_of drug_b))) ;;
  _ <- emit (AnalyzeCheckerboard model_a model_b models_combo plate_info) ;;
  emit (ChartCheckerboard model_a model_b models_combo plate_info).

Definition analyze_combinations (checkerboard : bool) (plate_info : option string)
  (models : Dict.t Cocktail Model) : run unit :=
  if negb checkerboard
  then analyze_diamonds models
  else analyze_checkerboard plate_info models.

(** *** [main] *)

(** [main] after the results are there *)
Definition analyze_results (fuel : nat) (a : Args) (results : Results) : run unit :=
  let conversions := dict_of (conversions a) in
  let drug_conditions := _parse_results results conversions in
  let control_drugs :=
    map (fun control => Cocktail_of (Dose_drug ext control)) (plate_control a) in
  positive_control_value <-
    positive_control results drug_conditions (plate_positive_control a) ;;
  st <- generate_models fuel results control_drugs positive_control_value
          (plate_info a) drug_conditions ;;
  let models := models_of st in
  _ <- print_ec_values models ;;
  analyze_combinations (checkerboard a) (plate_info a) models.

Definition main (fuel : nat) (fs : files (text ext)) (a : Args)
  : files (text ext) * run unit :=
  let (fs', r) := load_results fs a in
  (fs', results <- r ;; analyze_results fuel a results).

End Pipeline.

(** ** [json]: the text of a cache file

    [json.dump(results, f, ensure_ascii=False)] and [json.load(f)] for the
    results of the pipeline, a [dict] from labels to lists of numbers.  A
    text is the string of its bytes, a character outside ASCII being the
    bytes of its UTF-8 encoding.  [float.__repr__] and the reading of a
    number token ([float(text)] and [int(text)]) are parameters. *)

Module json.

Definition quote : ascii := "034"%char.
Definition backslash : ascii := "092"%char.

(** *** The encoder *)

(** a hexadecimal digit, in lower case *)
Definition hex_digit (n : N) : ascii :=
  if (n <? 10)%N then ascii_of_N (48 + n) else ascii_of_N (87 + n).

(** [ESCAPE_DCT]: what the encoder writes for a character, with
    [ensure_ascii=False] *)
Definition escape (c : ascii) : string :=
  if (c =? quote)%char then String backslash (String quote "")
  else if (c =? backslash)%char then String backslash (String backslash "")
  else if (c =? "010")%char then String backslash "n"
  else if (c =? "013")%char then String backslash "r"
  else if (c =? "009")%char then String backslash "t"
  else if (c =? "008")%char then String backslash "b"
  else if (c =? "012")%char then String backslash "f"
  else if (N_of_ascii c <? 32)%N
  then String backslash
         (String "u" (String "0" (String "0"
            (String (hex_digit (N_of_ascii c / 16))
               (String (hex_digit (N_of_ascii c mod 16)) "")))))
  else String c "".

Fixpoint escape_all (s : string) : string :=
  match s with
  | EmptyString => EmptyString
  | String c s' => escape c ++ escape_all s'
  end.

(** [encode_basestring(s)] *)
Definition encode_basestring (s : string) : string :=
  String quote (escape_all s ++ String quote "").

Section Encoder.

(** [float.__repr__] of a number *)
Variable float_repr : Q -> string.

(** [floatstr(o)]: a NaN is written [NaN] *)
Definition floatstr (o : float) : string :=
  match o with
  | nan => "NaN"
  | fin q => float_repr q
  end.

(** a list: its items between brackets, with [, ] between them *)
Definition encode_list (l : list float) : string :=
  "[" ++ String.concat ", " (map floatstr l) ++ "]".

Definition encode_item (kv : string * list float) : string :=
  encode_basestring (fst kv) ++ ": " ++ encode_list (snd kv).

(** a dict: its items between braces, each a key, [: ] and a value *)
Definition encode_dict (d : Results) : string :=
  "{" ++ String.concat ", " (map encode_item d) ++ "}".

(** the text that [json.dump(results, f, ensure_ascii=False)] writes *)
Definition dumps (results : Results) : string := encode_dict results.

End Encoder.

(** *** The decoder *)

(** [WHITESPACE]: space, tab, line feed and carriage return *)
Definition is_whitespace (c : ascii) : bool :=
  (c =? " ")%char || (c =? "009")%char || (c =? "010")%char || (c =? "013")%char.

Inductive token : Type :=
| LBrace
| RBrace
| LBracket
| RBracket
| Colon
| Comma
| TString (s : string)
| TBare (s : string)
| TBad.

Definition punctuation (c : ascii) : option token :=
  if (c =? "{")%char then Some LBrace
  else if (c =? "}")%char then Some RBrace
  else if (c =? "[")%char then Some LBracket
  else if (c =? "]")%char then Some RBracket
  else if (c =? ":")%char then Some Colon
  else if (c =? ",")%char then Some Comma
  else None.

(** [BACKSLASH]: the character of an escape of one letter *)
Definition unescape (e : ascii) : option ascii :=
  if (e =? quote)%char then Some quote
  else if (e =? backslash)%char then Some backslash
  else if (e =? "/")%char then Some "/"%char
  else if (e =? "b")%char then Some "008"%char
  else if (e =? "f")%char then Some "012"%char
  else if (e =? "n")%char then Some "010"%char
  else if (e =? "r")%char then Some "013"%char
  else if (e =? "t")%char then Some "009"%char
  else None.

Definition hex_value (c : ascii) : option N :=
  let n := N_of_ascii c in
  if (48 <=? n)%N && (n <=? 57)%N then Some (n - 48)%N
  else if (65 <=? n)%N && (n <=? 70)%N then Some (n - 55)%N
  else if (97 <=? n)%N && (n <=? 102)%N then Some (n - 87)%N
  else None.

(** the four hexadecimal digits of a [\u] escape *)
Definition hex4 (h1 h2 h3 h4 : ascii) : option N :=
  match hex_value h1, hex_value h2, hex_value h3, hex_value h4 with
  | Some a, Some b, Some c, Some d => Some (((a * 16 + b) * 16 + c) * 16 + d)%N
  | _, _, _, _ => None
  end.

(** the bytes of the character [chr(n)] in UTF-8 *)
Definition utf8 (n : N) : string :=
  let byte (m : N) := ascii_of_N m in
  let tail (m : N) := byte (128 + m mod 64)%N in
  if (n <? 128)%N then String (byte n) ""
  else if (n <? 2048)%N
  then String (byte (192 + n / 64)%N) (String (tail n) "")
  else if (n <? 65536)%N
  then String (byte (224 + n / 4096)%N)
         (String (tail (n / 64)%N) (String (tail n) ""))
  else String (byte (240 + n / 262144)%N)
         (String (tail (n / 4096)%N) (String (tail (n / 64)%N) (String (tail n) ""))).

Definition high_surrogate (n : N) : bool := (55296 <=? n)%N && (n <=? 56319)%N.
Definition low_surrogate (n : N) : bool := (56320 <=? n)%N && (n <=? 57343)%N.

(** The scanner, as tokens: white space is passed over between them;
    [lex_string] is [scanstring] after the opening quote, in strict mode;
    [lex_bare] takes what is neither white space, punctuation nor a string,
    up to the next of these.  [TBad] ends the tokens of a text that the
    scanner refuses. *)
Fixpoint lex (s : string) : list token :=
  match s with
  | EmptyString => []
  | String c s' =>
      if is_whitespace c then lex s'
      else
        match punctuation c with
        | Some t => t :: lex s'
        | None =>
            if (c =? quote)%char then lex_string "" s'
            else lex_bare (String c "") s'
        end
  end
with lex_string (chars : string) (s : string) : list token :=
  match s with
  | EmptyString => [TBad]
  | String c s' =>
      if (c =? quote)%char then TString chars :: lex s'
      else if (c =? backslash)%char then
        match s' with
        | EmptyString => [TBad]
        | String e s'' =>
            if (e =? "u")%char then
              match s'' with
              | String h1 (String h2 (String h3 (String h4 s4))) =>
                  match hex4 h1 h2 h3 h4 with
                  | None => [TBad]
                  | Some uni =>
                      if high_surrogate uni then
                        match s4 with
                        | String b (String u (String k1 (String k2 (String k3
                            (String k4 s10))))) =>
                            if (b =? backslash)%char && (u =? "u")%char then
                              match hex4 k1 k2 k3 k4 with
                              | None => [TBad]
                              | Some uni2 =>
                                  if low_surrogate uni2
                                  then lex_string
                                         (chars ++ utf8 (65536 + (uni - 55296) * 1024
                                                         + (uni2 - 56320))%N)
                                         s10
                                  else lex_string (chars ++ utf8 uni) s4
                              end
                            else lex_string (chars ++ utf8 uni) s4
                        | _ => lex_string (chars ++ utf8 uni) s4
                        end
                      else lex_string (chars ++ utf8 uni) s4
                  end
              | _ => [TBad]
              end
            else
              match unescape e with
              | Some c' => lex_string (chars ++ String c' "") s''
              | None => [TBad]
              end
        end
      else if (N_of_ascii c <? 32)%N then [TBad]
      else lex_string (chars ++ String c "") s'
  end
with lex_bare (chars : string) (s : string) : list token :=
  match s with
  | EmptyString => [TBare chars]
  | String c s' =>
      if is_whitespace c then TBare chars :: lex s'
      else
        match punctuation c with
        | Some t => TBare chars :: t :: lex s'
        | None =>
            if (c =? quote)%char then TBare chars :: lex_string "" s'
            else lex_bare (chars ++ String c "") s'
        end
  end.

(** [NUMBER_RE]: an optional minus sign; the digit 0, or a digit from 1 to 9
    and any digits; optionally a point and one digit or more; optionally
    the letter e or E, an optional sign and one digit or more.  As the
    states of an automaton: after nothing, after the sign, after the digit
    0, in the digits of the integer, after the point, in the digits of the
    fraction, after the letter e, after the sign of the exponent, in the
    digits of the exponent. *)
Inductive number_state : Type :=
| NStart
| NSign
| NZero
| NInteger
| NPoint
| NFraction
| NE
| NESign
| NExponent.

Definition is_digit (c : ascii) : bool :=
  (48 <=? N_of_ascii c)%N && (N_of_ascii c <=? 57)%N.

Definition number_step (st : number_state) (c : ascii) : option number_state :=
  match st with
  | NStart =>
      if (c =? "-")%char then Some NSign
      else if (c =? "0")%char then Some NZero
      else if is_digit c then Some NInteger
      else None
  | NSign =>
      if (c =? "0")%char then Some NZero
      else if is_digit c then Some NInteger
      else None
  | NZero =>
      if (c =? ".")%char then Some NPoint
      else if (c =? "e")%char || (c =? "E")%char then Some NE
      else None
  | NInteger =>
      if is_digit c then Some NInteger
      else if (c =? ".")%char then Some NPoint
      else if (c =? "e")%char || (c =? "E")%char then Some NE
      else None
  | NPoint => if is_digit c then Some NFraction else None
  | NFraction =>
      if is_digit c then Some NFraction
      else if (c =? "e")%char || (c =? "E")%char then Some NE
      else None
  | NE =>
      if (c =? "+")%char || (c =? "-")%char then Some NESign
      else if is_digit c then Some NExponent
      else None
  | NESign => if is_digit c then Some NExponent else None
  | NExponent => if is_digit c then Some NExponent else None
  end.

Definition number_end (st : number_state) : bool :=
  match st with
  | NZero | NInteger | NFraction | NExponent => true
  | _ => false
  end.

Fixpoint number_run (st : number_state) (s : string) : bool :=
  match s with
  | EmptyString => number_end st
  | String c s' =>
      match number_step st c with
      | Some st' => number_run st' s'
      | None => false
      end
  end.

(** the whole of [s] is a number as [NUMBER_RE] has it *)
Definition match_number (s : string) : bool := number_run NStart s.

Section Decoder.

(** [float(text)], or [int(text)], of a number token *)
Variable number_of : string -> Q.

(** The value of a token that is neither punctuation nor a string: the
    constant [NaN] or a number.  The constants [Infinity] and [-Infinity]
    have no value in [float], and [true], [false] and [null] are not
    measurements. *)
Definition constant (s : string) : option float :=
  if (s =? "NaN")%string then Some nan
  else if match_number s then Some (fin (number_of s))
  else None.

(** Where the decoder is in a text that holds results: before the object,
    after its opening brace, after a key, after the colon, after the
    opening bracket of a list, after an item, after a comma of the list,
    after the list, after a comma of the object, after the object. *)
Inductive place : Type :=
| Start
| FirstKey
| AfterKey (key : string)
| Value (key : string)
| FirstItem (key : string)
| AfterItem (key : string) (items : list float)
| NextItem (key : string) (items : list float)
| AfterValue
| NextKey
| End_.

(** The pairs of an object of lists of numbers, in the order of the text.
    A text that is not JSON has none, and neither has, in this model, the
    text of another JSON value: it is not a [Results]. *)
Fixpoint pairs_from (p : place) (pairs : list (string * list float))
  (tokens : list token) : option (list (string * list float)) :=
  match tokens with
  | [] => match p with End_ => Some pairs | _ => None end
  | t :: tokens' =>
      match p, t with
      | Start, LBrace => pairs_from FirstKey pairs tokens'
      | FirstKey, RBrace => pairs_from End_ pairs tokens'
      | FirstKey, TString key => pairs_from (AfterKey key) pairs tokens'
      | NextKey, TString key => pairs_from (AfterKey key) pairs tokens'
      | AfterKey key, Colon => pairs_from (Value key) pairs tokens'
      | Value key, LBracket => pairs_from (FirstItem key) pairs tokens'
      | FirstItem key, RBracket =>
          pairs_from AfterValue (pairs ++ [(key, [])]) tokens'
      | FirstItem key, TBare s =>
          match constant s with
          | Some x => pairs_from (AfterItem key [x]) pairs tokens'
          | None => None
          end
      | NextItem key items, TBare s =>
          match constant s with
          | Some x => pairs_from (AfterItem key (items ++ [x])) pairs tokens'
          | None => None
          end
      | AfterItem key items, Comma => pairs_from (NextItem key items) pairs tokens'
      | AfterItem key items, RBracket =>
          pairs_from AfterValue (pairs ++ [(key, items)]) tokens'
      | AfterValue, Comma => pairs_from NextKey pairs tokens'
      | AfterValue, RBrace => pairs_from End_ pairs tokens'
      | _, _ => None
      end
  end.

(** [json.load(f)] for a file of results: the object becomes the [dict] of
    its pairs, so that of two items with one key the second gives the
    value. *)
Definition loads (s : string) : outcome Results :=
  match pairs_from Start [] (lex s) with
  | Some pairs => Done (dict_of pairs)
  | None => Raise JSONDecodeError
  end.

End Decoder.

(** a number whose text is a number token that reads back as the number *)
Definition reads_back (float_repr : Q -> string) (number_of : string -> Q)
  (q : Q) : Prop :=
  match_number (float_repr q) = true /\ number_of (float_repr q) = q.

(** measurements whose numbers read back *)
Definition read_back (float_repr : Q -> string) (number_of : string -> Q)
  (l : list float) : Prop :=
  Forall (reads_back float_repr number_of) (np.finite l).

End json.

(** The collaborators [ext] with the cache files as texts, written and read
    as [json] does. *)
Definition with_json (float_repr : Q -> string) (number_of : string -> Q)
  (ext : Collaborators) : Collaborators := {|
  text := string;
  json_dump := json.dumps float_repr;
  json_load := json.loads number_of;
  get_inputs_hashfile := get_inputs_hashfile ext;
  analyze_main := analyze_main ext;
  Dose_drug := Dose_drug ext;
  get_cocktail := get_cocktail ext;
  Cocktail_str := Cocktail_str ext;
  combo := combo ext;
  effective_concentration := effective_concentration ext;
  get_condition := get_condition ext;
  get_x_units := get_x_units ext;
  analyze_diamond := analyze_diamond ext |}.

(** ** A concrete set of collaborators

    The pipeline runs on these in the examples.  Labels are read the way the
    specification describes them: doses joined by [+], each a drug name
    followed by a space and a concentration. *)

Module Demo.

(** the part of a string before its first space *)
Fixpoint before_space (s : string) : string :=
  match s with
  | EmptyString => EmptyString
  | String c s' => if ascii_dec c " " then EmptyString else String c (before_space s')
  end.

(** the parts of a string between its [+] signs *)
Fixpoint split_plus (s : string) : list string :=
  match s with
  | EmptyString => [EmptyString]
  | String c s' =>
      if ascii_dec c "+" then EmptyString :: split_plus s'
      else
        match split_plus s' with
        | [] => [String c EmptyString]
        | w :: ws => String c w :: ws
        end
  end.

Fixpoint insert_name (x : string) (xs : list string) : list string :=
  match xs with
  | [] => [x]
  | y :: xs' => if String.leb x y then x :: xs else y :: insert_name x xs'
  end.

Definition sort_names (xs : list string) : list string :=
  fold_right insert_name [] xs.

(** Modelled from the spec: [util.Dose(label).drug], which is not in
    [pipeline.py]: the drug name of a (drug-name, concentration, unit) label. *)
Definition drug_of (label : string) : string := before_space label.

(** Modelled from the spec: [util.Solution(label, conversions).get_cocktail()],
    which is not in [pipeline.py]: the conversions are applied to the label,
    and the Cocktail is the drug names of its doses, sorted. *)
Definition cocktail_of (conversions : Dict.t string string) (l : label) : Cocktail :=
  let converted := match Dict.get conversions l with Some l' => l' | None => l end in
  sort_names (map drug_of (split_plus converted)).

Definition str_of (c : Cocktail) : string := String.concat "+" c.

(** Modelled from the spec: [model.combo], which is not in [pipeline.py]: a
    Cocktail of two or more drugs is a combination. *)
Definition is_combo (m : Model) : bool := (1 <? List.length (cocktail m))%nat.

(** A stand-in for the fitted curve: EC50 and EC75 are on it, EC90 is not. *)
Definition ec_of (m : Model) (fraction : Q) : float :=
  if Qle_bool fraction (3 # 4) then fin (fraction * 5 / 2) else nan.

(** A stand-in for the diamond analysis: the plot is named after the
    combination, the extents are the sizes of the two single-drug series. *)
Definition diamond_of (model_a model_b model_combo : Model) : path * Q * Q :=
  ((str_of (cocktail model_combo) ++ "_diamond.png")%string,
   inject_Z (Z.of_nat (List.length (conditions model_a))),
   inject_Z (Z.of_nat (List.length (conditions model_b)))).

(** Collaborators whose analysis returns [analyzed] and whose cache files
    hold the results themselves. *)
Definition collaborators (analyzed : Results) : Collaborators := {|
  text := Results;
  json_dump := fun results => results;
  json_load := fun f => Done f;
  get_inputs_hashfile := fun _ _ _ _ _ _ => ".cache.json";
  analyze_main := fun _ _ _ _ _ _ _ _ => Done analyzed;
  Dose_drug := drug_of;
  get_cocktail := cocktail_of;
  Cocktail_str := str_of;
  combo := is_combo;
  effective_concentration := ec_of;
  get_condition := fun m => str_of (cocktail m);
  get_x_units := fun _ => "mM";
  analyze_diamond := diamond_of |}.

(** Collaborators whose analysis raises a [UserError]. *)
Definition failing (msg : string) : Collaborators := {|
  text := Results;
  json_dump := fun results => results;
  json_load := fun f => Done f;
  get_inputs_hashfile := fun _ _ _ _ _ _ => ".cache.json";
  analyze_main := fun _ _ _ _ _ _ _ _ => Raise (UserError msg);
  Dose_drug := drug_of;
  get_cocktail := cocktail_of;
  Cocktail_str := str_of;
  combo := is_combo;
  effective_concentration := ec_of;
  get_condition := fun m => str_of (cocktail m);
  get_x_units := fun _ => "mM";
  analyze_diamond := diamond_of |}.

(** Collaborators whose cache files cannot be decoded. *)
Definition unreadable : Collaborators := {|
  text := string;
  json_dump := fun _ => "{";
  json_load := fun _ => Raise JSONDecodeError;
  get_inputs_hashfile := fun _ _ _ _ _ _ => ".cache.json";
  analyze_main := fun _ _ _ _ _ _ _ _ => Done [];
  Dose_drug := drug_of;
  get_cocktail := cocktail_of;
  Cocktail_str := str_of;
  combo := is_combo;
  effective_concentration := ec_of;
  get_condition := fun m => str_of (cocktail m);
  get_x_units := fun _ => "mM";
  analyze_diamond := diamond_of |}.

(** the arguments of [main] at their defaults *)
Definition args (plate_control plate_positive_control : list string)
  (checkerboard : bool) : Args := {|
  imagefiles := ["plate.tif"];
  cap := 150;
  chartfile := None;
  checkerboard := checkerboard;
  conversions := [];
  debug := 0;
  group_regex := ".*";
  platefile := None;
  plate_control := plate_control;
  plate_ignore := [];
  plate_info := None;
  plate_positive_control := plate_positive_control;
  silent := false |}.

(** the arguments [a] with [--debug] *)
Definition with_debug (level : Z) (a : Args) : Args := {|
  imagefiles := imagefiles a;
  cap := cap a;
  chartfile := chartfile a;
  checkerboard := checkerboard a;
  conversions := conversions a;
  debug := level;
  group_regex := group_regex a;
  platefile := platefile a;
  plate_control := plate_control a;
  plate_ignore := plate_ignore a;
  plate_info := plate_info a;
  plate_positive_control := plate_positive_control a;
  silent := silent a |}.

Definition no_files : files Results := fun _ => None.

(** The scenario of the specification. *)
Definition scenario : Results :=
  [ ("Control", [fin 10; fin 12]);
    ("B 1mM", [fin 10; fin 11]);
    ("A 1mM", [fin 50; fin 52]);
    ("A 1mM+B 1mM", [fin 80; fin 82]) ].

(** The combination is there, drug B alone is not. *)
Definition without_B : Results :=
  [ ("Control", [fin 10; fin 12]);
    ("A 1mM", [fin 50; fin 52]);
    ("A 1mM+B 1mM", [fin 80; fin 82]) ].

(** The combination is there, drug A alone is not. *)
Definition without_A : Results :=
  [ ("Control", [fin 10; fin 12]);
    ("B 1mM", [fin 10; fin 11]);
    ("A 1mM+B 1mM", [fin 80; fin 82]) ].

(** Two single drugs and no combination. *)
Definition singles : Results :=
  [ ("Control", [fin 10; fin 12]);
    ("A 1mM", [fin 50; nan; fin 52]);
    ("B 1mM", [fin 10; fin 11]) ].

(** Two conditions of the Control Cocktail. *)
Definition two_controls : Results :=
  [ ("Control", [fin 10; fin 12]);
    ("Control 0mM", [fin 11; fin 13]);
    ("A 1mM", [fin 50; fin 52]) ].

(** Conditions with no measurement that is a number. *)
Definition unmeasured : Results :=
  [ ("Control", [nan; nan]);
    ("A 1mM", [nan]) ].

(** Only the control. *)
Definition controls_only : Results :=
  [ ("Control", [fin 10; fin 12]) ].

(** Two combinations, A+B and A+C, with every drug alone; drug A at two
    concentrations. *)
Definition two_combinations : Results :=
  [ ("Control", [fin 10; fin 12]);
    ("A 1mM", [fin 50; fin 52]);
    ("A 2mM", [fin 60; fin 62]);
    ("B 1mM", [fin 10; fin 11]);
    ("C 1mM", [fin 20; fin 21]);
    ("A 1mM+B 1mM", [fin 80; fin 82]);
    ("A 1mM+C 1mM", [fin 70; fin 75]) ].

(** Two combinations, A+B and A+C; drug C alone is not there. *)
Definition without_C : Results :=
  [ ("Control", [fin 10; fin 12]);
    ("A 1mM", [fin 50; fin 52]);
    ("B 1mM", [fin 10; fin 11]);
    ("A 1mM+B 1mM", [fin 80; fin 82]);
    ("A 1mM+C 1mM", [fin 70; fin 75]) ].

(** The digits of [n / d] with as many decimal places as it takes, at most
    [places]: the number without its point, and the places. *)
Fixpoint decimal_places (places : nat) (n d : Z) : Z * nat :=
  match places with
  | O => ((n / d)%Z, O)
  | S places' =>
      if (n mod d =? 0)%Z then ((n / d)%Z, O)
      else let (m, k) := decimal_places places' (10 * n) d in (m, S k)
  end.

Fixpoint zeros (n : nat) : string :=
  match n with
  | O => EmptyString
  | S n' => String "0" (zeros n')
  end.

(** A stand-in for [float.__repr__], for a number with at most 17 decimal
    places and no exponent: its decimal digits, with [.0] for an integer. *)
Definition repr (q : Q) : string :=
  let (m, k) := decimal_places 17 (Z.abs (Qnum q)) (Zpos (Qden q)) in
  let ds := digits m in
  let ds := (zeros (S k - String.length ds)%nat ++ ds)%string in
  let whole := (String.length ds - k)%nat in
  ((if (Qnum q <? 0)%Z then "-" else "")
   ++ substring 0 whole ds ++ "."
   ++ (if (k =? 0)%nat then "0" else substring whole k ds))%string.

(** the part of a string before the first character that [p] takes, and
    the part after it *)
Fixpoint break (p : ascii -> bool) (s : string) : string * string :=
  match s with
  | EmptyString => (EmptyString, EmptyString)
  | String c s' =>
      if p c then (EmptyString, s')
      else let (before, after) := break p s' in (String c before, after)
  end.

Fixpoint digits_value (acc : Z) (s : string) : Z :=
  match s with
  | EmptyString => acc
  | String c s' => digits_value (10 * acc + Z.of_N (N_of_ascii c) - 48) s'
  end.

Definition signed (s : string) : Z :=
  match s with
  | String "-" s' => (- digits_value 0 s')%Z
  | String "+" s' => digits_value 0 s'
  | _ => digits_value 0 s
  end.

(** A stand-in for [float(text)] and [int(text)] on a number token: the
    number that the digits, the point and the exponent stand for. *)
Definition number (s : string) : Q :=
  let (mantissa, exponent) := break (fun c => (c =? "e")%char || (c =? "E")%char) s in
  let (whole, fraction) := break (fun c => (c =? ".")%char) mantissa in
  let m := signed (whole ++ fraction) in
  Qred (inject_Z m * Qpower 10 (signed exponent - Z.of_nat (String.length fraction))).

(** The collaborators of [collaborators], with cache files that are texts. *)
Definition cached (analyzed : Results) : Collaborators :=
  with_json repr number (collaborators analyzed).

(** Results with fractions, a NaN, a negative number, a condition without
    measurements and a label with a backslash. *)
Definition fractions : Results :=
  [ ("Control", [fin 10; fin (25 # 2)]);
    ("A 1mM", [fin (101 # 2); nan; fin (-3 # 4)]);
    ("B 1mM", []);
    ("C\D 1mM", [fin (1 # 8)]) ].

End Demo.

(** ** The notions of the specification *)

(** What a run does when it computes the results: the analysis is called,
    and when it returns, the cache file is written with its results. *)
Definition computed (ext : Collaborators) (fs : files (text ext)) (a : Args)
  : files (text ext) * run Results :=
  match analyze_main ext (imagefiles a) (cap a) (chartfile a) (debug a)
          (group_regex a) (platefile a) (plate_control a) (plate_ignore a) with
  | Done results =>
      (write fs (hashfile_of ext a) (json_dump ext results),
       ([AnalyzeMain; OpenWrite (hashfile_of ext a)], Done results))
  | Raise e => (fs, ([AnalyzeMain], Raise e))
  | OutOfFuel => (fs, ([AnalyzeMain], OutOfFuel))
  end.

(** Two runs with the same inputs: the arguments that the cache file is
    named after, which are, with [chartfile] and [debug], the arguments of
    the analysis. *)
Definition same_inputs (a1 a2 : Args) : Prop :=
  imagefiles a1 = imagefiles a2 /\ cap a1 = cap a2 /\
  group_regex a1 = group_regex a2 /\ platefile a1 = platefile a2 /\
  plate_control a1 = plate_control a2 /\ plate_ignore a1 = plate_ignore a2.

(** the measurements of a condition *)
Definition results_of (results : Results) (s : Solution) : list float :=
  match Dict.get results s with Some scores => scores | None => [] end.

(** The positive-control measurements: label by label in the order given,
    the raw measurements of each Solution of the label's Cocktail. *)
Definition positive_control_measurements (ext : Collaborators) (results : Results)
  (dc : Dict.t Cocktail (list Solution)) (labels : list string) : list float :=
  flat_map
    (fun l => flat_map (results_of results)
                (conditions_of dc (Cocktail_of (Dose_drug ext l))))
    labels.

(** every measurement of every condition *)
Definition all_measurements (results : Results) : list float :=
  List.concat (Dict.values results).

Definition is_minimum (m : Q) (qs : list Q) : Prop :=
  In m qs /\ forall q, In q qs -> m <= q.

(** every label names a Cocktail that has conditions *)
Definition resolved (ext : Collaborators) (dc : Dict.t Cocktail (list Solution))
  (labels : list string) : Prop :=
  Forall (fun l => Dict.mem dc (Cocktail_of (Dose_drug ext l)) = true) labels.

(** The Solutions of the control drugs: control by control in the order
    given, each control's Solutions in their order. *)
Definition control_solutions (dc : store) (control_drugs : list Cocktail)
  : list Solution :=
  flat_map (conditions_of dc) control_drugs.

(** the Model of a dose series *)
Definition model_of (results : Results) (E_max : float) (c : Cocktail)
  (series : list Solution) : Model :=
  {| conditions := series;
     summary_scores := map (fun s => np.nanmedian (results_of results s)) series;
     cocktail := c;
     E_max := E_max |}.

Definition is_Control (c : Cocktail) : bool :=
  if eq_dec c Control then true else false.

(** the Cocktails that are modeled, with their resolved Solutions *)
Definition modeled (dc : store) : list (Cocktail * list Solution) :=
  filter (fun entry => negb (is_Control (fst entry))) dc.

(** the lines of a Model, one for each EC value that is defined *)
Definition ec_lines (ext : Collaborators) (model : Model) : list event :=
  flat_map
    (fun ec_value =>
       match effective_concentration ext model (inject_Z ec_value / 100) with
       | nan => []
       | fin q =>
           [Print (get_condition ext model ++ " EC_" ++ digits ec_value ++ "="
                     ++ format_2f (fin q) ++ get_x_units ext model)%string]
       end)
    [50; 75; 90]%Z.

(** What the diamond loop does with a combination: it is [skipped] when its
    first drug has no Model, [paired] when both drugs have one. *)
Definition skipped (models : Dict.t Cocktail Model) (model_combo : Model) : bool :=
  match nth_error (cocktail model_combo) 0 with
  | Some drug_a => negb (Dict.mem models (Cocktail_of drug_a))
  | None => false
  end.

Definition paired (models : Dict.t Cocktail Model) (model_combo : Model)
  : option (Model * Model) :=
  match nth_error (cocktail model_combo) 0, nth_error (cocktail model_combo) 1 with
  | Some drug_a, Some drug_b =>
      match Dict.get models (Cocktail_of drug_a), Dict.get models (Cocktail_of drug_b) with
      | Some model_a, Some model_b => Some (model_a, model_b)
      | _, _ => None
      end
  | _, _ => None
  end.

(** the combinations that are analyzed, each with its two single-drug Models *)
Definition processed (ext : Collaborators) (models : Dict.t Cocktail Model)
  : list (Model * Model * Model) :=
  flat_map
    (fun model_combo =>
       match paired models model_combo with
       | Some (model_a, model_b) => [(model_a, model_b, model_combo)]
       | None => []
       end)
    (models_combo_of ext models).

Definition diamond_events (p : Model * Model * Model) : list event :=
  let '(model_a, model_b, model_combo) := p in
  [AnalyzeDiamond model_a model_b model_combo; ChartDiamond model_a model_b model_combo].

Definition analysis (ext : Collaborators) (p : Model * Model * Model) : path * Q * Q :=
  let '(model_a, model_b, model_combo) := p in
  analyze_diamond ext model_a model_b model_combo.

Definition plot_file (r : path * Q * Q) : path := fst (fst r).
Definition extent_x (r : path * Q * Q) : Q := snd (fst r).
Definition extent_y (r : path * Q * Q) : Q := snd r.

(** a running maximum from a floor: no less than the floor and the extents,
    and one of them *)
Definition is_maximum (m : Q) (floor : Q) (qs : list Q) : Prop :=
  floor <= m /\ (forall q, In q qs -> q <= m) /\ In m (floor :: qs).

(** What holds of the resolved conditions: the Cocktails are distinct, no
    Cocktail is without Solutions, and every Solution is a condition of the
    results. *)
Definition well_resolved (results : Results) (dc : store) : Prop :=
  NoDup (Dict.keys dc) /\
  forall c l, Dict.get dc c = Some l ->
    l <> [] /\ forall s, In s l -> In s (Dict.keys results).

(** ** The command line: [_key_value_pair] and the script *)

(** [s.split(sep)] for a separator that is not empty, from the left: the
    parts of [s] between the occurrences of [sep] that do not overlap.
    [skip] counts the characters of a separator that are still to pass. *)
Fixpoint split_from (sep s : string) (skip : nat) : list string :=
  match s with
  | EmptyString => [EmptyString]
  | String c s' =>
      match skip with
      | S k => split_from sep s' k
      | O =>
          if String.prefix sep s
          then EmptyString :: split_from sep s' (String.length sep - 1)
          else
            match split_from sep s' 0 with
            | w :: ws => String c w :: ws
            | [] => [String c EmptyString]
            end
      end
  end.

(** [s.split(sep)]: [ValueError] for the empty separator *)
Definition split (s sep : string) : outcome (list string) :=
  match sep with
  | EmptyString => Raise ValueError
  | _ => Done (split_from sep s 0)
  end.

(** [_key_value_pair(argument, delimiter)]: the tuple of the parts *)
Definition _key_value_pair (argument delimiter : string) : outcome (list string) :=
  split argument delimiter.

(** [sep.join(parts)] *)
Definition join (sep : string) (parts : list string) : string :=
  String.concat sep parts.

(** the number of times a character is in a string *)
Fixpoint count_char (c : ascii) (s : string) : nat :=
  match s with
  | EmptyString => O
  | String c' s' => (if ascii_dec c c' then 1 else 0) + count_char c s'
  end.

(** [dict(conversions)] takes its keys and values from tuples of two parts,
    and raises [ValueError] at the first tuple of another length. *)
Fixpoint pairs_of (tuples : list (list string)) : outcome (list (string * string)) :=
  match tuples with
  | [] => Done []
  | [k; v] :: rest =>
      match pairs_of rest with
      | Done pairs => Done ((k, v) :: pairs)
      | other => other
      end
  | _ :: _ => Raise ValueError
  end.

Definition with_conversions (a : Args) (pairs : list (string * string)) : Args :=
  {| imagefiles := imagefiles a;
     cap := cap a;
     chartfile := chartfile a;
     checkerboard := checkerboard a;
     conversions := pairs;
     debug := debug a;
     group_regex := group_regex a;
     platefile := platefile a;
     plate_control := plate_control a;
     plate_ignore := plate_ignore a;
     plate_info := plate_info a;
     plate_positive_control := plate_positive_control a;
     silent := silent a |}.

(** [main] as the command line calls it: [conversions] is the list of the
    tuples that [_key_value_pair] has made, and [dict(conversions)] comes
    after the results are there. *)
Definition main_of_tuples (ext : Collaborators) (fuel : nat) (fs : files (text ext))
  (a : Args) (tuples : list (list string)) : files (text ext) * run unit :=
  let (fs', r) := load_results ext fs a in
  (fs',
   results <- r ;;
   pairs <- lift (pairs_of tuples) ;;
   analyze_results ext fuel (with_conversions a pairs) results).

(** the tuples of the [--conversions] arguments: [type=_key_value_pair] *)
Fixpoint tuples_of (arguments : list string) : outcome (list (list string)) :=
  match arguments with
  | [] => Done []
  | argument :: rest =>
      match _key_value_pair argument "=" with
      | Done tuple =>
          match tuples_of rest with
          | Done tuples => Done (tuple :: tuples)
          | other => other
          end
      | Raise e => Raise e
      | OutOfFuel => OutOfFuel
      end
  end.

(** How the process ends: at the end of the script or in [sys.exit(code)],
    with the traceback of an exception that nothing caught, or not at all. *)
Inductive ending : Type :=
| Exit (code : Z)
| Traceback (e : exn)
| Hang.

(** The exit status of the process: the interpreter ends an exception that
    nothing caught with status 1, as [sys.exit(1)] does. *)
Definition exit_status (e : ending) : option Z :=
  match e with
  | Exit code => Some code
  | Traceback _ => Some 1%Z
  | Hang => None
  end.

(** The script: [main] is called with the parsed arguments inside [try], and
    for an [analyze.UserError] there is [print('Error:', ue)] and
    [sys.exit(1)].  A [ValueError] of the [type] function of an argument is
    what [argparse] reports as a usage error, with status 2. *)
Definition script (ext : Collaborators) (fuel : nat) (fs : files (text ext))
  (a : Args) (conversion_arguments : list string)
  : files (text ext) * (list event * ending) :=
  match tuples_of conversion_arguments with
  | Done tuples =>
      let (fs', r) := main_of_tuples ext fuel fs a tuples in
      match r with
      | (evs, Done _) => (fs', (evs, Exit 0))
      | (evs, Raise (UserError msg)) =>
          (fs', (evs ++ [Print ("Error: " ++ msg)%string], Exit 1))
      | (evs, Raise e) => (fs', (evs, Traceback e))
      | (evs, OutOfFuel) => (fs', (evs, Hang))
      end
  | Raise ValueError => (fs, ([], Exit 2))
  | Raise e => (fs, ([], Traceback e))
  | OutOfFuel => (fs, ([], Hang))
  end.

(** a run that does not end with an [analyze.UserError] *)
Definition no_user_error {A : Type} (r : run A) : Prop :=
  forall msg, result r <> Raise (UserError msg).

(** The Cocktails of a list in the order in which they first come, each
    once. *)
Definition first_seen (cocktails : list Cocktail) : list Cocktail :=
  fold_left (fun seen c => if in_dec eq_dec c seen then seen else seen ++ [c])
    cocktails [].

(** the raw scores by Solution that a chart is given *)
Definition datapoints_of (results : Results) (series : list Solution)
  : Dict.t Solution (list float) :=
  fold_left (fun d s => Dict.set d s (results_of results s)) series [].

(** the chart call for a Model: the raw scores are those of the Solution
    that the loop over the series has left in [solution], the last one *)
Definition chart_of (ext : Collaborators) (results : Results) (pcv : float)
  (plate_info : option string) (cm : Cocktail * Model) : event :=
  Chart (snd cm)
    (match last_opt (conditions (snd cm)) with
     | Some solution => results_of results solution
     | None => []
     end)
    (datapoints_of results (conditions (snd cm)))
    (chart_name ext plate_info (fst cm))
    (pcv, 100).

(** * Properties *)

(** ** The definitions at work *)

Example format_2f_rounds :
  format_2f (fin (12346 # 1000)) = "12.35" /\ format_2f (fin (1 # 8)) = "0.12"
  /\ format_2f (fin (- (1 # 1000))) = "-0.00" /\ format_2f (fin 7) = "7.00".
Proof. repeat split; reflexivity. Qed.

Example nanmedian_skips_nan :
  np.nanmedian [fin 3; nan; fin 1; fin 2] = fin 2
  /\ np.nanmedian [fin 4; fin 1] = fin ((1 + 4) / 2)
  /\ np.nanmedian [nan] = nan.
Proof. repeat split; reflexivity. Qed.

Example nanmin_of_nothing :
  np.nanmin [] = Raise ValueError /\ np.nanmin [nan; nan] = Done nan
  /\ np.nanmin [fin 3; nan; fin 1] = Done (fin 1).
Proof. repeat split; reflexivity. Qed.

(** The scenario of the specification: four Cocktails in the order of the
    results, and a positive-control value of (50 + 52) / 2. *)
Example scenario_resolved :
  let ext := Demo.collaborators Demo.scenario in
  _parse_results ext Demo.scenario []
    = [ (["Control"], ["Control"]); (["B"], ["B 1mM"]); (["A"], ["A 1mM"]);
        (["A"; "B"], ["A 1mM+B 1mM"]) ]
  /\ positive_control ext Demo.scenario (_parse_results ext Demo.scenario []) ["A 1mM"]
     = ([], Done (fin (102 # 2))).
Proof. split; reflexivity. Qed.

(** ** Dictionaries *)

Section DictFacts.

Context {K V : Type} `{EqDec K}.

Implicit Types (d : Dict.t K V) (k : K) (v : V).

Lemma get_set_eq d k v : Dict.get (Dict.set d k v) k = Some v.
Proof.
  induction d as [|[k' v'] d IH]; simpl.
  - destruct (eq_dec k k); congruence.
  - destruct (eq_dec k k') as [->|Hne]; simpl.
    + destruct (eq_dec k' k'); congruence.
    + destruct (eq_dec k k'); congruence.
Qed.

Lemma get_set_neq d k k' v : k <> k' -> Dict.get (Dict.set d k v) k' = Dict.get d k'.
Proof.
  intros Hne. induction d as [|[k0 v0] d IH]; simpl.
  - destruct (eq_dec k' k); congruence.
  - destruct (eq_dec k k0) as [->|Hk]; simpl.
    + destruct (eq_dec k' k0); congruence.
    + destruct (eq_dec k' k0); congruence.
Qed.

Lemma get_None_iff d k : Dict.get d k = None <-> ~ In k (Dict.keys d).
Proof.
  induction d as [|[k' v'] d IH]; simpl.
  - tauto.
  - destruct (eq_dec k k') as [->|Hne].
    + split; [discriminate | tauto].
    + rewrite IH. split; intros Hn; [intros [E|I]; congruence | tauto].
Qed.

Lemma get_Some_In d k v : Dict.get d k = Some v -> In (k, v) d.
Proof.
  induction d as [|[k' v'] d IH]; simpl; [discriminate|].
  destruct (eq_dec k k') as [->|Hne]; intros E.
  - left. congruence.
  - right. auto.
Qed.

Lemma In_keys_get d k : In k (Dict.keys d) -> exists v, Dict.get d k = Some v.
Proof.
  intros Hin. destruct (Dict.get d k) as [v|] eqn:E; [eauto|].
  apply get_None_iff in E. contradiction.
Qed.

Lemma mem_true_iff d k : Dict.mem d k = true <-> exists v, Dict.get d k = Some v.
Proof.
  unfold Dict.mem. destruct (Dict.get d k) as [v|].
  - split; eauto.
  - split; [discriminate | intros [v E]; discriminate].
Qed.

Lemma mem_false_iff d k : Dict.mem d k = false <-> Dict.get d k = None.
Proof.
  unfold Dict.mem. destruct (Dict.get d k); split; congruence.
Qed.

Lemma set_new d k v : ~ In k (Dict.keys d) -> Dict.set d k v = d ++ [(k, v)].
Proof.
  induction d as [|[k' v'] d IH]; simpl; intros Hn; [reflexivity|].
  destruct (eq_dec k k') as [->|Hne]; [tauto|].
  rewrite IH; tauto.
Qed.

Lemma keys_set_old d k v : In k (Dict.keys d) -> Dict.keys (Dict.set d k v) = Dict.keys d.
Proof.
  induction d as [|[k' v'] d IH]; simpl; intros Hin; [contradiction|].
  destruct (eq_dec k k') as [->|Hne]; simpl; [reflexivity|].
  f_equal. apply IH. destruct Hin; congruence.
Qed.

Lemma keys_set d k v :
  Dict.keys (Dict.set d k v) = Dict.keys d \/ Dict.keys (Dict.set d k v) = Dict.keys d ++ [k].
Proof.
  destruct (in_dec eq_dec k (Dict.keys d)) as [Hin|Hn].
  - left. now apply keys_set_old.
  - right. rewrite set_new by assumption. unfold Dict.keys. now rewrite map_app.
Qed.

Lemma NoDup_keys_set d k v : NoDup (Dict.keys d) -> NoDup (Dict.keys (Dict.set d k v)).
Proof.
  intros Hnd. destruct (in_dec eq_dec k (Dict.keys d)) as [Hin|Hn].
  - now rewrite keys_set_old.
  - rewrite set_new by assumption. unfold Dict.keys. rewrite map_app. simpl.
    apply NoDup_app; [assumption | repeat constructor; simpl; tauto |].
    intros x Hx [<-|[]]. contradiction.
Qed.

Lemma set_set d k v v' : Dict.set (Dict.set d k v) k v' = Dict.set d k v'.
Proof.
  induction d as [|[k0 v0] d IH]; simpl.
  - destruct (eq_dec k k); congruence.
  - destruct (eq_dec k k0) as [->|Hne]; simpl.
    + destruct (eq_dec k0 k0); congruence.
    + destruct (eq_dec k k0); congruence.
Qed.

Lemma set_get_id d k v : Dict.get d k = Some v -> Dict.set d k v = d.
Proof.
  induction d as [|[k0 v0] d IH]; simpl; [discriminate|].
  destruct (eq_dec k k0) as [->|Hne]; intros E.
  - congruence.
  - now rewrite IH.
Qed.

Lemma In_set d k v k' v' :
  In (k', v') (Dict.set d k v) -> (k' = k /\ v' = v) \/ In (k', v') d.
Proof.
  induction d as [|[k0 v0] d IH]; simpl.
  - intros [E|[]]. left. split; congruence.
  - destruct (eq_dec k k0) as [->|Hne]; simpl.
    + intros [E|I]; [left; split; congruence | tauto].
    + intros [E|I]; [tauto | apply IH in I; tauto].
Qed.

End DictFacts.

(** ** Runs *)

Lemma bind_Done {A B : Type} (evs : list event) (a : A) (k : A -> run B) :
  bind (evs, Done a) k = (evs ++ fst (k a), snd (k a)).
Proof. simpl. now destruct (k a). Qed.

Lemma bind_lift_Done {A B : Type} (a : A) (k : A -> run B) :
  bind (lift (Done a)) k = k a.
Proof. unfold lift. simpl. now destruct (k a). Qed.

Lemma bind_inv_Done {A B : Type} (m : run A) (k : A -> run B) evs b :
  bind m k = (evs, Done b) ->
  exists evs1 a evs2, m = (evs1, Done a) /\ k a = (evs2, Done b) /\ evs = evs1 ++ evs2.
Proof.
  destruct m as [evs1 [a| |]]; simpl; try discriminate.
  destruct (k a) as [evs2 r] eqn:E. intros [= <- ->]. eauto 6.
Qed.

(** An invariant of the loop body is an invariant of the loop. *)
Lemma for_invariant {A S : Type} (Inv : S -> Prop) (body : A -> S -> run S) :
  (forall x s evs s', body x s = (evs, Done s') -> Inv s -> Inv s') ->
  forall xs s evs s', for_ xs body s = (evs, Done s') -> Inv s -> Inv s'.
Proof.
  intros Hbody xs. induction xs as [|x xs IH]; simpl; intros s evs s' Hrun Hs.
  - inversion Hrun. now subst.
  - apply bind_inv_Done in Hrun as (evs1 & s1 & evs2 & H1 & H2 & _).
    eapply IH; eauto.
Qed.

(** ** [_parse_results] *)

Section ParseFacts.

Variable ext : Collaborators.
Variable results : Results.

Lemma put_multimap_resolved dc c s :
  well_resolved results dc -> In s (Dict.keys results) -> well_resolved results (put_multimap dc c s).
Proof.
  intros [Hnd Hall] Hs. unfold put_multimap.
  destruct (Dict.get dc c) as [vs|] eqn:E; split;
    try (now apply NoDup_keys_set); intros c' l Hget;
    (destruct (eq_dec c c') as [<-|Hne];
     [ rewrite get_set_eq in Hget; injection Hget as <-
     | rewrite get_set_neq in Hget by assumption; eapply Hall; eassumption ]).
  - split; [now destruct vs|].
    intros s' Hin. apply in_app_or in Hin as [Hin|[<-|[]]]; [|assumption].
    now apply (proj2 (Hall _ _ E)).
  - split; [discriminate|]. now intros s' [<-|[]].
Qed.

Lemma parse_fold_resolved conversions ks dc :
  well_resolved results dc -> incl ks (Dict.keys results) ->
  well_resolved results
    (fold_left
       (fun drug_conditions condition =>
          let solution : Solution := condition in
          put_multimap drug_conditions (get_cocktail ext conversions solution) solution)
       ks dc).
Proof.
  revert dc. induction ks as [|k ks IH]; simpl; intros dc Hdc Hincl; [assumption|].
  apply IH.
  - apply put_multimap_resolved; [assumption|]. apply Hincl. now left.
  - intros x Hx. apply Hincl. now right.
Qed.

Lemma parse_results_resolved conversions :
  well_resolved results (_parse_results ext results conversions).
Proof.
  apply parse_fold_resolved.
  - split; [constructor | discriminate].
  - apply incl_refl.
Qed.

End ParseFacts.

(** ** The positive control *)

Lemma lookup_all_present {K V : Type} `{EqDec K} (d : Dict.t K (list V)) (ks : list K) :
  Forall (fun k => Dict.mem d k = true) ks ->
  lookup_all d ks =
    Done (flat_map (fun k => match Dict.get d k with Some l => l | None => [] end) ks).
Proof.
  induction 1 as [|k ks Hk _ IH]; simpl; [reflexivity|].
  apply mem_true_iff in Hk as [l ->]. now rewrite IH.
Qed.

Lemma lookup_all_missing {K V : Type} `{EqDec K} (d : Dict.t K (list V)) (ks : list K) :
  Exists (fun k => Dict.mem d k = false) ks -> lookup_all d ks = Raise KeyError.
Proof.
  induction 1 as [k ks Hk|k ks _ IH]; simpl.
  - apply mem_false_iff in Hk. now rewrite Hk.
  - destruct (Dict.get d k); [now rewrite IH | reflexivity].
Qed.

Lemma flat_map_flat_map {A B C : Type} (f : B -> list C) (g : A -> list B) (l : list A) :
  flat_map f (flat_map g l) = flat_map (fun x => flat_map f (g x)) l.
Proof.
  induction l as [|x l IH]; simpl; [reflexivity|].
  now rewrite flat_map_app, IH.
Qed.

Lemma flat_map_of_map {A B C : Type} (f : B -> list C) (g : A -> B) (l : list A) :
  flat_map f (map g l) = flat_map (fun x => f (g x)) l.
Proof.
  induction l as [|x l IH]; simpl; [reflexivity|]. now rewrite IH.
Qed.

Lemma fmin_fold_minimum (qs : list Q) : forall q,
  is_minimum (fold_left np.fmin qs q) (q :: qs).
Proof.
  induction qs as [|a qs IH]; intros q; simpl.
  - split; [now left|]. intros x [<-|[]]. apply Qle_refl.
  - destruct (IH (np.fmin q a)) as [Hin Hle].
    assert (Hq : np.fmin q a <= q /\ np.fmin q a <= a /\ (np.fmin q a = q \/ np.fmin q a = a)).
    { unfold np.fmin. destruct (Qlt_le_dec a q); repeat split; auto; lra. }
    destruct Hq as (Hq1 & Hq2 & Hq3).
    assert (Hm : fold_left np.fmin qs (np.fmin q a) <= np.fmin q a)
      by (apply Hle; now left).
    split.
    + destruct Hin as [E|I]; [|now right; right].
      rewrite <- E. destruct Hq3 as [->| ->]; [now left | now right; left].
    + intros x [<-|[<-|I]]; [lra | lra | apply Hle; now right].
Qed.

Section PositiveControl.

Variable ext : Collaborators.
Variables (results : Results) (conversions : Dict.t string string).
Variable labels : list string.

(** With every label resolved, the scores that [main] collects are the
    positive-control measurements. *)
Lemma positive_control_scores :
  let dc := _parse_results ext results conversions in
  resolved ext dc labels ->
  exists solutions,
    lookup_all dc (map (fun condition => Cocktail_of (Dose_drug ext condition)) labels)
      = Done solutions /\
    lookup_all results solutions
      = Done (positive_control_measurements ext results dc labels).
Proof.
  intros dc Hres. eexists. split.
  - apply lookup_all_present. apply Forall_map. exact Hres.
  - rewrite lookup_all_present.
    + unfold positive_control_measurements. rewrite flat_map_flat_map.
      now rewrite flat_map_of_map.
    + apply Forall_forall. intros s Hs.
      apply in_flat_map in Hs as (c & _ & Hs).
      destruct (Dict.get dc c) as [l|] eqn:E; [|contradiction].
      destruct (parse_results_resolved ext results conversions) as [_ Hall].
      apply mem_true_iff. apply In_keys_get. now apply (proj2 (Hall _ _ E)).
Qed.

End PositiveControl.

(** The positive control where every label resolves.  When every
    positive-control label names a Cocktail that has conditions, and at least
    one positive-control measurement is not NaN, the positive-control value
    is the mean of the positive-control measurements that are not NaN (a NaN
    is left out of the sum and of the count), taken over the rationals; no
    warning is printed and nothing is raised.  The measurements are
    collected label by label. *)
Theorem positive_control_is_mean (ext : Collaborators) (results : Results)
  (conversions : Dict.t string string) (labels : list string) :
  let dc := _parse_results ext results conversions in
  let measured := np.finite (positive_control_measurements ext results dc labels) in
  resolved ext dc labels ->
  measured <> [] ->
  positive_control ext results dc labels = ([], Done (fin (np.mean measured))).
Proof.
  intros dc measured Hres Hne.
  destruct (positive_control_scores ext results conversions labels Hres)
    as (solutions & E1 & E2).
  unfold positive_control. cbv zeta. subst dc.
  rewrite E1, bind_lift_Done, E2, bind_lift_Done.
  unfold np.nanmean. fold measured.
  destruct measured as [|q qs]; [contradiction | reflexivity].
Qed.

(** The fallback where every label resolves.  When every positive-control
    label names a Cocktail that has conditions (as when there is no label),
    no positive-control measurement is other than NaN, and the results hold
    at least one measurement that is not NaN, the run prints the warning,
    does not raise, and the positive-control value is the least of the
    measurements of all conditions that are not NaN. *)
Theorem positive_control_falls_back (ext : Collaborators) (results : Results)
  (conversions : Dict.t string string) (labels : list string) :
  let dc := _parse_results ext results conversions in
  resolved ext dc labels ->
  np.finite (positive_control_measurements ext results dc labels) = [] ->
  np.finite (all_measurements results) <> [] ->
  exists m,
    positive_control ext results dc labels
      = ([Print no_positive_control], Done (fin m)) /\
    is_minimum m (np.finite (all_measurements results)).
Proof.
  intros dc Hres Hnone Hsome.
  destruct (positive_control_scores ext results conversions labels Hres)
    as (solutions & E1 & E2).
  unfold positive_control. cbv zeta. subst dc.
  rewrite E1, bind_lift_Done, E2, bind_lift_Done.
  unfold np.nanmean. rewrite Hnone. simpl np.isnan. cbv iota.
  fold (all_measurements results). unfold np.nanmin.
  destruct (all_measurements results) as [|x xs] eqn:Eall; [now elim Hsome|].
  destruct (np.finite (x :: xs)) as [|q qs] eqn:Efin; [now elim Hsome|].
  exists (fold_left np.fmin qs q). split; [reflexivity|].
  apply fmin_fold_minimum.
Qed.

(** The positive control of the two single drugs: the NaN of "A 1mM" is left
    out, and the mean is (50 + 52) / 2. *)
Lemma positive_control_is_mean_witness :
  let ext := Demo.collaborators Demo.singles in
  let dc := _parse_results ext Demo.singles [] in
  resolved ext dc ["A 1mM"] /\
  np.finite (positive_control_measurements ext Demo.singles dc ["A 1mM"]) <> [] /\
  positive_control ext Demo.singles dc ["A 1mM"]
    = ([], Done (fin (np.mean [50; 52]))).
Proof.
  assert (Hres : resolved (Demo.collaborators Demo.singles)
                   (_parse_results (Demo.collaborators Demo.singles) Demo.singles [])
                   ["A 1mM"])
    by (repeat constructor).
  assert (Hne : np.finite
                  (positive_control_measurements (Demo.collaborators Demo.singles)
                     Demo.singles
                     (_parse_results (Demo.collaborators Demo.singles) Demo.singles [])
                     ["A 1mM"]) <> [])
    by (vm_compute; discriminate).
  split; [exact Hres | split; [exact Hne |]].
  exact (positive_control_is_mean (Demo.collaborators Demo.singles) Demo.singles []
           ["A 1mM"] Hres Hne).
Defined.

(** Without a positive-control label the value is the least measurement of
    the scenario, 10. *)
Lemma positive_control_falls_back_witness :
  let ext := Demo.collaborators Demo.scenario in
  let dc := _parse_results ext Demo.scenario [] in
  resolved ext dc [] /\
  np.finite (positive_control_measurements ext Demo.scenario dc []) = [] /\
  np.finite (all_measurements Demo.scenario) <> [] /\
  exists m,
    positive_control ext Demo.scenario dc []
      = ([Print no_positive_control], Done (fin m)) /\
    is_minimum m (np.finite (all_measurements Demo.scenario)).
Proof.
  assert (Hres : resolved (Demo.collaborators Demo.scenario)
                   (_parse_results (Demo.collaborators Demo.scenario) Demo.scenario [])
                   [])
    by constructor.
  assert (Hsome : np.finite (all_measurements Demo.scenario) <> [])
    by (vm_compute; discriminate).
  split; [exact Hres | split; [reflexivity | split; [exact Hsome |]]].
  exact (positive_control_falls_back (Demo.collaborators Demo.scenario) Demo.scenario []
           [] Hres eq_refl Hsome).
Defined.

(** C4.  The scenario with the positive-control label "X 1mM", which
    matches no condition.  There is no positive-control measurement, and the
    least measurement of the results is 10: the claim has the run print the
    warning and go on with 10.  The run raises [KeyError] at
    [drug_conditions[drug]], before anything is printed.  With no label at
    all the same results do fall back on 10, with the warning. *)
Theorem positive_control_label_matches_no_condition :
  let ext := Demo.collaborators Demo.scenario in
  let dc := _parse_results ext Demo.scenario [] in
  let r := snd (main ext 8 Demo.no_files (Demo.args ["Control"] ["X 1mM"] false)) in
  np.finite (positive_control_measurements ext Demo.scenario dc ["X 1mM"]) = [] /\
  is_minimum 10 (np.finite (all_measurements Demo.scenario)) /\
  result r = Raise KeyError /\
  events r = [AnalyzeMain; OpenWrite ".cache.json"] /\
  positive_control ext Demo.scenario dc [] = ([Print no_positive_control], Done (fin 10)).
Proof.
  split; [reflexivity|]. split.
  - split; [vm_compute; auto|].
    intros q Hq. vm_compute in Hq.
    repeat (destruct Hq as [<-|Hq]; [discriminate|]). contradiction.
  - split; [reflexivity | split; reflexivity].
Qed.

(** C5.  The two single drugs with the positive-control labels "A 1mM" and
    "X 1mM", of which the second matches no condition.  The results hold the
    positive-control measurements 50 and 52: the claim has their mean as the
    positive-control value.  The run raises [KeyError] at
    [drug_conditions[drug]].  With the label "A 1mM" alone the value is the
    mean of 50 and 52. *)
Theorem positive_control_second_label_matches_no_condition :
  let ext := Demo.collaborators Demo.singles in
  let dc := _parse_results ext Demo.singles [] in
  let r :=
    snd (main ext 8 Demo.no_files (Demo.args ["Control"] ["A 1mM"; "X 1mM"] false)) in
  np.finite (positive_control_measurements ext Demo.singles dc ["A 1mM"; "X 1mM"])
    = [50; 52] /\
  result r = Raise KeyError /\
  events r = [AnalyzeMain; OpenWrite ".cache.json"] /\
  positive_control ext Demo.singles dc ["A 1mM"] = ([], Done (fin (np.mean [50; 52]))).
Proof. repeat split; reflexivity. Qed.

(** With no result at all there is nothing to fall back on: [np.nanmin]
    raises on the empty sequence, after the warning. *)
Lemma positive_control_of_nothing (ext : Collaborators) :
  positive_control ext [] [] [] = ([Print no_positive_control], Raise ValueError).
Proof. reflexivity. Qed.

(** ** The cache *)

Section Cache.

Variable ext : Collaborators.
Variable fs : files (text ext).
Variable a : Args.

Lemma load_results_miss :
  chartfile a <> None \/ debug a <> 0%Z \/ fs (hashfile_of ext a) = None ->
  load_results ext fs a = computed ext fs a.
Proof.
  intros Hmiss. unfold load_results, computed, exists_.
  destruct (chartfile a) as [c|]; simpl.
  - now destruct (analyze_main ext _ _ _ _ _ _ _ _).
  - destruct (Z.eqb_spec (debug a) 0) as [E0|N0]; simpl.
    + destruct (fs (hashfile_of ext a)) as [f|].
      * exfalso. destruct Hmiss as [H|[H|H]]; congruence.
      * now destruct (analyze_main ext _ _ _ _ _ _ _ _).
    + now destruct (analyze_main ext _ _ _ _ _ _ _ _).
Qed.

Lemma load_results_hit (f : text ext) :
  chartfile a = None -> debug a = 0%Z -> fs (hashfile_of ext a) = Some f ->
  load_results ext fs a = (fs, ([OpenRead (hashfile_of ext a)], json_load ext f)).
Proof.
  intros Hc Hd Hf. unfold load_results, exists_. rewrite Hc, Hd, Hf. simpl.
  now destruct (json_load ext f).
Qed.

Lemma hit_or_miss :
  (chartfile a <> None \/ debug a <> 0%Z \/ fs (hashfile_of ext a) = None) \/
  (chartfile a = None /\ debug a = 0%Z /\ exists f, fs (hashfile_of ext a) = Some f).
Proof.
  destruct (chartfile a) as [c|]; [left; left; discriminate|].
  destruct (Z.eq_dec (debug a) 0) as [E0|N0]; [|left; right; left; assumption].
  destruct (fs (hashfile_of ext a)) as [f|]; [right; eauto | left; right; right; reflexivity].
Qed.

End Cache.

Lemma write_same {T : Type} (fs : files T) (p : path) (c : T) : write fs p c p = Some c.
Proof. unfold write. destruct (string_dec p p); congruence. Qed.

Lemma write_other {T : Type} (fs : files T) (p q : path) (c : T) :
  q <> p -> write fs p c q = fs q.
Proof. intros Hne. unfold write. destruct (string_dec q p); congruence. Qed.

(** C6.  A run is of one of two kinds.  Either a chart file is asked for, or
    [debug] is not zero, or there is no cache file for the inputs: then the
    analysis is called, and when it returns the cache file is written with
    its results (when it raises, the error is passed on and nothing is
    written).  Or none of the three holds: then the results are what the
    cache file holds; the analysis is not called and no file is written. *)
Theorem load_results_recomputes_exactly_when (ext : Collaborators)
  (fs : files (text ext)) (a : Args) :
  ((chartfile a <> None \/ debug a <> 0%Z \/ fs (hashfile_of ext a) = None) /\
   load_results ext fs a = computed ext fs a)
  \/
  (chartfile a = None /\ debug a = 0%Z /\
   exists f, fs (hashfile_of ext a) = Some f /\
     load_results ext fs a = (fs, ([OpenRead (hashfile_of ext a)], json_load ext f))).
Proof.
  destruct (hit_or_miss ext fs a) as [Hmiss|(Hc & Hd & f & Hf)].
  - left. split; [assumption | now apply load_results_miss].
  - right. repeat split; try assumption. exists f. split; [assumption|].
    now apply load_results_hit.
Qed.

(** ** The text of the cache *)

Lemma string_app_assoc (a b c : string) : ((a ++ b) ++ c)%string = (a ++ b ++ c)%string.
Proof. induction a as [|x a IH]; simpl; [reflexivity | now rewrite IH]. Qed.

Lemma string_app_nil_r (a : string) : (a ++ "")%string = a.
Proof. induction a as [|x a IH]; simpl; [reflexivity | now rewrite IH]. Qed.

Module json_facts.

Import json.

(** What the encoder writes for a character is read as the character. *)
Lemma lex_string_escape (c : ascii) (chars rest : string) :
  lex_string chars (escape c ++ rest) = lex_string (chars ++ String c "") rest.
Proof.
  destruct c as [[] [] [] [] [] [] [] []]; reflexivity.
Qed.

Lemma lex_string_escape_all (s : string) : forall chars rest,
  lex_string chars (escape_all s ++ String quote rest) = TString (chars ++ s) :: lex rest.
Proof.
  induction s as [|c s IH]; intros chars rest.
  - simpl. now rewrite string_app_nil_r.
  - cbn [escape_all]. rewrite string_app_assoc, lex_string_escape, IH.
    now rewrite string_app_assoc.
Qed.

(** A key is read back from its text. *)
Lemma lex_basestring (s rest : string) :
  lex (encode_basestring s ++ rest) = TString s :: lex rest.
Proof.
  unfold encode_basestring. cbn [append].
  rewrite string_app_assoc. cbn [append].
  change (lex (String quote (escape_all s ++ String quote rest)))
    with (lex_string "" (escape_all s ++ String quote rest)).
  now rewrite lex_string_escape_all.
Qed.

(** A character of a number is neither white space, punctuation nor a
    quote. *)
Lemma number_step_bare (st st' : number_state) (c : ascii) :
  number_step st c = Some st' ->
  is_whitespace c = false /\ punctuation c = None /\ (c =? quote)%char = false.
Proof.
  destruct c as [[] [] [] [] [] [] [] []]; destruct st; cbn;
    intros E; try discriminate E; repeat split.
Qed.

Lemma lex_bare_number (s : string) : forall st chars rest,
  number_run st s = true ->
  lex_bare chars (s ++ rest) = lex_bare (chars ++ s) rest.
Proof.
  induction s as [|c s IH]; intros st chars rest Hrun.
  - simpl. now rewrite string_app_nil_r.
  - cbn [number_run] in Hrun.
    destruct (number_step st c) as [st'|] eqn:Hstep; [|discriminate].
    destruct (number_step_bare _ _ _ Hstep) as (Hw & Hp & Hq).
    cbn [append lex_bare]. rewrite Hw, Hp, Hq.
    rewrite (IH st' _ _ Hrun). now rewrite string_app_assoc.
Qed.

Lemma lex_number (s rest : string) :
  match_number s = true ->
  lex (s ++ rest) = lex_bare s rest.
Proof.
  unfold match_number. destruct s as [|c s]; [discriminate|].
  cbn [number_run]. destruct (number_step NStart c) as [st'|] eqn:Hstep; [|discriminate].
  intros Hrun. destruct (number_step_bare _ _ _ Hstep) as (Hw & Hp & Hq).
  cbn [append lex]. rewrite Hw, Hp, Hq.
  now rewrite (lex_bare_number s st' _ rest Hrun).
Qed.

Section Numbers.

Variable float_repr : Q -> string.
Variable number_of : string -> Q.


Lemma read_back_cons x l : json.read_back float_repr number_of (x :: l) ->
  match x with nan => True | fin q => reads_back float_repr number_of q end
  /\ json.read_back float_repr number_of l.
Proof.
  unfold json.read_back. destruct x as [|q]; simpl; [auto|].
  intros H. inversion H; auto.
Qed.

Lemma match_number_floatstr x :
  match x with nan => True | fin q => reads_back float_repr number_of q end ->
  floatstr float_repr x = "NaN" \/ match_number (floatstr float_repr x) = true.
Proof. destruct x as [|q]; simpl; [auto | intros [H _]; auto]. Qed.

(** the token of a measurement, before a comma or a closing bracket *)
Lemma lex_floatstr x (rest : string) :
  match x with nan => True | fin q => reads_back float_repr number_of q end ->
  lex (floatstr float_repr x ++ String "," rest)
    = TBare (floatstr float_repr x) :: Comma :: lex rest
  /\ lex (floatstr float_repr x ++ String "]" rest)
     = TBare (floatstr float_repr x) :: RBracket :: lex rest.
Proof.
  destruct x as [|q]; simpl.
  - intros _. split; reflexivity.
  - intros [Hm _]. rewrite !(lex_number _ _ Hm). split; reflexivity.
Qed.

Lemma constant_floatstr x :
  match x with nan => True | fin q => reads_back float_repr number_of q end ->
  constant number_of (floatstr float_repr x) = Some x.
Proof.
  destruct x as [|q]; simpl; [reflexivity|]. intros [Hm Hn]. unfold constant.
  destruct (String.eqb_spec (float_repr q) "NaN") as [E|_].
  - rewrite E in Hm. discriminate Hm.
  - now rewrite Hm, Hn.
Qed.

(** The items of a list are read one after the other, from the first item
    or from a later one. *)
Lemma pairs_from_items (l : list float) : forall x p key items pairs rest,
  (forall s ts,
     pairs_from number_of p pairs (TBare s :: ts)
     = match constant number_of s with
       | Some v => pairs_from number_of (AfterItem key (items ++ [v])) pairs ts
       | None => None
       end) ->
  json.read_back float_repr number_of (x :: l) ->
  pairs_from number_of p pairs
    (lex (String.concat ", " (map (floatstr float_repr) (x :: l)) ++ String "]" rest))
  = pairs_from number_of AfterValue (pairs ++ [(key, items ++ x :: l)]) (lex rest).
Proof.
  induction l as [|y l IH]; intros x p key items pairs rest Hp Hrb;
    apply read_back_cons in Hrb as [Hx Hl].
  - cbn [map String.concat].
    rewrite (proj2 (lex_floatstr x rest Hx)).
    rewrite Hp, (constant_floatstr x Hx). reflexivity.
  - change (String.concat ", " (map (floatstr float_repr) (x :: y :: l)))
      with (floatstr float_repr x ++ ", "
            ++ String.concat ", " (map (floatstr float_repr) (y :: l)))%string.
    rewrite string_app_assoc. cbn [append].
    rewrite (proj1 (lex_floatstr x _ Hx)).
    rewrite Hp, (constant_floatstr x Hx). cbn [pairs_from].
    change (lex (String " " ?s)) with (lex s).
    rewrite (IH y (NextItem key (items ++ [x])) key (items ++ [x]) pairs rest
               (fun _ _ => eq_refl) Hl).
    now rewrite <- app_assoc.
Qed.

(** A list is read back from its text. *)
Lemma pairs_from_list (l : list float) (key : string) pairs rest :
  json.read_back float_repr number_of l ->
  pairs_from number_of (Value key) pairs (lex (encode_list float_repr l ++ rest))
  = pairs_from number_of AfterValue (pairs ++ [(key, l)]) (lex rest).
Proof.
  intros Hrb. unfold encode_list. cbn [append]. rewrite string_app_assoc.
  cbn [append].
  change (lex (String "[" ?s)) with (LBracket :: lex s).
  destruct l as [|x l].
  - reflexivity.
  - cbn [pairs_from].
    exact (pairs_from_items l x (FirstItem key) key [] pairs rest
             (fun _ _ => eq_refl) Hrb).
Qed.

Lemma read_back_app l l' :
  json.read_back float_repr number_of (l ++ l')
  <-> json.read_back float_repr number_of l /\ json.read_back float_repr number_of l'.
Proof.
  unfold json.read_back. induction l as [|x l IH]; simpl.
  - split; [intros H; split; [constructor | exact H] | intros [_ H]; exact H].
  - destruct x as [|q]; [exact IH|]. simpl. split.
    + intros H. inversion H as [|? ? Hq Hrest]; subst.
      apply IH in Hrest as [H1 H2]. split; [constructor|]; assumption.
    + intros [H H2]. inversion H as [|? ? Hq H1]; subst.
      constructor; [assumption | apply IH; now split].
Qed.

(** The items of an object are read one after the other, from the first
    item or from a later one. *)
Lemma pairs_from_members (d : Results) : forall kv p pairs rest,
  (forall pairs key ts,
     pairs_from number_of p pairs (TString key :: ts)
     = pairs_from number_of (AfterKey key) pairs ts) ->
  json.read_back float_repr number_of (all_measurements (kv :: d)) ->
  pairs_from number_of p pairs
    (lex (String.concat ", " (map (encode_item float_repr) (kv :: d)) ++ String "}" rest))
  = pairs_from number_of End_ (pairs ++ kv :: d) (lex rest).
Proof.
  induction d as [|kv' d IH]; intros [key l] p pairs rest Hp Hrb;
    unfold all_measurements in Hrb; cbn [Dict.values map List.concat snd] in Hrb;
    apply read_back_app in Hrb as [Hl Hd].
  - cbn [map String.concat]. unfold encode_item. cbn [fst snd].
    rewrite !string_app_assoc, lex_basestring, Hp. cbn [append].
    change (lex (String ":" (String " " ?s))) with (Colon :: lex s).
    cbn [pairs_from]. rewrite (pairs_from_list l key pairs _ Hl). reflexivity.
  - change (String.concat ", " (map (encode_item float_repr) ((key, l) :: kv' :: d)))
      with (encode_item float_repr (key, l) ++ ", "
            ++ String.concat ", " (map (encode_item float_repr) (kv' :: d)))%string.
    unfold encode_item at 1. cbn [fst snd].
    rewrite !string_app_assoc, lex_basestring, Hp. cbn [append].
    change (lex (String ":" (String " " ?s))) with (Colon :: lex s).
    cbn [pairs_from]. rewrite (pairs_from_list l key pairs _ Hl).
    change (lex (String "," (String " " ?s))) with (Comma :: lex s).
    cbn [pairs_from].
    etransitivity;
      [exact (IH kv' NextKey (pairs ++ [(key, l)]) rest (fun _ _ _ => eq_refl) Hd)|].
    now rewrite <- app_assoc.
Qed.

(** The pairs of the text of results are the items of the results. *)
Lemma pairs_from_dumps (d : Results) :
  json.read_back float_repr number_of (all_measurements d) ->
  pairs_from number_of Start [] (lex (dumps float_repr d)) = Some d.
Proof.
  intros Hrb. unfold dumps, encode_dict. cbn [append].
  change (lex (String "{" ?s)) with (LBrace :: lex s). cbn [pairs_from].
  destruct d as [|kv d]; [reflexivity|].
  exact (pairs_from_members d kv FirstKey [] "" (fun _ _ _ => eq_refl) Hrb).
Qed.

End Numbers.

End json_facts.

Lemma dict_of_fold {K V : Type} `{EqDec K} (pairs : list (K * V)) :
  forall d : Dict.t K V,
  NoDup (Dict.keys d ++ Dict.keys pairs) ->
  fold_left (fun d kv => Dict.set d (fst kv) (snd kv)) pairs d = d ++ pairs.
Proof.
  induction pairs as [|[k v] pairs IH]; intros d Hnd; simpl.
  - now rewrite app_nil_r.
  - simpl in Hnd. pose proof (NoDup_remove_2 _ _ _ Hnd) as Hk.
    rewrite set_new by (intros Hin; apply Hk; apply in_or_app; now left).
    rewrite IH.
    + now rewrite <- app_assoc.
    + unfold Dict.keys in *. rewrite map_app. simpl. rewrite <- app_assoc. exact Hnd.
Qed.

(** [dict(pairs)] of pairs with distinct keys is the pairs. *)
Lemma dict_of_NoDup {K V : Type} `{EqDec K} (pairs : list (K * V)) :
  NoDup (Dict.keys pairs) -> dict_of pairs = pairs.
Proof. intros Hnd. unfold dict_of. now rewrite dict_of_fold. Qed.

(** Reading the text that is written of results gives the results again,
    when the numbers read back from their texts. *)
Lemma loads_dumps (float_repr : Q -> string) (number_of : string -> Q)
  (results : Results) :
  NoDup (Dict.keys results) ->
  json.read_back float_repr number_of (all_measurements results) ->
  json.loads number_of (json.dumps float_repr results) = Done results.
Proof.
  intros Hnd Hrb. unfold json.loads.
  rewrite (json_facts.pairs_from_dumps float_repr number_of results Hrb).
  now rewrite dict_of_NoDup.
Qed.

(** *** Two runs *)

Lemma same_inputs_hashfile (ext : Collaborators) (a1 a2 : Args) :
  same_inputs a1 a2 -> hashfile_of ext a2 = hashfile_of ext a1.
Proof.
  intros (E1 & E2 & E3 & E4 & E5 & E6). unfold hashfile_of.
  now rewrite E1, E2, E3, E4, E5, E6.
Qed.

(** After a run that has its results there is a cache file, and it holds
    what the run wrote when it computed them. *)
Lemma cache_after_run (ext : Collaborators) (fs fs1 : files (text ext))
  (a : Args) (evs : list event) (results : Results) :
  load_results ext fs a = (fs1, (evs, Done results)) ->
  exists f, fs1 (hashfile_of ext a) = Some f /\
            (In AnalyzeMain evs -> f = json_dump ext results).
Proof.
  intros Hrun.
  destruct (hit_or_miss ext fs a) as [Hmiss|(Hc & Hd & f & Hf)].
  - rewrite (load_results_miss ext fs a Hmiss) in Hrun. unfold computed in Hrun.
    destruct (analyze_main ext _ _ _ _ _ _ _ _) as [r|e|]; inversion Hrun; subst.
    exists (json_dump ext results). split; [apply write_same | reflexivity].
  - rewrite (load_results_hit ext fs a f Hc Hd Hf) in Hrun.
    inversion Hrun; subst. exists f. split; [assumption|].
    intros [E|[]]. discriminate E.
Qed.

(** C7.  The cache files are texts, written and read as [json] does.  The
    first run computes its results, a [dict] whose numbers read back from
    their texts, and writes the cache file, over the file that may have
    been there; the second run has the same inputs, no chart file and
    [debug] zero.  Then the second run reads the text that the first one
    wrote, and its results are the results of the first run: it calls no
    analysis and writes nothing. *)
Theorem cache_round_trip (float_repr : Q -> string) (number_of : string -> Q)
  (ext0 : Collaborators) (fs fs1 : files string) (a1 a2 : Args)
  (evs1 : list event) (results : Results) :
  let ext := with_json float_repr number_of ext0 in
  same_inputs a1 a2 ->
  load_results ext fs a1 = (fs1, (evs1, Done results)) ->
  In AnalyzeMain evs1 ->
  chartfile a2 = None -> debug a2 = 0%Z ->
  NoDup (Dict.keys results) ->
  json.read_back float_repr number_of (all_measurements results) ->
  fs1 (hashfile_of ext a2) = Some (json.dumps float_repr results) /\
  load_results ext fs1 a2 = (fs1, ([OpenRead (hashfile_of ext a2)], Done results)).
Proof.
  intros ext Hsame Hrun Hanalyzed Hc Hd Hnd Hrb.
  destruct (cache_after_run ext fs fs1 a1 evs1 results Hrun) as (f & Hf & Hwritten).
  rewrite (Hwritten Hanalyzed) in Hf.
  rewrite <- (same_inputs_hashfile ext a1 a2 Hsame) in Hf.
  split; [exact Hf|].
  rewrite (load_results_hit ext fs1 a2 _ Hc Hd Hf). do 2 f_equal.
  exact (loads_dumps float_repr number_of results Hnd Hrb).
Qed.

(** The first run is one with [--debug], over a cache file that an earlier
    run has left; the second run is one without. *)
Lemma cache_round_trip_witness :
  let ext := Demo.cached Demo.fractions in
  let a2 := Demo.args ["Control"] ["A 1mM"] false in
  let a1 := Demo.with_debug 1 a2 in
  let fs : files string := write (fun _ => None) ".cache.json" "{}" in
  let fs1 := write fs ".cache.json" (json.dumps Demo.repr Demo.fractions) in
  same_inputs a1 a2 /\
  load_results ext fs a1
    = (fs1, ([AnalyzeMain; OpenWrite ".cache.json"], Done Demo.fractions)) /\
  In AnalyzeMain [AnalyzeMain; OpenWrite ".cache.json"] /\
  chartfile a2 = None /\ debug a2 = 0%Z /\
  NoDup (Dict.keys Demo.fractions) /\
  json.read_back Demo.repr Demo.number (all_measurements Demo.fractions) /\
  fs1 (hashfile_of ext a2) = Some (json.dumps Demo.repr Demo.fractions) /\
  load_results ext fs1 a2 = (fs1, ([OpenRead (hashfile_of ext a2)], Done Demo.fractions)).
Proof.
  intros ext a2 a1 fs fs1.
  assert (Hsame : same_inputs a1 a2) by (repeat split).
  assert (Hnd : NoDup (Dict.keys Demo.fractions))
    by (repeat (constructor; [simpl; intuition discriminate|]); constructor).
  assert (Hrb : json.read_back Demo.repr Demo.number (all_measurements Demo.fractions)).
  { apply Forall_forall. intros q Hq. vm_compute in Hq.
    repeat (destruct Hq as [<-|Hq]; [split; vm_compute; reflexivity|]).
    contradiction. }
  split; [exact Hsame | split; [reflexivity | split; [now left|]]].
  split; [reflexivity | split; [reflexivity | split; [exact Hnd | split; [exact Hrb|]]]].
  exact (cache_round_trip Demo.repr Demo.number (Demo.collaborators Demo.fractions)
           fs fs1 a1 a2 [AnalyzeMain; OpenWrite ".cache.json"] Demo.fractions
           Hsame eq_refl (or_introl eq_refl) eq_refl eq_refl Hnd Hrb).
Defined.

(** ** EC values *)

Lemma for_events {A : Type} (body : A -> unit -> run unit) (f : A -> list event) :
  (forall x, body x tt = (f x, Done tt)) ->
  forall xs, for_ xs body tt = (flat_map f xs, Done tt).
Proof.
  intros Hbody xs. induction xs as [|x xs IH]; simpl; [reflexivity|].
  rewrite Hbody. simpl. now rewrite IH.
Qed.

Lemma print_ec_values_of_model (ext : Collaborators) (model : Model) :
  for_ ec_values (print_ec_value ext model) tt = (ec_lines ext model, Done tt).
Proof.
  unfold ec_values, ec_lines, print_ec_value, ec_line. simpl.
  destruct (effective_concentration ext model (inject_Z 50 / 100));
    destruct (effective_concentration ext model (inject_Z 75 / 100));
    destruct (effective_concentration ext model (inject_Z 90 / 100));
    reflexivity.
Qed.

Lemma print_ec_values_lines (ext : Collaborators) (models : Dict.t Cocktail Model) :
  print_ec_values ext models = (flat_map (ec_lines ext) (Dict.values models), Done tt).
Proof.
  unfold print_ec_values.
  apply (for_events (fun model _ => for_ ec_values (print_ec_value ext model) tt)).
  intros model. apply print_ec_values_of_model.
Qed.

Lemma Forall_set {K V : Type} `{EqDec K} (P : K * V -> Prop) (d : Dict.t K V) k v :
  Forall P d -> P (k, v) -> Forall P (Dict.set d k v).
Proof.
  intros Hd Hkv. induction Hd as [|[k' v'] d Hx Hd IH]; simpl.
  - now constructor.
  - destruct (eq_dec k k') as [->|Hne]; constructor; assumption.
Qed.

(** What an iteration of the model loop leaves when it ends: the state as it
    was for the Control Cocktail, one more Model otherwise. *)
Lemma generate_model_Done (ext : Collaborators) fuel results control_drugs pcv plate_info
  c dc models solution evs st' :
  generate_model ext fuel results control_drugs pcv plate_info c (dc, models, solution)
    = (evs, Done st') ->
  (c = Control /\ st' = (dc, models, solution)) \/
  (c <> Control /\
   exists dc' scores solution',
     prepend_controls fuel dc c control_drugs = Done dc' /\
     st' = (dc',
            Dict.set models c
              {| conditions := conditions_of dc' c; summary_scores := scores;
                 cocktail := c; E_max := pcv |},
            solution')).
Proof.
  unfold generate_model. destruct (eq_dec c Control) as [Ec|Nc].
  - intros [= <- <-]. now left.
  - intros Hrun. right. split; [assumption|].
    destruct (prepend_controls fuel dc c control_drugs) as [dc'| |] eqn:Ep;
      try discriminate.
    rewrite bind_lift_Done in Hrun.
    destruct (score_conditions results (conditions_of dc' c) [] []) as [[cs ss]| |];
      try discriminate.
    rewrite bind_lift_Done in Hrun.
    destruct (match last_opt (conditions_of dc' c) with
              | Some s => Some s
              | None => solution
              end) as [s|] eqn:Es; try discriminate.
    simpl of_option in Hrun. rewrite bind_lift_Done in Hrun.
    destruct (Dict.get results s) as [scores|]; try discriminate.
    simpl in Hrun. injection Hrun as <- <-. eauto 6.
Qed.

(** C8.  The lines printed for the Models that were built are, Model by Model
    in the order of [models], the lines of the EC values 50, 75 and 90 in
    this order, one line exactly for each value whose effective concentration
    is not NaN; a line is the label of the Model, the EC value, the
    concentration with two decimals and the unit.  No Model is that of the
    Control Cocktail, so no line is printed for it. *)
Theorem ec_values_printed (ext : Collaborators) (fuel : nat) (results : Results)
  (control_drugs : list Cocktail) (positive_control_value : float)
  (plate_info : option string) (drug_conditions : store)
  (evs : list event) (st : build_state) :
  generate_models ext fuel results control_drugs positive_control_value plate_info
    drug_conditions = (evs, Done st) ->
  print_ec_values ext (models_of st)
    = (flat_map (ec_lines ext) (Dict.values (models_of st)), Done tt) /\
  Forall (fun cm => fst cm <> Control /\ cocktail (snd cm) = fst cm) (models_of st).
Proof.
  intros Hrun. split; [apply print_ec_values_lines|].
  unfold generate_models in Hrun.
  refine (for_invariant
            (fun s => Forall (fun cm => fst cm <> Control /\ cocktail (snd cm) = fst cm)
                        (models_of s))
            _ _ _ _ _ _ Hrun _); [|constructor].
  intros c [[dc models] solution] evs' s' Hbody Hinv.
  apply generate_model_Done in Hbody
    as [[_ ->]|(Nc & dc' & scores & solution' & _ & ->)]; [assumption|].
  unfold models_of in *. simpl in *. apply Forall_set; [assumption|]. now split.
Qed.

(** The lines of the scenario, with "Control" as the control: EC50 and EC75
    of B, A and A+B; the stand-in curve has no EC90. *)
Lemma ec_values_printed_witness :
  let ext := Demo.collaborators Demo.scenario in
  let dc := _parse_results ext Demo.scenario [] in
  exists evs st,
    generate_models ext 8 Demo.scenario [Control] (fin 51) None dc = (evs, Done st) /\
    print_ec_values ext (models_of st)
      = ([Print "B EC_50=1.25mM"; Print "B EC_75=1.88mM";
          Print "A EC_50=1.25mM"; Print "A EC_75=1.88mM";
          Print "A+B EC_50=1.25mM"; Print "A+B EC_75=1.88mM"], Done tt) /\
    Forall (fun cm => fst cm <> Control /\ cocktail (snd cm) = fst cm) (models_of st).
Proof.
  intros ext dc. eexists. eexists.
  assert (Hrun : forall r, r = generate_models ext 8 Demo.scenario [Control] (fin 51) None dc ->
                 generate_models ext 8 Demo.scenario [Control] (fin 51) None dc = r)
    by (intros r ->; reflexivity).
  split; [apply Hrun; lazy; reflexivity|].
  eapply (ec_values_printed ext 8 Demo.scenario [Control] (fin 51) None dc).
  apply Hrun. lazy. reflexivity.
Defined.

(** ** Combinations *)

Lemma last_opt_cons {A : Type} (x : A) (l : list A) :
  last_opt (x :: l) = match last_opt l with Some y => Some y | None => Some x end.
Proof.
  revert x. induction l as [|y l IH]; intros x; [reflexivity|].
  change (last_opt (x :: y :: l)) with (last_opt (y :: l)).
  rewrite IH. now destruct (last_opt l).
Qed.

Lemma pymax_fold_maximum (qs : list Q) : forall floor,
  is_maximum (fold_left pymax qs floor) floor qs.
Proof.
  induction qs as [|a qs IH]; intros floor; simpl.
  - repeat split; [apply Qle_refl | intros q [] | now left].
  - destruct (IH (pymax floor a)) as (Hfloor & Hle & Hin).
    assert (Hp : floor <= pymax floor a /\ a <= pymax floor a
                 /\ (pymax floor a = floor \/ pymax floor a = a)).
    { unfold pymax. destruct (Qlt_le_dec floor a); repeat split; auto; lra. }
    destruct Hp as (Hp1 & Hp2 & Hp3).
    repeat split.
    + lra.
    + intros q [<-|I]; [lra | now apply Hle].
    + destruct Hin as [E|I]; [|now right; right].
      rewrite <- E. destruct Hp3 as [->| ->]; [now left | now right; left].
Qed.

Section Diamond.

Variable ext : Collaborators.
Variable models : Dict.t Cocktail Model.

(** An iteration that does not raise either skips the combination or
    analyzes it with its two single-drug Models. *)
Lemma diamond_step model_combo total_max_x total_max_y plot_filename :
  skipped models model_combo = true \/ paired models model_combo <> None ->
  diamond ext models model_combo (total_max_x, total_max_y, plot_filename) =
    match paired models model_combo with
    | Some (model_a, model_b) =>
        let r := analyze_diamond ext model_a model_b model_combo in
        ([AnalyzeDiamond model_a model_b model_combo;
          ChartDiamond model_a model_b model_combo],
         Done (pymax total_max_x (extent_x r), pymax total_max_y (extent_y r),
               Some (plot_file r)))
    | None => ([], Done (total_max_x, total_max_y, plot_filename))
    end.
Proof.
  unfold diamond, skipped, paired, Dict.mem.
  destruct (cocktail model_combo) as [|drug_a [|drug_b rest]]; simpl.
  - intros [H|H]; [discriminate | congruence].
  - destruct (Dict.get models (Cocktail_of drug_a)) as [model_a|]; simpl.
    + intros [H|H]; [discriminate | congruence].
    + reflexivity.
  - destruct (Dict.get models (Cocktail_of drug_a)) as [model_a|]; simpl.
    + intros [H|H]; [discriminate|].
      destruct (Dict.get models (Cocktail_of drug_b)) as [model_b|]; [|congruence].
      simpl. now destruct (analyze_diamond ext model_a model_b model_combo) as [[f x] y].
    + reflexivity.
Qed.

(** the first drug has a Model, the second has none: [KeyError] *)
Lemma diamond_second_missing model_combo st drug_a drug_b :
  nth_error (cocktail model_combo) 0 = Some drug_a ->
  nth_error (cocktail model_combo) 1 = Some drug_b ->
  Dict.mem models (Cocktail_of drug_a) = true ->
  Dict.mem models (Cocktail_of drug_b) = false ->
  diamond ext models model_combo st = ([], Raise KeyError).
Proof.
  intros Ha Hb Hma Hmb. destruct st as [[tx ty] pf]. unfold diamond.
  rewrite Ha, Hb. simpl of_option. rewrite bind_lift_Done, Hma. simpl negb.
  rewrite bind_lift_Done.
  apply mem_true_iff in Hma as [model_a Ea]. apply mem_false_iff in Hmb.
  rewrite Ea. simpl of_option. rewrite bind_lift_Done, Hmb. reflexivity.
Qed.

Lemma diamond_loop (combos : list Model) : forall total_max_x total_max_y plot_filename,
  Forall (fun model_combo =>
            skipped models model_combo = true \/ paired models model_combo <> None)
    combos ->
  for_ combos (diamond ext models) (total_max_x, total_max_y, plot_filename) =
    let ps :=
      flat_map
        (fun model_combo =>
           match paired models model_combo with
           | Some (model_a, model_b) => [(model_a, model_b, model_combo)]
           | None => []
           end)
        combos in
    (flat_map diamond_events ps,
     Done (fold_left pymax (map (fun p => extent_x (analysis ext p)) ps) total_max_x,
           fold_left pymax (map (fun p => extent_y (analysis ext p)) ps) total_max_y,
           match last_opt ps with
           | Some p => Some (plot_file (analysis ext p))
           | None => plot_filename
           end)).
Proof.
  induction combos as [|model_combo combos IH]; intros tx ty pf Hall; [reflexivity|].
  inversion Hall as [|? ? Hhead Htail]; subst.
  cbn [for_]. rewrite (diamond_step _ _ _ _ Hhead).
  cbn [flat_map]. destruct (paired models model_combo) as [[model_a model_b]|].
  - cbv zeta. rewrite bind_Done. rewrite (IH _ _ _ Htail). cbv zeta.
    cbn [fst snd app map fold_left flat_map diamond_events analysis].
    rewrite last_opt_cons.
    match goal with |- context [last_opt ?l] => destruct (last_opt l) end;
      reflexivity.
  - rewrite bind_Done. rewrite (IH _ _ _ Htail). reflexivity.
Qed.

Lemma analyze_diamonds_no_combination :
  models_combo_of ext models = [] -> analyze_diamonds ext models = ([Figure], Done tt).
Proof. intros E. unfold analyze_diamonds. now rewrite E. Qed.

End Diamond.

(** The figure of the diamond analysis where no combination raises.  With
    no combination among the Models, the diamond analysis opens
    its figure, saves no file and raises nothing.  When no combination raises
    (each is skipped, or has a Model for both of its drugs) and at least one
    is analyzed, the run ends normally: after the analyses and charts of the
    analyzed combinations in their order, the axes are set to the running
    maxima of the x- and y-extents, which start from 1, and the figure is
    saved to the plot file of the last analysis. *)
Theorem diamond_figure (ext : Collaborators) (models : Dict.t Cocktail Model) :
  (models_combo_of ext models = [] ->
   analyze_diamonds ext models = ([Figure], Done tt)) /\
  (Forall (fun model_combo =>
             skipped models model_combo = true \/ paired models model_combo <> None)
     (models_combo_of ext models) ->
   forall last, last_opt (processed ext models) = Some last ->
   exists total_max_x total_max_y,
     analyze_diamonds ext models =
       (Figure :: flat_map diamond_events (processed ext models)
          ++ [Xlim total_max_x; Ylim total_max_y;
              Savefig (plot_file (analysis ext last)); Close; Clf],
        Done tt) /\
     is_maximum total_max_x 1
       (map (fun p => extent_x (analysis ext p)) (processed ext models)) /\
     is_maximum total_max_y 1
       (map (fun p => extent_y (analysis ext p)) (processed ext models))).
Proof.
  split; [apply analyze_diamonds_no_combination|].
  intros Hall last Hlast.
  exists (fold_left pymax
            (map (fun p => extent_x (analysis ext p)) (processed ext models)) 1),
         (fold_left pymax
            (map (fun p => extent_y (analysis ext p)) (processed ext models)) 1).
  split; [|split; apply pymax_fold_maximum].
  unfold analyze_diamonds. cbv zeta.
  rewrite (diamond_loop ext models _ 1 1 None Hall). cbv zeta.
  fold (processed ext models). rewrite Hlast.
  destruct (models_combo_of ext models) as [|model_combo combos] eqn:Ecombos.
  - unfold processed in Hlast. rewrite Ecombos in Hlast. discriminate.
  - reflexivity.
Qed.

(** The scenario with "Control" as its control: the one combination A+B is
    analyzed with the Models of A and of B. *)
Lemma diamond_figure_witness :
  let ext := Demo.collaborators Demo.scenario in
  exists models model_a model_b model_combo,
    Forall (fun model_combo =>
              skipped models model_combo = true \/ paired models model_combo <> None)
      (models_combo_of ext models) /\
    last_opt (processed ext models) = Some (model_a, model_b, model_combo) /\
    exists total_max_x total_max_y,
      analyze_diamonds ext models =
        (Figure :: flat_map diamond_events (processed ext models)
           ++ [Xlim total_max_x; Ylim total_max_y;
               Savefig "A+B_diamond.png"; Close; Clf],
         Done tt) /\
      is_maximum total_max_x 1
        (map (fun p => extent_x (analysis ext p)) (processed ext models)) /\
      is_maximum total_max_y 1
        (map (fun p => extent_y (analysis ext p)) (processed ext models)).
Proof.
  intros ext.
  pose (models :=
          [ (["B"], model_of Demo.scenario (fin 51) ["B"] ["Control"; "B 1mM"]);
            (["A"], model_of Demo.scenario (fin 51) ["A"] ["Control"; "A 1mM"]);
            (["A"; "B"],
             model_of Demo.scenario (fin 51) ["A"; "B"] ["Control"; "A 1mM+B 1mM"]) ]).
  exists models,
    (model_of Demo.scenario (fin 51) ["A"] ["Control"; "A 1mM"]),
    (model_of Demo.scenario (fin 51) ["B"] ["Control"; "B 1mM"]),
    (model_of Demo.scenario (fin 51) ["A"; "B"] ["Control"; "A 1mM+B 1mM"]).
  assert (Hall : Forall (fun model_combo =>
                           skipped models model_combo = true
                           \/ paired models model_combo <> None)
                   (models_combo_of ext models))
    by (apply Forall_forall; intros mc [<-|[]]; right; intros Hp;
        vm_compute in Hp; discriminate Hp).
  split; [exact Hall | split; [reflexivity|]].
  exact (proj2 (diamond_figure ext models) Hall _ eq_refl).
Defined.

(** C10.  With no combination among the Models, checkerboard mode raises
    [IndexError] where it takes the first combination, before any analysis
    or chart; diamond mode opens its figure and ends normally. *)
Theorem checkerboard_needs_a_combination (ext : Collaborators)
  (plate_info : option string) (models : Dict.t Cocktail Model) :
  models_combo_of ext models = [] ->
  analyze_combinations ext true plate_info models = ([], Raise IndexError) /\
  analyze_combinations ext false plate_info models = ([Figure], Done tt).
Proof.
  intros Hnone. split.
  - unfold analyze_combinations, analyze_checkerboard. simpl negb. cbv iota zeta.
    now rewrite Hnone.
  - unfold analyze_combinations. simpl negb. cbv iota.
    now apply analyze_diamonds_no_combination.
Qed.

(** Two single drugs and no combination. *)
Lemma checkerboard_needs_a_combination_witness :
  let ext := Demo.collaborators Demo.singles in
  let models :=
    [ (["A"], model_of Demo.singles (fin 51) ["A"] ["Control"; "A 1mM"]);
      (["B"], model_of Demo.singles (fin 51) ["B"] ["Control"; "B 1mM"]) ] in
  models_combo_of ext models = [] /\
  analyze_combinations ext true None models = ([], Raise IndexError) /\
  analyze_combinations ext false None models = ([Figure], Done tt).
Proof.
  intros ext models. split; [reflexivity|].
  exact (checkerboard_needs_a_combination ext None models eq_refl).
Defined.

(** C1, where the code departs from it.  The results have the combination
    A+B, drug A alone and no condition of drug B alone, and "Control" is the
    control.  The Models are those of A and of A+B; the first drug of the
    combination has a Model, so the combination is not skipped, and the
    lookup of the Model of B raises [KeyError]: the run ends with the error,
    after the models, the EC lines and the opening of the figure. *)
Theorem diamond_second_drug_without_model :
  let ext := Demo.collaborators Demo.without_B in
  let r := snd (main ext 8 Demo.no_files (Demo.args ["Control"] ["A 1mM"] false)) in
  result r = Raise KeyError /\
  last_opt (events r) = Some Figure /\
  Dict.keys (_parse_results ext Demo.without_B []) = [["Control"]; ["A"]; ["A"; "B"]].
Proof. vm_compute. repeat split. Qed.

(** C1, the other half.  The results have the combination A+B, drug B alone
    and no condition of drug A alone.  The combination is skipped, as the
    claim has it; but it was the only one, no analysis has named a plot file,
    and saving the figure raises [UnboundLocalError]. *)
Lemma diamond_first_drug_without_model :
  let ext := Demo.collaborators Demo.without_A in
  let r := snd (main ext 8 Demo.no_files (Demo.args ["Control"] ["B 1mM"] false)) in
  result r = Raise UnboundLocalError /\
  firstn 3 (rev (events r)) = [Ylim 1; Xlim 1; Figure].
Proof. vm_compute. split; reflexivity. Qed.

(** With two combinations that both have their single-drug Models, the
    run ends normally: the axes are set to the greatest extents, 3 and 2,
    and the figure is saved to the plot file of the last combination. *)
Lemma diamond_figure_of_two_combinations :
  let ext := Demo.collaborators Demo.two_combinations in
  let r := snd (main ext 8 Demo.no_files (Demo.args ["Control"] ["A 2mM"] false)) in
  result r = Done tt /\
  firstn 5 (rev (events r))
    = [Clf; Close; Savefig "A+C_diamond.png"; Ylim 2; Xlim 3] /\
  map (fun p => (plot_file (analysis ext p), extent_x (analysis ext p),
                 extent_y (analysis ext p)))
    (processed ext
       (models_of
          (match result (generate_models ext 8 Demo.two_combinations [Control]
                           (fin 61) None
                           (_parse_results ext Demo.two_combinations [])) with
           | Done st => st
           | _ => ([], [], None)
           end)))
    = [("A+B_diamond.png", 3, 2); ("A+C_diamond.png", 3, 2)].
Proof. vm_compute. repeat split. Qed.

(** C2.  The results have the combinations A+B and A+C, the drugs A and B
    alone and no condition of drug C alone.  The combination A+B is analyzed
    and charted: one combination is processed, and the claim has the axes
    set and the figure saved to its plot file.  The lookup of the Model of C
    then raises [KeyError] inside the loop: the run ends with the error, and
    the figure is neither scaled nor saved. *)
Theorem diamond_raises_after_an_analysis :
  let ext := Demo.collaborators Demo.without_C in
  let r := snd (main ext 8 Demo.no_files (Demo.args ["Control"] ["A 1mM"] false)) in
  result r = Raise KeyError /\
  (exists model_a model_b model_combo,
     firstn 3 (rev (events r))
       = [ChartDiamond model_a model_b model_combo;
          AnalyzeDiamond model_a model_b model_combo; Figure] /\
     cocktail model_a = ["A"] /\ cocktail model_b = ["B"] /\
     cocktail model_combo = ["A"; "B"]) /\
  Forall (fun e => match e with
                   | Xlim _ | Ylim _ | Savefig _ => False
                   | _ => True
                   end)
    (events r).
Proof.
  split; [vm_compute; reflexivity|]. split.
  - do 3 eexists. split; [lazy; reflexivity|]. repeat split.
  - vm_compute. repeat constructor.
Qed.

(** ** The dose series *)

Lemma conditions_of_set_eq (dc : store) c l : conditions_of (Dict.set dc c l) c = l.
Proof. unfold conditions_of. now rewrite get_set_eq. Qed.

Lemma conditions_of_set_neq (dc : store) c c' l :
  c <> c' -> conditions_of (Dict.set dc c l) c' = conditions_of dc c'.
Proof. intros Hne. unfold conditions_of. now rewrite get_set_neq. Qed.

Lemma skipn_nth_error {A : Type} (l : list A) : forall i x,
  nth_error l i = Some x -> skipn i l = x :: skipn (S i) l.
Proof.
  induction l as [|y l IH]; intros [|i] x; simpl; try discriminate.
  - now intros [= ->].
  - intros Hx. now rewrite (IH i x Hx).
Qed.

(** The list that is read is the list that grows: the index never reaches
    the length, and the loop does not end. *)
Lemma insert_controls_aliased (c : Cocktail) : forall fuel (dc : store) i,
  (i < List.length (conditions_of dc c))%nat ->
  insert_controls fuel dc c c i = OutOfFuel.
Proof.
  induction fuel as [|fuel IH]; intros dc i Hi; simpl; [reflexivity|].
  destruct (nth_error (conditions_of dc c) i) as [solution|] eqn:E.
  - apply IH. rewrite conditions_of_set_eq. simpl. lia.
  - apply nth_error_None in E. lia.
Qed.

(** The list that is read is another list than the one that grows: the loop
    ends when the index has gone through it, and has prepended its elements
    one by one, which reverses them. *)
Lemma insert_controls_distinct (c control_drug : Cocktail) :
  c <> control_drug ->
  forall fuel (dc : store) i,
  (List.length (conditions_of dc control_drug) - i < fuel)%nat ->
  insert_controls fuel dc c control_drug i =
    Done (if (i <? List.length (conditions_of dc control_drug))%nat
          then Dict.set dc c
                 (rev (skipn i (conditions_of dc control_drug)) ++ conditions_of dc c)
          else dc).
Proof.
  intros Hne. induction fuel as [|fuel IH]; intros dc i Hfuel; [lia|]. simpl.
  destruct (nth_error (conditions_of dc control_drug) i) as [solution|] eqn:E.
  - assert (Hi : (i < List.length (conditions_of dc control_drug))%nat)
      by (apply nth_error_Some; congruence).
    rewrite IH by (rewrite conditions_of_set_neq by assumption; lia).
    rewrite conditions_of_set_neq by assumption. rewrite conditions_of_set_eq.
    rewrite set_set. apply Nat.ltb_lt in Hi as Hi'. rewrite Hi'.
    rewrite (skipn_nth_error _ _ _ E).
    destruct (S i <? List.length (conditions_of dc control_drug))%nat eqn:Hs.
    + cbn [rev]. now rewrite <- app_assoc.
    + apply Nat.ltb_ge in Hs. rewrite (skipn_all2 _ Hs). reflexivity.
  - apply nth_error_None in E. apply Nat.ltb_ge in E. now rewrite E.
Qed.

Lemma insert_controls_all (c control_drug : Cocktail) fuel (dc : store) own :
  c <> control_drug -> Dict.get dc c = Some own ->
  (List.length (conditions_of dc control_drug) < fuel)%nat ->
  insert_controls fuel dc c control_drug 0 =
    Done (Dict.set dc c (rev (conditions_of dc control_drug) ++ own)).
Proof.
  intros Hne Hown Hfuel. rewrite insert_controls_distinct by (assumption || lia).
  assert (Hc : conditions_of dc c = own) by (unfold conditions_of; now rewrite Hown).
  rewrite Hc. simpl skipn.
  destruct (conditions_of dc control_drug) as [|s l]; simpl; [|reflexivity].
  now rewrite set_get_id.
Qed.

Lemma flat_map_ext_In {A B : Type} (f g : A -> list B) (l : list A) :
  (forall x, In x l -> f x = g x) -> flat_map f l = flat_map g l.
Proof.
  induction l as [|x l IH]; simpl; intros Hfg; [reflexivity|].
  rewrite (Hfg x) by now left. rewrite IH; [reflexivity|].
  intros y Hy. apply Hfg. now right.
Qed.

(** The control drugs one after the other, none of them the Cocktail
    itself: their Solutions are before the own ones, last one first. *)
Lemma prepend_controls_distinct (c : Cocktail) (fuel : nat) :
  forall (control_drugs : list Cocktail) (dc : store) own,
  ~ In c control_drugs ->
  Forall (fun cd => Dict.mem dc cd = true) control_drugs ->
  Forall (fun cd => (List.length (conditions_of dc cd) < fuel)%nat) control_drugs ->
  Dict.get dc c = Some own ->
  prepend_controls fuel dc c control_drugs =
    Done (Dict.set dc c (rev (control_solutions dc control_drugs) ++ own)).
Proof.
  induction control_drugs as [|cd cds IH]; intros dc own Hnin Hmem Hfuel Hown.
  - simpl. now rewrite set_get_id.
  - inversion Hmem as [|? ? Hcd Hcds]; subst.
    inversion Hfuel as [|? ? Hfcd Hfcds]; subst.
    assert (Hne : c <> cd) by (intros ->; apply Hnin; now left).
    assert (Hnin' : ~ In c cds) by (intros Hin; apply Hnin; now right).
    simpl. apply mem_true_iff in Hcd as [l Hl]. rewrite Hl.
    rewrite (insert_controls_all c cd fuel dc own Hne Hown Hfcd).
    assert (Hsame : forall x, In x cds ->
              conditions_of (Dict.set dc c (rev (conditions_of dc cd) ++ own)) x
              = conditions_of dc x).
    { intros x Hx. apply conditions_of_set_neq. intros ->. now apply Hnin'. }
    rewrite (IH _ (rev (conditions_of dc cd) ++ own)); try assumption.
    + rewrite set_set. f_equal. f_equal. unfold control_solutions.
      rewrite (flat_map_ext_In _ (conditions_of dc) cds Hsame).
      cbn [flat_map]. rewrite rev_app_distr. now rewrite app_assoc.
    + apply Forall_forall. intros x Hx. rewrite Forall_forall in Hcds.
      specialize (Hcds x Hx). apply mem_true_iff in Hcds as [v Hv].
      apply mem_true_iff. exists v. rewrite get_set_neq; [assumption|].
      intros ->. now apply Hnin'.
    + apply Forall_forall. intros x Hx. rewrite Forall_forall in Hfcds.
      rewrite (Hsame x Hx). now apply Hfcds.
    + apply get_set_eq.
Qed.

Lemma get_of_In {K V : Type} `{EqDec K} (d : Dict.t K V) k v :
  NoDup (Dict.keys d) -> In (k, v) d -> Dict.get d k = Some v.
Proof.
  induction d as [|[k' v'] d IH]; simpl; intros Hnd Hin; [contradiction|].
  inversion Hnd as [|? ? Hk' Hnd']; subst.
  destruct Hin as [[= -> ->]|Hin].
  - destruct (eq_dec k k); congruence.
  - destruct (eq_dec k k') as [->|Hne]; [|now apply IH].
    exfalso. apply Hk'. change k' with (fst (k', v)). now apply in_map.
Qed.

Lemma last_opt_In {A : Type} (l : list A) :
  l <> [] -> exists x, last_opt l = Some x /\ In x l.
Proof.
  induction l as [|x l IH]; intros Hne; [congruence|].
  destruct l as [|y l]; [exists x; split; [reflexivity | now left]|].
  destruct IH as (z & Hz & Hin); [discriminate|].
  exists z. split; [exact Hz | now right].
Qed.

Lemma score_conditions_present (results : Results) : forall conds cs ss,
  (forall s, In s conds -> In s (Dict.keys results)) ->
  exists cs',
    score_conditions results conds cs ss =
      Done (cs', ss ++ map (fun s => np.nanmedian (results_of results s)) conds).
Proof.
  induction conds as [|s conds IH]; intros cs ss Hkeys; simpl.
  - exists cs. now rewrite app_nil_r.
  - destruct (In_keys_get results s (Hkeys s (or_introl eq_refl))) as [scores E].
    rewrite E.
    destruct (IH (Dict.set cs s scores) (ss ++ [np.nanmedian scores])) as [cs' E'].
    { intros x Hx. apply Hkeys. now right. }
    exists cs'. rewrite E'. unfold results_of at 2. rewrite E.
    now rewrite <- app_assoc.
Qed.

Lemma well_resolved_set (results : Results) (dc : store) c l :
  well_resolved results dc -> l <> [] ->
  (forall s, In s l -> In s (Dict.keys results)) ->
  well_resolved results (Dict.set dc c l).
Proof.
  intros [Hnd Hall] Hne Hl. split; [now apply NoDup_keys_set|].
  intros c' l' Hget. destruct (eq_dec c c') as [<-|Hc].
  - rewrite get_set_eq in Hget. injection Hget as <-. now split.
  - rewrite get_set_neq in Hget by assumption. eapply Hall; eassumption.
Qed.

Section ModelLoop.

Variable ext : Collaborators.
Variable fuel : nat.
Variable results : Results.
Variable control_drugs : list Cocktail.
Variable positive_control_value : float.
Variable plate_info : option string.

(** An iteration for a Cocktail that is modeled and is not a control drug:
    it ends, and has built the Model of the control Solutions, last one
    first, followed by the own Solutions. *)
Lemma generate_model_modeled c (dc : store) models solution own :
  c <> Control -> ~ In c control_drugs ->
  Forall (fun cd => Dict.mem dc cd = true) control_drugs ->
  Forall (fun cd => (List.length (conditions_of dc cd) < fuel)%nat) control_drugs ->
  Dict.get dc c = Some own -> own <> [] ->
  (forall s, In s (rev (control_solutions dc control_drugs) ++ own) ->
             In s (Dict.keys results)) ->
  exists evs solution',
    generate_model ext fuel results control_drugs positive_control_value plate_info c
      (dc, models, solution) =
    (evs,
     Done (Dict.set dc c (rev (control_solutions dc control_drugs) ++ own),
           Dict.set models c
             (model_of results positive_control_value c
                (rev (control_solutions dc control_drugs) ++ own)),
           solution')).
Proof.
  intros Hc Hnin Hmem Hfuel Hown Hne Hkeys.
  unfold generate_model. destruct (eq_dec c Control) as [E|_]; [contradiction|].
  rewrite (prepend_controls_distinct c fuel control_drugs dc own Hnin Hmem Hfuel Hown).
  rewrite bind_lift_Done, conditions_of_set_eq.
  set (series := rev (control_solutions dc control_drugs) ++ own) in *.
  destruct (score_conditions_present results series [] [] Hkeys) as [cs' Escores].
  rewrite Escores, bind_lift_Done. simpl app.
  destruct (last_opt_In series) as (s & Hlast & Hin).
  { unfold series. intros Happ. apply app_eq_nil in Happ as [_ Hnil]. contradiction. }
  rewrite Hlast. simpl of_option. rewrite bind_lift_Done.
  destruct (In_keys_get results s (Hkeys s Hin)) as [scores Es].
  rewrite Es. simpl of_option. rewrite bind_lift_Done.
  eexists. exists (Some s). reflexivity.
Qed.

Hypothesis control_is_Control : forall cd, In cd control_drugs -> cd = Control.

Lemma generate_models_loop : forall (ks : list Cocktail) (dc : store) models solution,
  well_resolved results dc ->
  NoDup ks ->
  (forall c, In c ks -> In c (Dict.keys dc)) ->
  (forall c, In c ks -> ~ In c (Dict.keys models)) ->
  Forall (fun cd => Dict.mem dc cd = true) control_drugs ->
  Forall (fun cd => (List.length (conditions_of dc cd) < fuel)%nat) control_drugs ->
  exists evs dc' solution',
    for_ ks (generate_model ext fuel results control_drugs positive_control_value plate_info)
      (dc, models, solution) =
    (evs,
     Done (dc',
           models ++
             map (fun c => (c, model_of results positive_control_value c
                                 (rev (control_solutions dc control_drugs)
                                    ++ conditions_of dc c)))
               (filter (fun c => negb (is_Control c)) ks),
           solution')).
Proof.
  induction ks as [|c ks IH]; intros dc models solution Hres Hnd Hkeys Hfresh Hmem Hfuel.
  - simpl. exists [], dc, solution. now rewrite app_nil_r.
  - inversion Hnd as [|? ? Hc_ks Hnd']; subst.
    assert (Hkeys' : forall c', In c' ks -> In c' (Dict.keys dc))
      by (intros c' Hc'; apply Hkeys; now right).
    cbn [for_ filter]. unfold is_Control at 1.
    destruct (eq_dec c Control) as [Ec|Nc].
    + (* the Control Cocktail is passed over *)
      assert (Hskip : generate_model ext fuel results control_drugs positive_control_value
                        plate_info c (dc, models, solution) = ret (dc, models, solution)).
      { unfold generate_model. destruct (eq_dec c Control); [reflexivity | contradiction]. }
      rewrite Hskip. unfold ret. rewrite bind_Done. cbn [negb fst snd app].
      destruct (IH dc models solution) as (evs & dc' & solution' & E); auto.
      { intros c' Hc'. apply Hfresh. now right. }
      rewrite E. now exists evs, dc', solution'.
    + (* a modeled Cocktail *)
      cbn [negb map].
      assert (Hnin : ~ In c control_drugs)
        by (intros Hin; apply Nc; now apply control_is_Control).
      destruct (In_keys_get dc c (Hkeys c (or_introl eq_refl))) as [own Hown].
      destruct Hres as [Hnd_dc Hall].
      destruct (Hall c own Hown) as [Hne Hown_keys].
      set (series := rev (control_solutions dc control_drugs) ++ own).
      assert (Hseries : forall s, In s series -> In s (Dict.keys results)).
      { intros s Hs. apply in_app_or in Hs as [Hs|Hs]; [|now apply Hown_keys].
        apply in_rev in Hs. apply in_flat_map in Hs as (cd & Hcd & Hs).
        rewrite Forall_forall in Hmem. specialize (Hmem cd Hcd).
        apply mem_true_iff in Hmem as [l Hl].
        unfold conditions_of in Hs. rewrite Hl in Hs.
        now apply (proj2 (Hall cd l Hl)). }
      destruct (generate_model_modeled c dc models solution own Nc Hnin Hmem Hfuel
                  Hown Hne Hseries) as (evs1 & solution1 & E1).
      fold series in E1. rewrite E1, bind_Done.
      assert (Hother : forall x, x <> c ->
                conditions_of (Dict.set dc c series) x = conditions_of dc x)
        by (intros x Hx; apply conditions_of_set_neq; congruence).
      assert (Hcontrols : control_solutions (Dict.set dc c series) control_drugs
                          = control_solutions dc control_drugs).
      { apply flat_map_ext_In. intros cd Hcd. apply Hother. intros ->. now apply Hnin. }
      destruct (IH (Dict.set dc c series)
                  (Dict.set models c (model_of results positive_control_value c series))
                  solution1) as (evs & dc' & solution' & E).
      * apply well_resolved_set; [now split | | assumption].
        unfold series. intros Happ. apply app_eq_nil in Happ as [_ Hnil]. contradiction.
      * assumption.
      * intros c' Hc'. rewrite keys_set_old; [now apply Hkeys'|].
        apply Hkeys. now left.
      * intros c' Hc'. rewrite set_new by (apply Hfresh; now left).
        unfold Dict.keys. rewrite map_app. intros Hin.
        apply in_app_or in Hin as [Hin|[<-|[]]]; [|contradiction].
        apply (Hfresh c'); [now right | exact Hin].
      * apply Forall_forall. intros cd Hcd. rewrite Forall_forall in Hmem.
        specialize (Hmem cd Hcd). apply mem_true_iff in Hmem as [l Hl].
        apply mem_true_iff. exists l. rewrite get_set_neq; [assumption|].
        intros ->. now apply Hnin.
      * apply Forall_forall. intros cd Hcd. rewrite Forall_forall in Hfuel.
        rewrite Hother by (intros ->; now apply Hnin). now apply Hfuel.
      * cbv beta. unfold store, build_state in E |- *. rewrite E.
        exists (evs1 ++ evs), dc', solution'. cbn [fst snd].
        rewrite Hcontrols. rewrite set_new by (apply Hfresh; now left).
        rewrite <- app_assoc. cbn [app].
        assert (Hc : conditions_of dc c = own)
          by (unfold conditions_of; now rewrite Hown).
        rewrite Hc. fold series. do 6 f_equal.
        apply map_ext_in. intros c' Hc'. apply filter_In in Hc' as [Hc' _].
        rewrite Hother; [reflexivity|]. intros ->. contradiction.
Qed.

End ModelLoop.

Lemma modeled_entries (dc : store) (F : Cocktail -> list Solution -> Model) :
  NoDup (Dict.keys dc) ->
  map (fun c => (c, F c (conditions_of dc c)))
    (filter (fun c => negb (is_Control c)) (Dict.keys dc))
  = map (fun entry => (fst entry, F (fst entry) (snd entry))) (modeled dc).
Proof.
  intros Hnd. unfold modeled.
  assert (Hgen : forall l, incl l dc ->
            map (fun c => (c, F c (conditions_of dc c)))
              (filter (fun c => negb (is_Control c)) (Dict.keys l))
            = map (fun entry => (fst entry, F (fst entry) (snd entry)))
                (filter (fun entry => negb (is_Control (fst entry))) l)).
  { induction l as [|[k v] l IH]; intros Hincl; [reflexivity|].
    assert (Hl : incl l dc) by (intros x Hx; apply Hincl; now right).
    cbn [Dict.keys map filter fst]. fold (Dict.keys l).
    destruct (negb (is_Control k)); [|now apply IH].
    cbn [map fst snd]. rewrite (IH Hl). do 3 f_equal.
    unfold conditions_of. rewrite (get_of_In dc k v Hnd); [reflexivity|].
    apply Hincl. now left. }
  apply Hgen. apply incl_refl.
Qed.

(** C3, as the code has it.  When every control drug has conditions and none
    of them is itself a modeled Cocktail, the model loop ends (the fuel has
    only to exceed the number of control Solutions), and the Models are those
    of the Cocktails other than Control, in the order of the resolved
    conditions; the dose series of each is the control Solutions in the
    reverse of the order in which they are taken (the last control drug
    first, the Solutions of each control last one first), followed by the
    own Solutions of the Cocktail in their order. *)
Theorem dose_series_of_models (ext : Collaborators) (results : Results)
  (conversions : Dict.t string string) (control_drugs : list Cocktail)
  (positive_control_value : float) (plate_info : option string) (fuel : nat) :
  let dc := _parse_results ext results conversions in
  Forall (fun cd => Dict.mem dc cd = true) control_drugs ->
  Forall (fun cd => cd = Control \/ Dict.mem dc cd = false) control_drugs ->
  (List.length (conditions_of dc Control) < fuel)%nat ->
  exists evs st,
    generate_models ext fuel results control_drugs positive_control_value plate_info dc
      = (evs, Done st) /\
    models_of st =
      map (fun entry =>
             (fst entry,
              model_of results positive_control_value (fst entry)
                (rev (control_solutions dc control_drugs) ++ snd entry)))
        (modeled dc).
Proof.
  intros dc Hmem Hnot Hfuel.
  assert (Hcontrol : forall cd, In cd control_drugs -> cd = Control).
  { intros cd Hcd. rewrite Forall_forall in Hmem, Hnot.
    destruct (Hnot cd Hcd) as [E|E]; [assumption|].
    rewrite (Hmem cd Hcd) in E. discriminate. }
  pose proof (parse_results_resolved ext results conversions) as Hres. fold dc in Hres.
  destruct (generate_models_loop ext fuel results control_drugs positive_control_value
              plate_info Hcontrol (Dict.keys dc) dc [] None)
    as (evs & dc' & solution' & E).
  - assumption.
  - apply Hres.
  - auto.
  - intros c _ [].
  - assumption.
  - apply Forall_forall. intros cd Hcd. now rewrite (Hcontrol cd Hcd).
  - exists evs, (dc', map (fun c => (c, model_of results positive_control_value c
                                        (rev (control_solutions dc control_drugs)
                                           ++ conditions_of dc c)))
                       (filter (fun c => negb (is_Control c)) (Dict.keys dc)),
                 solution').
    split; [exact E|].
    unfold models_of. cbn [fst snd].
    apply (modeled_entries dc
             (fun c own => model_of results positive_control_value c
                             (rev (control_solutions dc control_drugs) ++ own))).
    apply Hres.
Qed.

(** a run is what it evaluates to *)
Lemma run_value {A : Type} (r v : run A) : v = r -> r = v.
Proof. intros ->. reflexivity. Qed.

(** The Control Cocktail with two conditions: the series of A is the two
    control Solutions, the second one first, and then "A 1mM". *)
Lemma dose_series_of_models_witness :
  let ext := Demo.collaborators Demo.two_controls in
  let dc := _parse_results ext Demo.two_controls [] in
  Forall (fun cd => Dict.mem dc cd = true) [Control] /\
  Forall (fun cd => cd = Control \/ Dict.mem dc cd = false) [Control] /\
  (List.length (conditions_of dc Control) < 8)%nat /\
  exists evs st,
    generate_models ext 8 Demo.two_controls [Control] (fin 51) None dc = (evs, Done st) /\
    models_of st =
      [ (["A"], model_of Demo.two_controls (fin 51) ["A"]
                  ["Control 0mM"; "Control"; "A 1mM"]) ].
Proof.
  intros ext dc.
  assert (H1 : Forall (fun cd => Dict.mem dc cd = true) [Control])
    by (repeat constructor).
  assert (H2 : Forall (fun cd => cd = Control \/ Dict.mem dc cd = false) [Control])
    by (constructor; [now left | constructor]).
  assert (H3 : (List.length (conditions_of dc Control) < 8)%nat)
    by (vm_compute; lia).
  split; [exact H1 | split; [exact H2 | split; [exact H3 |]]].
  exact (dose_series_of_models ext Demo.two_controls [] [Control] (fin 51) None 8
           H1 H2 H3).
Defined.

(** C3 as stated fails where the control has two Solutions.  The run ends,
    and the series of the Model of A is "Control 0mM", "Control", "A 1mM";
    the claim has the control Solutions in their original order, "Control",
    "Control 0mM", "A 1mM". *)
Lemma dose_series_of_models_counterexample :
  let ext := Demo.collaborators Demo.two_controls in
  let dc := _parse_results ext Demo.two_controls [] in
  exists evs st,
    generate_models ext 8 Demo.two_controls [Control] (fin 51) None dc = (evs, Done st) /\
    map (fun cm => (fst cm, conditions (snd cm))) (models_of st)
      = [ (["A"], ["Control 0mM"; "Control"; "A 1mM"]) ] /\
    map (fun entry => (fst entry, control_solutions dc [Control] ++ snd entry)) (modeled dc)
      = [ (["A"], ["Control"; "Control 0mM"; "A 1mM"]) ].
Proof.
  intros ext dc. eexists. eexists. split.
  - apply run_value. lazy. reflexivity.
  - split; reflexivity.
Qed.

(** ** A control drug that is itself modeled *)

Section Aliased.

Variable ext : Collaborators.
Variable fuel : nat.
Variable results : Results.

(** The first control drug is the Cocktail of the iteration: its list is
    read and prepended to at once. *)
Lemma prepend_controls_aliased (dc : store) c rest l :
  Dict.get dc c = Some l -> l <> [] ->
  prepend_controls fuel dc c (c :: rest) = OutOfFuel.
Proof.
  intros Hl Hne. simpl. rewrite Hl. rewrite insert_controls_aliased; [reflexivity|].
  unfold conditions_of. rewrite Hl. destruct l; [contradiction | simpl; lia].
Qed.

Lemma generate_model_aliased (dc : store) c rest l pcv plate_info models solution :
  c <> Control -> Dict.get dc c = Some l -> l <> [] ->
  generate_model ext fuel results (c :: rest) pcv plate_info c (dc, models, solution)
    = ([], OutOfFuel).
Proof.
  intros Hc Hl Hne. unfold generate_model.
  destruct (eq_dec c Control); [contradiction|].
  now rewrite (prepend_controls_aliased dc c rest l Hl Hne).
Qed.

Lemma generate_models_aliased (dc : store) c rest l pcv plate_info ks1 ks2 :
  Dict.keys dc = ks1 ++ c :: ks2 ->
  (forall k, In k ks1 -> k = Control) ->
  c <> Control -> Dict.get dc c = Some l -> l <> [] ->
  generate_models ext fuel results (c :: rest) pcv plate_info dc = ([], OutOfFuel).
Proof.
  intros Hkeys Hks1 Hc Hl Hne. unfold generate_models. rewrite Hkeys. clear Hkeys.
  assert (Hloop : forall (models : Dict.t Cocktail Model) (solution : option Solution),
            for_ (ks1 ++ c :: ks2)
              (generate_model ext fuel results (c :: rest) pcv plate_info)
              (dc, models, solution) = ([], OutOfFuel)); [|apply Hloop].
  induction ks1 as [|k ks1 IH]; intros models solution; cbn [app for_].
  - now rewrite (generate_model_aliased dc c rest l pcv plate_info models solution Hc Hl Hne).
  - assert (Hk : k = Control) by (apply Hks1; now left).
    unfold generate_model at 1. destruct (eq_dec k Control); [|contradiction].
    unfold ret. rewrite bind_Done. cbv beta. rewrite IH; [reflexivity|].
    intros k' Hk'. apply Hks1. now right.
Qed.

Lemma analyze_results_aliased (a : Args) evs0 pcv c rest ks1 ks2 :
  let dc := _parse_results ext results (dict_of (conversions a)) in
  positive_control ext results dc (plate_positive_control a) = (evs0, Done pcv) ->
  map (fun control => Cocktail_of (Dose_drug ext control)) (plate_control a) = c :: rest ->
  Dict.keys dc = ks1 ++ c :: ks2 ->
  (forall k, In k ks1 -> k = Control) ->
  c <> Control ->
  analyze_results ext fuel a results = (evs0, OutOfFuel).
Proof.
  intros dc Hpc Hcontrols Hkeys Hks1 Hc.
  unfold analyze_results. cbv zeta. fold dc. rewrite Hpc, Hcontrols, bind_Done.
  cbv beta.
  destruct (In_keys_get dc c) as [l Hl].
  { rewrite Hkeys. apply in_or_app. right. now left. }
  destruct (parse_results_resolved ext results (dict_of (conversions a))) as [_ Hall].
  fold dc in Hall. destruct (Hall c l Hl) as [Hne _].
  rewrite (generate_models_aliased dc c rest l pcv (plate_info a) ks1 ks2 Hkeys Hks1 Hc Hl Hne).
  cbn [fst snd bind]. now rewrite app_nil_r.
Qed.

End Aliased.

(** C9, where the code departs from it.  In the scenario of the
    specification the control drug B is itself a modeled Cocktail.  The
    iteration for B prepends to the list of B the Solutions that it reads
    from this same list: the list grows as fast as the index, and the run
    does not end, whatever the fuel.  Nothing is charted or printed after the
    cache is written. *)
Theorem control_drug_as_cocktail_never_ends : forall fuel : nat,
  let ext := Demo.collaborators Demo.scenario in
  let r := snd (main ext fuel Demo.no_files (Demo.args ["B"] ["A 1mM"] false)) in
  result r = OutOfFuel /\ events r = [AnalyzeMain; OpenWrite ".cache.json"].
Proof.
  intros fuel ext r.
  assert (Hrun : analyze_results ext fuel (Demo.args ["B"] ["A 1mM"] false) Demo.scenario
                 = ([], OutOfFuel)).
  { apply (analyze_results_aliased ext fuel Demo.scenario
             (Demo.args ["B"] ["A 1mM"] false) [] (fin (102 # 2)) ["B"] []
             [Control] [["A"]; ["A"; "B"]]).
    - reflexivity.
    - reflexivity.
    - reflexivity.
    - intros k [<-|[]]. reflexivity.
    - discriminate. }
  subst r. unfold main.
  change (load_results ext Demo.no_files (Demo.args ["B"] ["A 1mM"] false))
    with (write Demo.no_files ".cache.json" Demo.scenario,
          ([AnalyzeMain; OpenWrite ".cache.json"], @Done Results Demo.scenario)).
  cbv iota beta. rewrite bind_Done, Hrun. split; reflexivity.
Qed.

(** *** At any place among the control drugs *)

(** The inner loop changes the list of the Cocktail only, and only by
    putting Solutions before it. *)
Lemma insert_controls_grows (c control_drug : Cocktail) :
  forall fuel (dc dc' : store) i,
  insert_controls fuel dc c control_drug i = Done dc' ->
  (exists added, conditions_of dc' c = added ++ conditions_of dc c) /\
  (forall x, x <> c -> conditions_of dc' x = conditions_of dc x).
Proof.
  induction fuel as [|fuel IH]; intros dc dc' i; simpl; [discriminate|].
  destruct (nth_error (conditions_of dc control_drug) i) as [solution|].
  - intros Hrun. apply IH in Hrun as [[added Hadded] Hother]. split.
    + exists (added ++ [solution]). rewrite Hadded, conditions_of_set_eq.
      now rewrite <- app_assoc.
    + intros x Hx. rewrite (Hother x Hx). apply conditions_of_set_neq. congruence.
  - intros [= <-]. split; [now exists [] | reflexivity].
Qed.

(** With the Cocktail among the control drugs and its list not empty, the
    loops over the control drugs do not end normally, whatever the fuel. *)
Lemma prepend_controls_never_ends (c : Cocktail) (fuel : nat) :
  forall (control_drugs : list Cocktail) (dc dc' : store),
  In c control_drugs -> conditions_of dc c <> [] ->
  prepend_controls fuel dc c control_drugs <> Done dc'.
Proof.
  induction control_drugs as [|cd cds IH]; intros dc dc' Hin Hne; [contradiction|].
  simpl. destruct (Dict.get dc cd) as [l|]; [|discriminate].
  destruct (eq_dec cd c) as [->|Hcd].
  - rewrite insert_controls_aliased; [discriminate|].
    destruct (conditions_of dc c); [contradiction | simpl; lia].
  - destruct (insert_controls fuel dc c cd 0) as [dc1| |] eqn:E; try discriminate.
    apply insert_controls_grows in E as [[added Hadded] _].
    apply IH.
    + destruct Hin as [E|Hin]; [contradiction | assumption].
    + rewrite Hadded. intros Happ. apply app_eq_nil in Happ as [_ Hnil]. contradiction.
Qed.

Lemma prepend_controls_grows (c : Cocktail) (fuel : nat) :
  forall (control_drugs : list Cocktail) (dc dc' : store),
  prepend_controls fuel dc c control_drugs = Done dc' ->
  forall x, x <> c -> conditions_of dc' x = conditions_of dc x.
Proof.
  induction control_drugs as [|cd cds IH]; intros dc dc'; simpl.
  - now intros [= <-].
  - destruct (Dict.get dc cd) as [l|]; [|discriminate].
    destruct (insert_controls fuel dc c cd 0) as [dc1| |] eqn:E; try discriminate.
    intros Hrun x Hx. rewrite (IH dc1 dc' Hrun x Hx).
    now apply (proj2 (insert_controls_grows c cd fuel dc dc1 0%nat E)).
Qed.

(** A loop does not end normally when it comes to an element at which the
    body does not. *)
Lemma for_never_ends {A S : Type} (Inv : S -> Prop) (body : A -> S -> run S) (x : A) :
  (forall s evs s', Inv s -> body x s <> (evs, Done s')) ->
  (forall y s evs s', body y s = (evs, Done s') -> Inv s -> Inv s') ->
  forall xs s evs s', In x xs -> Inv s -> for_ xs body s <> (evs, Done s').
Proof.
  intros Hx Hstep. induction xs as [|y xs IH]; intros s evs s' Hin Hs; [contradiction|].
  simpl. intros Hrun.
  apply bind_inv_Done in Hrun as (evs1 & s1 & evs2 & H1 & H2 & _).
  destruct Hin as [->|Hin].
  - exact (Hx s evs1 s1 Hs H1).
  - exact (IH s1 evs2 s' Hin (Hstep y s evs1 s1 H1 Hs) H2).
Qed.

(** Whenever a control drug is itself a modeled Cocktail that has Solutions,
    the model loop does not end normally, whatever the fuel. *)
Lemma generate_models_never_ends (ext : Collaborators) (fuel : nat) (results : Results)
  (control_drugs : list Cocktail) (pcv : float) (plate_info : option string)
  (dc : store) (c : Cocktail) (evs : list event) (st : build_state) :
  In c control_drugs -> c <> Control ->
  In c (Dict.keys dc) -> conditions_of dc c <> [] ->
  generate_models ext fuel results control_drugs pcv plate_info dc <> (evs, Done st).
Proof.
  intros Hin Hc Hkey Hne. unfold generate_models.
  apply (for_never_ends (fun s : build_state => conditions_of (fst (fst s)) c <> []) _ c).
  - intros [[dc0 models] solution] evs0 s' Hs Hrun.
    apply generate_model_Done in Hrun as [[E _]|(_ & dc' & _ & _ & Hp & _)];
      [contradiction|].
    exact (prepend_controls_never_ends c fuel control_drugs dc0 dc' Hin Hs Hp).
  - intros y [[dc0 models] solution] evs0 s' Hrun Hs.
    apply generate_model_Done in Hrun as [[_ ->]|(_ & dc' & scores & sol' & Hp & ->)];
      [assumption|]. cbn [fst] in *.
    destruct (eq_dec y c) as [->|Hy].
    + exfalso. exact (prepend_controls_never_ends c fuel control_drugs dc0 dc' Hin Hs Hp).
    + rewrite (prepend_controls_grows y fuel control_drugs dc0 dc' Hp c); [assumption|].
      congruence.
  - assumption.
  - assumption.
Qed.

(** * More of [pipeline.py] *)

(** ** [_parse_results]: the grouping *)

Lemma put_multimap_conditions (dc : store) (k c : Cocktail) (s : Solution) :
  conditions_of (put_multimap dc k s) c
  = conditions_of dc c ++ (if eq_dec k c then [s] else []).
Proof.
  unfold put_multimap, conditions_of.
  destruct (Dict.get dc k) as [vs|] eqn:E; destruct (eq_dec k c) as [<-|Hne].
  - now rewrite get_set_eq, E.
  - rewrite get_set_neq by assumption. now rewrite app_nil_r.
  - now rewrite get_set_eq, E.
  - rewrite get_set_neq by assumption. now rewrite app_nil_r.
Qed.

Lemma put_multimap_keys (dc : store) (k : Cocktail) (s : Solution) :
  Dict.keys (put_multimap dc k s)
  = if in_dec eq_dec k (Dict.keys dc) then Dict.keys dc else Dict.keys dc ++ [k].
Proof.
  unfold put_multimap. destruct (in_dec eq_dec k (Dict.keys dc)) as [Hin|Hnin].
  - destruct (Dict.get dc k); now apply keys_set_old.
  - assert (E : Dict.get dc k = None) by now apply get_None_iff.
    rewrite E, set_new by assumption. unfold Dict.keys. now rewrite map_app.
Qed.

(** X1.  The resolved conditions of a Cocktail are the condition labels of
    the results that have this Cocktail, in the order of the results: no
    label is lost, none is put under another Cocktail, and a label that is
    there twice is kept twice. *)
Theorem parse_results_groups (ext : Collaborators) (results : Results)
  (conversions : Dict.t string string) (c : Cocktail) :
  conditions_of (_parse_results ext results conversions) c
  = filter (fun s => if eq_dec (get_cocktail ext conversions s) c then true else false)
      (Dict.keys results).
Proof.
  unfold _parse_results.
  assert (Hfold : forall ks (dc : store),
            conditions_of
              (fold_left
                 (fun drug_conditions condition =>
                    let solution : Solution := condition in
                    put_multimap drug_conditions
                      (get_cocktail ext conversions solution) solution)
                 ks dc) c
            = conditions_of dc c
              ++ filter (fun s => if eq_dec (get_cocktail ext conversions s) c
                                  then true else false) ks).
  { induction ks as [|k ks IH]; intros dc; simpl; [now rewrite app_nil_r|].
    rewrite IH, put_multimap_conditions, <- app_assoc.
    now destruct (eq_dec (get_cocktail ext conversions k) c). }
  now rewrite Hfold.
Qed.

Lemma first_seen_fold (cs : list Cocktail) : forall seen,
  NoDup seen ->
  let all := fold_left (fun seen c => if in_dec eq_dec c seen then seen else seen ++ [c])
               cs seen in
  NoDup all /\ forall c, In c all <-> In c seen \/ In c cs.
Proof.
  induction cs as [|x cs IH]; intros seen Hnd; simpl.
  - split; [assumption | tauto].
  - destruct (in_dec eq_dec x seen) as [Hin|Hnin].
    + destruct (IH seen Hnd) as [Hnd' Hiff]. split; [assumption|].
      intros c. rewrite Hiff. split; [tauto|]. intros [H|[<-|H]]; tauto.
    + destruct (IH (seen ++ [x])) as [Hnd' Hiff].
      { apply NoDup_app; [assumption | repeat constructor; simpl; tauto |].
        intros y Hy [<-|[]]. contradiction. }
      split; [assumption|]. intros c. rewrite Hiff, in_app_iff. simpl. tauto.
Qed.

(** X2.  The Cocktails of the resolved conditions are the Cocktails of the
    condition labels in the order in which they first come in the results,
    each of them once. *)
Theorem parse_results_keys (ext : Collaborators) (results : Results)
  (conversions : Dict.t string string) :
  let keys := Dict.keys (_parse_results ext results conversions) in
  keys = first_seen (map (get_cocktail ext conversions) (Dict.keys results)) /\
  NoDup keys /\
  forall c, In c keys <->
            exists s, In s (Dict.keys results) /\ get_cocktail ext conversions s = c.
Proof.
  assert (Hkeys : Dict.keys (_parse_results ext results conversions)
                  = first_seen (map (get_cocktail ext conversions) (Dict.keys results))).
  { unfold _parse_results, first_seen.
    assert (Hfold : forall ks (dc : store),
              Dict.keys
                (fold_left
                   (fun drug_conditions condition =>
                      let solution : Solution := condition in
                      put_multimap drug_conditions
                        (get_cocktail ext conversions solution) solution)
                   ks dc)
              = fold_left
                  (fun seen c => if in_dec eq_dec c seen then seen else seen ++ [c])
                  (map (get_cocktail ext conversions) ks) (Dict.keys dc)).
    { induction ks as [|k ks IH]; intros dc; simpl; [reflexivity|].
      now rewrite IH, put_multimap_keys. }
    now rewrite Hfold. }
  cbv zeta. rewrite Hkeys. split; [reflexivity|].
  destruct (first_seen_fold (map (get_cocktail ext conversions) (Dict.keys results)) []
              (NoDup_nil _)) as [Hnd Hiff].
  split; [exact Hnd|]. intros c. unfold first_seen. rewrite Hiff, in_map_iff.
  split.
  - intros [[]|(s & E & Hs)]. eauto.
  - intros (s & Hs & E). right. eauto.
Qed.

(** ** [_key_value_pair] *)

Lemma prefix_split (p : string) : forall s,
  String.prefix p s = true -> exists rest, s = (p ++ rest)%string.
Proof.
  induction p as [|a p IH]; intros s.
  - intros _. now exists s.
  - destruct s as [|b s]; simpl; [discriminate|].
    destruct (ascii_dec a b) as [->|]; [|discriminate].
    intros Hp. destruct (IH s Hp) as [rest ->]. now exists rest.
Qed.

Lemma append_length (p s : string) :
  String.length (p ++ s) = (String.length p + String.length s)%nat.
Proof. induction p as [|a p IH]; simpl; [reflexivity | now rewrite IH]. Qed.

Lemma append_inj_length (p1 : string) : forall p2 x y,
  String.length p1 = String.length p2 ->
  (p1 ++ x)%string = (p2 ++ y)%string -> p1 = p2 /\ x = y.
Proof.
  induction p1 as [|a p1 IH]; intros [|b p2] x y; simpl; intros Hlen Happ.
  - auto.
  - discriminate.
  - discriminate.
  - injection Hlen as Hlen. injection Happ as -> Happ.
    destruct (IH p2 x y Hlen Happ) as [-> ->]. auto.
Qed.

Lemma split_from_cons (sep : string) : forall s k,
  exists w ws, split_from sep s k = w :: ws.
Proof.
  induction s as [|c s IH]; intros k; [simpl; eauto|].
  destruct k as [|k]; cbn [split_from]; [|apply IH].
  destruct (String.prefix sep (String c s)); [eauto|].
  destruct (IH 0%nat) as (w & ws & ->). eauto.
Qed.

Lemma join_cons_char (sep : string) (c : ascii) (w : string) (ws : list string) :
  join sep (String c w :: ws) = String c (join sep (w :: ws)).
Proof. unfold join. now destruct ws. Qed.

Lemma join_empty_cons (sep w : string) (ws : list string) :
  join sep (EmptyString :: w :: ws) = (sep ++ join sep (w :: ws))%string.
Proof. reflexivity. Qed.

(** Joining the parts gives the string again, from the place where the
    separator that was being passed ends. *)
Lemma split_from_join (sep : string) :
  sep <> EmptyString ->
  forall s k, (k <= String.length s)%nat ->
  exists pre, String.length pre = k /\ s = (pre ++ join sep (split_from sep s k))%string.
Proof.
  intros Hsep. induction s as [|c s IH]; intros k Hk.
  - exists EmptyString. simpl in *. split; [lia | reflexivity].
  - destruct k as [|k].
    + exists EmptyString. split; [reflexivity|]. cbn [split_from append].
      destruct (String.prefix sep (String c s)) eqn:Hp.
      * destruct sep as [|a sep']; [contradiction|].
        simpl in Hp. destruct (ascii_dec a c) as [->|]; [|discriminate].
        destruct (prefix_split sep' s Hp) as [rest Hrest].
        cbn [String.length]. rewrite Nat.sub_1_r. cbn [Nat.pred].
        destruct (IH (String.length sep')) as (pre & Hlen & Hs).
        { rewrite Hrest, append_length. lia. }
        destruct (split_from_cons (String c sep') s (String.length sep'))
          as (w & ws & Esplit).
        rewrite Esplit in *. rewrite join_empty_cons. cbn [append].
        rewrite Hrest in Hs at 1.
        destruct (append_inj_length sep' pre rest _ (eq_sym Hlen) Hs) as [<- <-].
        now rewrite Hrest.
      * destruct (IH 0%nat) as (pre & Hlen & Hs); [lia|].
        destruct pre; [|discriminate]. simpl in Hs.
        destruct (split_from_cons sep s 0) as (w & ws & Esplit).
        rewrite Esplit in *. rewrite join_cons_char. now rewrite <- Hs.
    + destruct (IH k) as (pre & Hlen & Hs); [simpl in Hk; lia|].
      exists (String c pre). split; [simpl; now rewrite Hlen|].
      cbn [split_from append]. now rewrite <- Hs.
Qed.

(** X3.  With a delimiter that is not empty, [_key_value_pair] returns parts
    whose join with the delimiter is the argument again: nothing of the
    argument is dropped but the delimiters between the parts. *)
Theorem key_value_pair_join (argument delimiter : string) :
  delimiter <> EmptyString ->
  exists parts,
    _key_value_pair argument delimiter = Done parts /\
    join delimiter parts = argument.
Proof.
  intros Hsep. exists (split_from delimiter argument 0). split.
  - unfold _key_value_pair, split. now destruct delimiter.
  - destruct (split_from_join delimiter Hsep argument 0) as (pre & Hlen & Hs); [lia|].
    destruct pre; [|discriminate]. now rewrite Hs at 2.
Qed.

(** A conversion argument and its delimiter. *)
Lemma key_value_pair_join_witness :
  "=" <> EmptyString /\
  exists parts,
    _key_value_pair "ABC50=ABC 1mM" "=" = Done parts /\
    join "=" parts = "ABC50=ABC 1mM".
Proof.
  split; [discriminate|].
  apply (key_value_pair_join "ABC50=ABC 1mM" "="). discriminate.
Defined.

Lemma prefix_char (c c' : ascii) (s : string) :
  String.prefix (String c EmptyString) (String c' s)
  = if ascii_dec c c' then true else false.
Proof. simpl. destruct (ascii_dec c c'); [now destruct s | reflexivity]. Qed.

Lemma split_char (c : ascii) : forall s,
  List.length (split_from (String c EmptyString) s 0) = S (count_char c s) /\
  Forall (fun part => count_char c part = 0%nat) (split_from (String c EmptyString) s 0).
Proof.
  induction s as [|c' s [IHlen IHparts]].
  - simpl. split; [reflexivity | repeat constructor].
  - cbn [split_from]. rewrite prefix_char. cbn [count_char String.length Nat.sub].
    destruct (ascii_dec c c') as [E|N].
    + split; [cbn [List.length]; now rewrite IHlen | now constructor].
    + destruct (split_from (String c EmptyString) s 0) as [|w ws]; [discriminate|].
      inversion IHparts as [|? ? Hw Hws]; subst. split; [exact IHlen|].
      constructor; [|assumption]. cbn [count_char].
      destruct (ascii_dec c c'); [contradiction | exact Hw].
Qed.

Lemma split_without_char (c : ascii) : forall s,
  count_char c s = 0%nat -> split_from (String c EmptyString) s 0 = [s].
Proof.
  induction s as [|c' s IH]; [reflexivity|].
  cbn [count_char split_from]. rewrite prefix_char.
  destruct (ascii_dec c c'); [discriminate|]. intros Hs. now rewrite (IH Hs).
Qed.

(** X4.  With the delimiter [=], [_key_value_pair] returns one part more
    than there are [=] in the argument, and no part has a [=] in it: the
    tuple is a pair exactly for an argument with one [=]. *)
Theorem key_value_pair_parts (argument : string) :
  exists parts,
    _key_value_pair argument "=" = Done parts /\
    List.length parts = S (count_char "=" argument) /\
    Forall (fun part => count_char "=" part = 0%nat) parts.
Proof.
  exists (split_from "=" argument 0). split; [reflexivity|].
  apply (split_char "="%char).
Qed.

(** X5.  A key and a value that have no [=] in them come back from the
    argument [key=value] as the pair of the two. *)
Theorem key_value_pair_of_key_value (key value : string) :
  count_char "=" key = 0%nat -> count_char "=" value = 0%nat ->
  _key_value_pair (key ++ "=" ++ value) "=" = Done [key; value].
Proof.
  intros Hkey Hvalue. unfold _key_value_pair, split. f_equal.
  change ("=" ++ value)%string with (String "=" value).
  induction key as [|c key IH].
  - cbn [append split_from]. rewrite prefix_char.
    destruct (ascii_dec "=" "="); [|contradiction].
    cbn [String.length Nat.sub]. now rewrite (split_without_char "="%char value Hvalue).
  - cbn [count_char] in Hkey.
    destruct (ascii_dec "=" c) as [E|N]; [discriminate|].
    cbn [append split_from]. rewrite prefix_char.
    destruct (ascii_dec "=" c); [contradiction|]. now rewrite (IH Hkey).
Qed.

(** The abbreviation of a dose and what it stands for. *)
Lemma key_value_pair_of_key_value_witness :
  count_char "=" "ABC50" = 0%nat /\ count_char "=" "ABC 1mM" = 0%nat /\
  _key_value_pair ("ABC50" ++ "=" ++ "ABC 1mM") "=" = Done ["ABC50"; "ABC 1mM"].
Proof.
  split; [reflexivity | split; [reflexivity|]].
  apply (key_value_pair_of_key_value "ABC50" "ABC 1mM"); reflexivity.
Defined.

(** ** The script *)

Lemma pairs_of_pairs (pairs : list (string * string)) :
  pairs_of (map (fun kv => [fst kv; snd kv]) pairs) = Done pairs.
Proof.
  induction pairs as [|[k v] pairs IH]; simpl; [reflexivity | now rewrite IH].
Qed.

Lemma pairs_of_other_length (tuples : list (list string)) :
  Exists (fun tuple => List.length tuple <> 2%nat) tuples ->
  pairs_of tuples = Raise ValueError.
Proof.
  induction 1 as [tuple tuples Hlen|tuple tuples _ IH].
  - destruct tuple as [|k [|v [|x tuple]]]; simpl; try reflexivity. now elim Hlen.
  - destruct tuple as [|k [|v [|x tuple]]]; simpl; try reflexivity. now rewrite IH.
Qed.

Lemma tuples_of_Done (arguments : list string) :
  tuples_of arguments = Done (map (fun argument => split_from "=" argument 0) arguments).
Proof.
  induction arguments as [|argument arguments IH]; simpl; [reflexivity|].
  unfold _key_value_pair, split. cbv iota. fold tuples_of. now rewrite IH.
Qed.

Lemma load_results_with_conversions (ext : Collaborators) (fs : files (text ext))
  (a : Args) (pairs : list (string * string)) :
  load_results ext fs (with_conversions a pairs) = load_results ext fs a.
Proof. reflexivity. Qed.

(** With tuples that are pairs, the command line calls [main] with the
    pairs as its conversions. *)
Lemma main_of_pairs (ext : Collaborators) (fuel : nat) (fs : files (text ext))
  (a : Args) (tuples : list (list string)) (pairs : list (string * string)) :
  pairs_of tuples = Done pairs ->
  main_of_tuples ext fuel fs a tuples = main ext fuel fs (with_conversions a pairs).
Proof.
  intros Hpairs. unfold main_of_tuples, main.
  rewrite load_results_with_conversions, Hpairs.
  destruct (load_results ext fs a) as [fs' r]. f_equal.
  destruct r as [evs [results| |]]; try reflexivity.
  cbn [bind]. now rewrite bind_lift_Done.
Qed.

(** X6.  With a [--conversions] argument that has no [=] or more than one,
    and no cache to read, the script first runs the analysis and writes its
    results to the cache, and only then ends with the traceback of
    [ValueError] from [dict(conversions)]: no model is built and nothing is
    printed. *)
Theorem script_with_malformed_conversion (ext : Collaborators) (fuel : nat)
  (fs : files (text ext)) (a : Args) (arguments : list string) (results : Results) :
  Exists (fun argument => count_char "=" argument <> 1%nat) arguments ->
  chartfile a <> None \/ debug a <> 0%Z \/ fs (hashfile_of ext a) = None ->
  analyze_main ext (imagefiles a) (cap a) (chartfile a) (debug a)
    (group_regex a) (platefile a) (plate_control a) (plate_ignore a) = Done results ->
  script ext fuel fs a arguments =
    (write fs (hashfile_of ext a) (json_dump ext results),
     ([AnalyzeMain; OpenWrite (hashfile_of ext a)], Traceback ValueError)).
Proof.
  intros Hbad Hmiss Hanalysis. unfold script. rewrite tuples_of_Done.
  unfold main_of_tuples. rewrite (load_results_miss ext fs a Hmiss).
  unfold computed. rewrite Hanalysis.
  rewrite pairs_of_other_length; [reflexivity|].
  apply Exists_exists in Hbad as (argument & Hin & Hcount).
  apply Exists_exists. exists (split_from "=" argument 0). split.
  - apply (in_map (fun argument => split_from "=" argument 0)). exact Hin.
  - rewrite (proj1 (split_char "="%char argument)). lia.
Qed.

(** The scenario, with the conversion "ABC50" that has no [=]. *)
Lemma script_with_malformed_conversion_witness :
  let ext := Demo.collaborators Demo.scenario in
  let a := Demo.args ["Control"] ["A 1mM"] false in
  Exists (fun argument => count_char "=" argument <> 1%nat) ["ABC50"] /\
  (chartfile a <> None \/ debug a <> 0%Z \/ Demo.no_files (hashfile_of ext a) = None) /\
  analyze_main ext (imagefiles a) (cap a) (chartfile a) (debug a)
    (group_regex a) (platefile a) (plate_control a) (plate_ignore a) = Done Demo.scenario /\
  script ext 8 Demo.no_files a ["ABC50"] =
    (write Demo.no_files (hashfile_of ext a) (json_dump ext Demo.scenario),
     ([AnalyzeMain; OpenWrite (hashfile_of ext a)], Traceback ValueError)).
Proof.
  intros ext a.
  assert (H1 : Exists (fun argument => count_char "=" argument <> 1%nat) ["ABC50"])
    by (constructor; discriminate).
  assert (H2 : chartfile a <> None \/ debug a <> 0%Z
               \/ Demo.no_files (hashfile_of ext a) = None)
    by (right; right; reflexivity).
  split; [exact H1 | split; [exact H2 | split; [reflexivity|]]].
  exact (script_with_malformed_conversion ext 8 Demo.no_files a ["ABC50"]
           Demo.scenario H1 H2 eq_refl).
Defined.

(** X7.  When there is no cache to read and the analysis raises a
    [UserError], the script prints the line [Error: ] with the message after
    the analysis, exits with code 1 and writes no cache file; the
    conversions are not looked at. *)
Theorem script_with_user_error (ext : Collaborators) (fuel : nat)
  (fs : files (text ext)) (a : Args) (arguments : list string) (msg : string) :
  chartfile a <> None \/ debug a <> 0%Z \/ fs (hashfile_of ext a) = None ->
  analyze_main ext (imagefiles a) (cap a) (chartfile a) (debug a)
    (group_regex a) (platefile a) (plate_control a) (plate_ignore a)
    = Raise (UserError msg) ->
  script ext fuel fs a arguments =
    (fs, ([AnalyzeMain; Print ("Error: " ++ msg)%string], Exit 1)).
Proof.
  intros Hmiss Hanalysis. unfold script. rewrite tuples_of_Done.
  unfold main_of_tuples. rewrite (load_results_miss ext fs a Hmiss).
  unfold computed. now rewrite Hanalysis.
Qed.

(** A plate file that the analysis cannot read. *)
Lemma script_with_user_error_witness :
  let ext := Demo.failing "no such plate file" in
  let a := Demo.args ["Control"] [] false in
  (chartfile a <> None \/ debug a <> 0%Z \/ Demo.no_files (hashfile_of ext a) = None) /\
  analyze_main ext (imagefiles a) (cap a) (chartfile a) (debug a)
    (group_regex a) (platefile a) (plate_control a) (plate_ignore a)
    = Raise (UserError "no such plate file") /\
  script ext 8 Demo.no_files a ["ABC50=ABC 1mM"] =
    (Demo.no_files, ([AnalyzeMain; Print "Error: no such plate file"], Exit 1)).
Proof.
  intros ext a.
  assert (H : chartfile a <> None \/ debug a <> 0%Z
              \/ Demo.no_files (hashfile_of ext a) = None)
    by (right; right; reflexivity).
  split; [exact H | split; [reflexivity|]].
  exact (script_with_user_error ext 8 Demo.no_files a ["ABC50=ABC 1mM"]
           "no such plate file" H eq_refl).
Defined.

(** *** What is not a user error *)

Lemma no_user_error_ret {A : Type} (a : A) : no_user_error (ret a).
Proof. intros msg. discriminate. Qed.

Lemma no_user_error_emit (e : event) : no_user_error (emit e).
Proof. intros msg. discriminate. Qed.

Lemma no_user_error_lift {A : Type} (o : outcome A) :
  (forall msg, o <> Raise (UserError msg)) -> no_user_error (lift o).
Proof. intros Ho msg. apply Ho. Qed.

Lemma no_user_error_of_option {A : Type} (e : exn) (o : option A) :
  (forall msg, e <> UserError msg) -> no_user_error (lift (of_option e o)).
Proof.
  intros He msg. destruct o; simpl; [discriminate|]. intros [= E]. now apply (He msg).
Qed.

Lemma no_user_error_bind {A B : Type} (m : run A) (k : A -> run B) :
  no_user_error m -> (forall a, no_user_error (k a)) -> no_user_error (bind m k).
Proof.
  intros Hm Hk msg. destruct m as [evs [a| |]]; simpl.
  - specialize (Hk a msg). unfold result in *. now destruct (k a).
  - intros E. apply (Hm msg). injection E as ->. reflexivity.
  - discriminate.
Qed.

Lemma no_user_error_for {A S : Type} (body : A -> S -> run S) :
  (forall x s, no_user_error (body x s)) ->
  forall xs s, no_user_error (for_ xs body s).
Proof.
  intros Hbody xs. induction xs as [|x xs IH]; intros s; simpl.
  - apply no_user_error_ret.
  - apply no_user_error_bind; [apply Hbody | intros s'; apply IH].
Qed.

Lemma lookup_all_KeyError {K V : Type} `{EqDec K} (d : Dict.t K (list V)) (ks : list K)
  (e : exn) : lookup_all d ks = Raise e -> e = KeyError.
Proof.
  induction ks as [|k ks IH]; simpl; [discriminate|].
  destruct (Dict.get d k); [|now intros [= <-]].
  destruct (lookup_all d ks); try discriminate. intros [= <-]. now apply IH.
Qed.

Lemma insert_controls_no_raise (c control_drug : Cocktail) (e : exn) :
  forall fuel (dc : store) i, insert_controls fuel dc c control_drug i <> Raise e.
Proof.
  induction fuel as [|fuel IH]; intros dc i; simpl; [discriminate|].
  destruct (nth_error (conditions_of dc control_drug) i); [apply IH | discriminate].
Qed.

Lemma prepend_controls_KeyError (c : Cocktail) (fuel : nat) (e : exn) :
  forall (control_drugs : list Cocktail) (dc : store),
  prepend_controls fuel dc c control_drugs = Raise e -> e = KeyError.
Proof.
  induction control_drugs as [|cd cds IH]; intros dc; simpl; [discriminate|].
  destruct (Dict.get dc cd); [|now intros [= <-]].
  destruct (insert_controls fuel dc c cd 0) as [dc'| |] eqn:E.
  - apply IH.
  - now apply insert_controls_no_raise in E.
  - discriminate.
Qed.

Lemma score_conditions_KeyError (results : Results) (e : exn) :
  forall conds cs ss, score_conditions results conds cs ss = Raise e -> e = KeyError.
Proof.
  induction conds as [|s conds IH]; intros cs ss; simpl; [discriminate|].
  destruct (Dict.get results s); [apply IH | now intros [= <-]].
Qed.

Lemma pairs_of_ValueError (tuples : list (list string)) (e : exn) :
  pairs_of tuples = Raise e -> e = ValueError.
Proof.
  induction tuples as [|tuple tuples IH]; simpl; [discriminate|].
  destruct tuple as [|k [|v [|x tuple]]]; try (now intros [= <-]).
  destruct (pairs_of tuples); try discriminate. intros [= <-]. now apply IH.
Qed.

Section NoUserError.

Variable ext : Collaborators.

Lemma positive_control_no_user_error results dc labels :
  no_user_error (positive_control ext results dc labels).
Proof.
  unfold positive_control.
  apply no_user_error_bind.
  { apply no_user_error_lift. intros msg E. now apply lookup_all_KeyError in E. }
  intros solutions. apply no_user_error_bind.
  { apply no_user_error_lift. intros msg E. now apply lookup_all_KeyError in E. }
  intros scores. destruct (np.isnan (np.nanmean scores)); [|apply no_user_error_ret].
  apply no_user_error_bind; [apply no_user_error_emit|]. intros _.
  apply no_user_error_lift. intros msg. unfold np.nanmin.
  destruct (List.concat (Dict.values results)); [discriminate|].
  destruct (np.finite (f :: l)); discriminate.
Qed.

Lemma generate_model_no_user_error fuel results control_drugs pcv plate_info c st :
  no_user_error (generate_model ext fuel results control_drugs pcv plate_info c st).
Proof.
  unfold generate_model. destruct st as [[dc models] solution].
  destruct (eq_dec c Control); [apply no_user_error_ret|].
  apply no_user_error_bind.
  { apply no_user_error_lift. intros msg E. now apply prepend_controls_KeyError in E. }
  intros dc'. apply no_user_error_bind.
  { apply no_user_error_lift. intros msg E. now apply score_conditions_KeyError in E. }
  intros [cs ss]. apply no_user_error_bind.
  { apply no_user_error_of_option. discriminate. }
  intros s. apply no_user_error_bind.
  { apply no_user_error_of_option. discriminate. }
  intros scores. apply no_user_error_bind; [apply no_user_error_emit|].
  intros _. apply no_user_error_ret.
Qed.

Lemma print_ec_values_no_user_error models : no_user_error (print_ec_values ext models).
Proof. rewrite print_ec_values_lines. intros msg. discriminate. Qed.

Lemma diamond_no_user_error models model_combo st :
  no_user_error (diamond ext models model_combo st).
Proof.
  unfold diamond. destruct st as [[tx ty] pf].
  apply no_user_error_bind; [apply no_user_error_of_option; discriminate|].
  intros drug_a. destruct (negb (Dict.mem models (Cocktail_of drug_a)));
    [apply no_user_error_ret|].
  apply no_user_error_bind; [apply no_user_error_of_option; discriminate|].
  intros drug_b.
  apply no_user_error_bind; [apply no_user_error_of_option; discriminate|].
  intros model_a.
  apply no_user_error_bind; [apply no_user_error_of_option; discriminate|].
  intros model_b. destruct (analyze_diamond ext model_a model_b model_combo) as [[f x] y].
  apply no_user_error_bind; [apply no_user_error_emit|]. intros _.
  apply no_user_error_bind; [apply no_user_error_emit|]. intros _.
  apply no_user_error_ret.
Qed.

Lemma analyze_combinations_no_user_error checkerboard plate_info models :
  no_user_error (analyze_combinations ext checkerboard plate_info models).
Proof.
  unfold analyze_combinations. destruct (negb checkerboard).
  - unfold analyze_diamonds.
    apply no_user_error_bind; [apply no_user_error_emit|]. intros _.
    apply no_user_error_bind.
    { apply no_user_error_for. intros x s. apply diamond_no_user_error. }
    intros [[tx ty] pf]. destruct (models_combo_of ext models); [apply no_user_error_ret|].
    apply no_user_error_bind; [apply no_user_error_emit|]. intros _.
    apply no_user_error_bind; [apply no_user_error_emit|]. intros _.
    apply no_user_error_bind; [apply no_user_error_of_option; discriminate|]. intros f.
    apply no_user_error_bind; [apply no_user_error_emit|]. intros _.
    apply no_user_error_bind; [apply no_user_error_emit|]. intros _.
    apply no_user_error_emit.
  - unfold analyze_checkerboard.
    apply no_user_error_bind; [apply no_user_error_of_option; discriminate|]. intros mc.
    apply no_user_error_bind; [apply no_user_error_of_option; discriminate|]. intros da.
    apply no_user_error_bind; [apply no_user_error_of_option; discriminate|]. intros ma.
    apply no_user_error_bind; [apply no_user_error_of_option; discriminate|]. intros db.
    apply no_user_error_bind; [apply no_user_error_of_option; discriminate|]. intros mb.
    apply no_user_error_bind; [apply no_user_error_emit|]. intros _.
    apply no_user_error_emit.
Qed.

Lemma analyze_results_no_user_error fuel a results :
  no_user_error (analyze_results ext fuel a results).
Proof.
  unfold analyze_results. cbv zeta.
  apply no_user_error_bind; [apply positive_control_no_user_error|]. intros pcv.
  apply no_user_error_bind.
  { unfold generate_models. apply no_user_error_for. intros c st.
    apply generate_model_no_user_error. }
  intros st. apply no_user_error_bind; [apply print_ec_values_no_user_error|].
  intros _. apply analyze_combinations_no_user_error.
Qed.

End NoUserError.

Lemma rest_of_main_no_user_error (ext : Collaborators) (fuel : nat) (a : Args)
  (tuples : list (list string)) (evs : list event) (results : Results) :
  no_user_error
    (bind (evs, Done results)
       (fun results =>
          bind (lift (pairs_of tuples))
            (fun pairs => analyze_results ext fuel (with_conversions a pairs) results))).
Proof.
  apply no_user_error_bind; [intros msg; discriminate|].
  intros results'. apply no_user_error_bind.
  - apply no_user_error_lift. intros msg E. now apply pairs_of_ValueError in E.
  - intros pairs. apply analyze_results_no_user_error.
Qed.

(** The [except] clause of the script is reached only for a [UserError] of
    the analysis (or of the reading of the cache): the line [Error: ] with
    its message is then the one thing printed, and no file is written. *)
Lemma script_sys_exit_is_user_error (ext : Collaborators) (fuel : nat)
  (fs fs' : files (text ext)) (a : Args) (arguments : list string) (evs : list event) :
  script ext fuel fs a arguments = (fs', (evs, Exit 1)) ->
  fs' = fs /\
  exists msg,
    (analyze_main ext (imagefiles a) (cap a) (chartfile a) (debug a)
       (group_regex a) (platefile a) (plate_control a) (plate_ignore a)
     = Raise (UserError msg)
     /\ evs = [AnalyzeMain; Print ("Error: " ++ msg)%string])
    \/
    (exists f, fs (hashfile_of ext a) = Some f
               /\ json_load ext f = Raise (UserError msg)
               /\ evs = [OpenRead (hashfile_of ext a); Print ("Error: " ++ msg)%string]).
Proof.
  unfold script. rewrite tuples_of_Done. unfold main_of_tuples.
  set (tuples := map (fun argument => split_from "=" argument 0) arguments).
  destruct (hit_or_miss ext fs a) as [Hmiss|(Hc & Hd & f & Hf)].
  - rewrite (load_results_miss ext fs a Hmiss). unfold computed.
    destruct (analyze_main ext (imagefiles a) (cap a) (chartfile a) (debug a)
                (group_regex a) (platefile a) (plate_control a) (plate_ignore a))
      as [results|e|] eqn:Hanalysis.
    + pose proof (rest_of_main_no_user_error ext fuel a tuples
                    [AnalyzeMain; OpenWrite (hashfile_of ext a)] results) as Hnue.
      destruct (bind _ _) as [evs0 [u|e|]]; try discriminate.
      destruct e; try discriminate. now elim (Hnue msg).
    + cbn [bind]. destruct e; try discriminate.
      intros [= <- <-]. split; [reflexivity|]. exists msg. left. now split.
    + discriminate.
  - rewrite (load_results_hit ext fs a f Hc Hd Hf).
    destruct (json_load ext f) as [results|e|] eqn:Hload.
    + pose proof (rest_of_main_no_user_error ext fuel a tuples
                    [OpenRead (hashfile_of ext a)] results) as Hnue.
      destruct (bind _ _) as [evs0 [u|e|]]; try discriminate.
      destruct e; try discriminate. now elim (Hnue msg).
    + cbn [bind]. destruct e; try discriminate.
      intros [= <- <-]. split; [reflexivity|]. exists msg. right. exists f. now repeat split.
    + discriminate.
Qed.

(** An exception that leaves the script with a traceback is never a
    [UserError]: the [except] clause takes every one of them. *)
Lemma script_traceback_is_no_user_error (ext : Collaborators) (fuel : nat)
  (fs fs' : files (text ext)) (a : Args) (arguments : list string) (evs : list event)
  (e : exn) :
  script ext fuel fs a arguments = (fs', (evs, Traceback e)) ->
  forall msg, e <> UserError msg.
Proof.
  unfold script. rewrite tuples_of_Done.
  destruct (main_of_tuples ext fuel fs a _) as [fs0 [evs0 [u|e0|]]]; try discriminate.
  destruct e0; try discriminate; intros [= _ _ <-] msg'; discriminate.
Qed.

(** X8.  A script that ends with exit status 1 has either come to
    [sys.exit(1)] in its [except] clause, and then the analysis (or the
    reading of the cache) has raised a [UserError], the line [Error: ] with
    its message is the one thing printed and no file is written; or it has
    ended with the traceback of an exception that is not a [UserError], as
    the errors of the pipeline itself do ([KeyError], [IndexError],
    [ValueError], [UnboundLocalError]): the status is 1 in both cases, and
    the [except] clause is never reached for the pipeline's own errors. *)
Theorem script_exit_status_1 (ext : Collaborators) (fuel : nat)
  (fs fs' : files (text ext)) (a : Args) (arguments : list string) (evs : list event)
  (e : ending) :
  script ext fuel fs a arguments = (fs', (evs, e)) ->
  exit_status e = Some 1%Z ->
  (e = Exit 1 /\ fs' = fs /\
   exists msg,
     (analyze_main ext (imagefiles a) (cap a) (chartfile a) (debug a)
        (group_regex a) (platefile a) (plate_control a) (plate_ignore a)
      = Raise (UserError msg)
      /\ evs = [AnalyzeMain; Print ("Error: " ++ msg)%string])
     \/
     (exists f, fs (hashfile_of ext a) = Some f
                /\ json_load ext f = Raise (UserError msg)
                /\ evs = [OpenRead (hashfile_of ext a); Print ("Error: " ++ msg)%string]))
  \/
  (exists x, e = Traceback x /\ forall msg, x <> UserError msg).
Proof.
  intros Hrun Hstatus. destruct e as [code|x|]; simpl in Hstatus.
  - injection Hstatus as ->. left. split; [reflexivity|].
    exact (script_sys_exit_is_user_error ext fuel fs fs' a arguments evs Hrun).
  - right. exists x. split; [reflexivity|].
    exact (script_traceback_is_no_user_error ext fuel fs fs' a arguments evs x Hrun).
  - discriminate.
Qed.

(** The plate file that the analysis cannot read, which comes to
    [sys.exit(1)]; and the plate without drug B alone, whose [KeyError] is
    caught by nothing. *)
Lemma script_exit_status_1_witness :
  (let ext := Demo.failing "no such plate file" in
   let a := Demo.args ["Control"] [] false in
   script ext 8 Demo.no_files a []
     = (Demo.no_files, ([AnalyzeMain; Print "Error: no such plate file"], Exit 1)) /\
   exit_status (Exit 1) = Some 1%Z /\
   ((Exit 1 = Exit 1 /\ Demo.no_files = Demo.no_files /\
     exists msg,
       (analyze_main ext (imagefiles a) (cap a) (chartfile a) (debug a)
          (group_regex a) (platefile a) (plate_control a) (plate_ignore a)
        = Raise (UserError msg)
        /\ [AnalyzeMain; Print "Error: no such plate file"]
           = [AnalyzeMain; Print ("Error: " ++ msg)%string])
       \/
       (exists f, Demo.no_files (hashfile_of ext a) = Some f
                  /\ json_load ext f = Raise (UserError msg)
                  /\ [AnalyzeMain; Print "Error: no such plate file"]
                     = [OpenRead (hashfile_of ext a); Print ("Error: " ++ msg)%string]))
    \/
    (exists x, Exit 1 = Traceback x /\ forall msg, x <> UserError msg)))
  /\
  (let ext := Demo.collaborators Demo.without_B in
   let a := Demo.args ["Control"] ["A 1mM"] false in
   exists fs' evs,
     script ext 8 Demo.no_files a [] = (fs', (evs, Traceback KeyError)) /\
     exit_status (Traceback KeyError) = Some 1%Z /\
     ((Traceback KeyError = Exit 1 /\ fs' = Demo.no_files /\
       exists msg,
         (analyze_main ext (imagefiles a) (cap a) (chartfile a) (debug a)
            (group_regex a) (platefile a) (plate_control a) (plate_ignore a)
          = Raise (UserError msg)
          /\ evs = [AnalyzeMain; Print ("Error: " ++ msg)%string])
         \/
         (exists f, Demo.no_files (hashfile_of ext a) = Some f
                    /\ json_load ext f = Raise (UserError msg)
                    /\ evs = [OpenRead (hashfile_of ext a); Print ("Error: " ++ msg)%string]))
      \/
      (exists x, Traceback KeyError = Traceback x /\ forall msg, x <> UserError msg))).
Proof.
  split.
  - intros ext a. split; [reflexivity | split; [reflexivity|]].
    apply (script_exit_status_1 ext 8 Demo.no_files Demo.no_files a []
             [AnalyzeMain; Print "Error: no such plate file"] (Exit 1));
      reflexivity.
  - intros ext a.
    assert (Hrun : forall r, r = script ext 8 Demo.no_files a [] ->
                             script ext 8 Demo.no_files a [] = r)
      by (intros r ->; reflexivity).
    eexists. eexists. split; [apply Hrun; lazy; reflexivity|].
    split; [reflexivity|].
    eapply (script_exit_status_1 ext 8 Demo.no_files _ a [] _ (Traceback KeyError)).
    + apply Hrun. lazy. reflexivity.
    + reflexivity.
Defined.

(** ** The cache, again *)

(** X9.  After a run that has its results, whether it has read or
    computed them, a run on the same inputs with no chart file and [debug]
    zero reads the cache file, calls no analysis and writes nothing; and
    the file that it reads holds what the first run wrote of its results,
    when the first run computed them. *)
Theorem later_run_reads_the_cache (ext : Collaborators) (fs fs1 : files (text ext))
  (a1 a2 : Args) (evs : list event) (results : Results) :
  load_results ext fs a1 = (fs1, (evs, Done results)) ->
  same_inputs a1 a2 -> chartfile a2 = None -> debug a2 = 0%Z ->
  exists f,
    fs1 (hashfile_of ext a2) = Some f /\
    (In AnalyzeMain evs -> f = json_dump ext results) /\
    load_results ext fs1 a2 = (fs1, ([OpenRead (hashfile_of ext a2)], json_load ext f)).
Proof.
  intros Hrun Hsame Hc Hd.
  destruct (cache_after_run ext fs fs1 a1 evs results Hrun) as (f & Hf & Hwritten).
  rewrite <- (same_inputs_hashfile ext a1 a2 Hsame) in Hf.
  exists f. repeat split; try assumption.
  exact (load_results_hit ext fs1 a2 f Hc Hd Hf).
Qed.

(** A run with [--debug] on the scenario, over a cache file that holds the
    results of another plate, and then a run without. *)
Lemma later_run_reads_the_cache_witness :
  let ext := Demo.collaborators Demo.scenario in
  let a2 := Demo.args ["Control"] ["A 1mM"] false in
  let a1 := Demo.with_debug 1 a2 in
  let fs := write Demo.no_files ".cache.json" Demo.singles in
  let fs1 := write fs ".cache.json" Demo.scenario in
  load_results ext fs a1
    = (fs1, ([AnalyzeMain; OpenWrite ".cache.json"], Done Demo.scenario)) /\
  same_inputs a1 a2 /\ chartfile a2 = None /\ debug a2 = 0%Z /\
  exists f,
    fs1 (hashfile_of ext a2) = Some f /\
    (In AnalyzeMain [AnalyzeMain; OpenWrite ".cache.json"]
     -> f = json_dump ext Demo.scenario) /\
    load_results ext fs1 a2 = (fs1, ([OpenRead (hashfile_of ext a2)], json_load ext f)).
Proof.
  intros ext a2 a1 fs fs1.
  assert (Hsame : same_inputs a1 a2) by (repeat split).
  split; [reflexivity | split; [exact Hsame | split; [reflexivity | split; [reflexivity|]]]].
  exact (later_run_reads_the_cache ext fs fs1 a1 a2
           [AnalyzeMain; OpenWrite ".cache.json"] Demo.scenario
           eq_refl Hsame eq_refl eq_refl).
Defined.

(** X10.  A cache file that [json.load] cannot read is not computed again:
    with no chart file and [debug] zero, [main] raises the error of the
    reading, calls no analysis and leaves the file as it is, so that the
    next run with the same arguments ends in the same way. *)
Theorem main_with_unreadable_cache (ext : Collaborators) (fuel : nat)
  (fs : files (text ext)) (a : Args) (f : text ext) (e : exn) :
  chartfile a = None -> debug a = 0%Z ->
  fs (hashfile_of ext a) = Some f -> json_load ext f = Raise e ->
  main ext fuel fs a = (fs, ([OpenRead (hashfile_of ext a)], Raise e)).
Proof.
  intros Hc Hd Hf He. unfold main.
  rewrite (load_results_hit ext fs a f Hc Hd Hf), He. reflexivity.
Qed.

(** A cache file that was cut short. *)
Lemma main_with_unreadable_cache_witness :
  let ext := Demo.unreadable in
  let a := Demo.args ["Control"] [] false in
  let fs : files (text ext) := write (fun _ => None) ".cache.json" "{" in
  chartfile a = None /\ debug a = 0%Z /\
  fs (hashfile_of ext a) = Some "{" /\ json_load ext "{" = Raise JSONDecodeError /\
  main ext 8 fs a = (fs, ([OpenRead (hashfile_of ext a)], Raise JSONDecodeError)).
Proof.
  intros ext a fs. repeat (split; [reflexivity|]).
  apply (main_with_unreadable_cache ext 8 fs a "{" JSONDecodeError); reflexivity.
Defined.

(** ** The positive control, again *)

(** X11.  A positive-control label whose Cocktail has no conditions makes
    the run raise [KeyError] before anything is printed, whatever the other
    labels and the measurements are. *)
Theorem positive_control_of_unknown_label (ext : Collaborators) (results : Results)
  (dc : Dict.t Cocktail (list Solution)) (labels : list string) :
  Exists (fun l => Dict.mem dc (Cocktail_of (Dose_drug ext l)) = false) labels ->
  positive_control ext results dc labels = ([], Raise KeyError).
Proof.
  intros Hmissing. unfold positive_control. cbv zeta.
  rewrite lookup_all_missing; [reflexivity|].
  apply Exists_exists in Hmissing as (l & Hin & Hl).
  apply Exists_exists. exists (Cocktail_of (Dose_drug ext l)). split; [|exact Hl].
  apply (in_map (fun condition => Cocktail_of (Dose_drug ext condition))). exact Hin.
Qed.

(** A label of a drug that is not on the plate, after one that is. *)
Lemma positive_control_of_unknown_label_witness :
  let ext := Demo.collaborators Demo.scenario in
  let dc := _parse_results ext Demo.scenario [] in
  Exists (fun l => Dict.mem dc (Cocktail_of (Dose_drug ext l)) = false)
    ["A 1mM"; "X 1mM"] /\
  positive_control ext Demo.scenario dc ["A 1mM"; "X 1mM"] = ([], Raise KeyError).
Proof.
  intros ext dc.
  assert (H : Exists (fun l => Dict.mem dc (Cocktail_of (Dose_drug ext l)) = false)
                ["A 1mM"; "X 1mM"])
    by (right; left; reflexivity).
  split; [exact H|].
  exact (positive_control_of_unknown_label ext Demo.scenario dc ["A 1mM"; "X 1mM"] H).
Defined.

Lemma finite_nil_iff (xs : list float) :
  np.finite xs = [] <-> forall x, In x xs -> x = nan.
Proof.
  induction xs as [|[|q] xs IH]; simpl.
  - split; [intros _ x [] | reflexivity].
  - rewrite IH. split; [intros H x [<-|Hx]; auto | auto].
  - split; [discriminate|]. intros H. specialize (H (fin q) (or_introl eq_refl)).
    discriminate.
Qed.

Lemma results_of_measurements (results : Results) (s : Solution) (x : float) :
  In x (results_of results s) -> In x (all_measurements results).
Proof.
  unfold results_of, all_measurements.
  destruct (Dict.get results s) as [scores|] eqn:E; [|contradiction].
  intros Hx. apply in_concat. exists scores. split; [|exact Hx].
  apply get_Some_In in E. change scores with (snd (s, scores)).
  now apply in_map.
Qed.

(** X12.  When every positive-control label names a Cocktail that has
    conditions and no measurement of the results is a number, the run prints
    the warning, and then raises [ValueError] if there is no measurement at
    all, and has NaN as its positive-control value otherwise. *)
Theorem positive_control_without_numbers (ext : Collaborators) (results : Results)
  (conversions : Dict.t string string) (labels : list string) :
  let dc := _parse_results ext results conversions in
  resolved ext dc labels ->
  np.finite (all_measurements results) = [] ->
  positive_control ext results dc labels =
    ([Print no_positive_control],
     match all_measurements results with
     | [] => Raise ValueError
     | _ :: _ => Done nan
     end).
Proof.
  intros dc Hres Hnone.
  destruct (positive_control_scores ext results conversions labels Hres)
    as (solutions & E1 & E2).
  unfold positive_control. cbv zeta. subst dc.
  rewrite E1, bind_lift_Done, E2, bind_lift_Done.
  assert (Hpc : np.finite
                  (positive_control_measurements ext results
                     (_parse_results ext results conversions) labels) = []).
  { apply finite_nil_iff. intros x Hx.
    apply (proj1 (finite_nil_iff _) Hnone).
    unfold positive_control_measurements in Hx.
    apply in_flat_map in Hx as (l & _ & Hx). apply in_flat_map in Hx as (s & _ & Hx).
    now apply (results_of_measurements results s). }
  unfold np.nanmean. rewrite Hpc. simpl np.isnan. cbv iota.
  fold (all_measurements results). unfold np.nanmin.
  destruct (all_measurements results) as [|x xs]; [reflexivity|].
  now rewrite Hnone.
Qed.

(** A plate on which no well could be measured. *)
Lemma positive_control_without_numbers_witness :
  let ext := Demo.collaborators Demo.unmeasured in
  let dc := _parse_results ext Demo.unmeasured [] in
  resolved ext dc ["A 1mM"] /\
  np.finite (all_measurements Demo.unmeasured) = [] /\
  positive_control ext Demo.unmeasured dc ["A 1mM"]
    = ([Print no_positive_control], Done nan).
Proof.
  intros ext dc.
  assert (H : resolved ext dc ["A 1mM"]) by (repeat constructor).
  split; [exact H | split; [reflexivity|]].
  exact (positive_control_without_numbers ext Demo.unmeasured [] ["A 1mM"] H eq_refl).
Defined.

(** ** The model loop, again *)

Lemma modeled_nil_keys (dc : store) :
  modeled dc = [] -> forall c, In c (Dict.keys dc) -> c = Control.
Proof.
  unfold modeled. induction dc as [|[k v] dc IH]; simpl; [intros _ c []|].
  unfold is_Control at 1. destruct (eq_dec k Control) as [->|N]; simpl; [|discriminate].
  intros Hnil c [<-|Hc]; [reflexivity | now apply IH].
Qed.

(** the first Cocktail that is modeled, with Control alone before it *)
Lemma first_modeled (dc : store) :
  modeled dc <> [] ->
  exists ks1 c ks2,
    Dict.keys dc = ks1 ++ c :: ks2 /\ (forall k, In k ks1 -> k = Control) /\ c <> Control.
Proof.
  unfold modeled. induction dc as [|[k v] dc IH]; simpl; [congruence|].
  unfold is_Control at 1. destruct (eq_dec k Control) as [->|N]; simpl.
  - intros Hne. destruct (IH Hne) as (ks1 & c & ks2 & -> & Hks1 & Hc).
    exists (Control :: ks1), c, ks2. repeat split; [|assumption].
    intros k' [<-|Hk']; [reflexivity | now apply Hks1].
  - intros _. exists [], k, (Dict.keys dc). repeat split; [intros k' [] | assumption].
Qed.

(** X13.  With no Cocktail but Control in the resolved conditions, the model
    loop builds no Model, charts nothing and ends normally, whatever the
    control drugs are: they are looked up only for a Cocktail that is
    modeled. *)
Theorem generate_models_of_controls_only (ext : Collaborators) (fuel : nat)
  (results : Results) (control_drugs : list Cocktail) (pcv : float)
  (plate_info : option string) (dc : store) :
  modeled dc = [] ->
  generate_models ext fuel results control_drugs pcv plate_info dc
    = ([], Done (dc, [], None)).
Proof.
  intros Hnone. pose proof (modeled_nil_keys dc Hnone) as Hkeys.
  unfold generate_models.
  assert (Hloop : forall ks (models : Dict.t Cocktail Model) (solution : option Solution),
            (forall c, In c ks -> c = Control) ->
            for_ ks (generate_model ext fuel results control_drugs pcv plate_info)
              (dc, models, solution) = ([], Done (dc, models, solution)));
    [|now apply Hloop].
  induction ks as [|k ks IH]; intros models solution Hks; [reflexivity|].
  cbn [for_]. unfold generate_model at 1.
  destruct (eq_dec k Control) as [_|N]; [|elim N; apply Hks; now left].
  unfold ret. rewrite bind_Done. cbv beta. rewrite IH; [reflexivity|].
  intros c Hc. apply Hks. now right.
Qed.

(** A plate of controls, and a control drug that is not on it. *)
Lemma generate_models_of_controls_only_witness :
  let ext := Demo.collaborators Demo.controls_only in
  let dc := _parse_results ext Demo.controls_only [] in
  modeled dc = [] /\
  generate_models ext 0 Demo.controls_only [["B"]] (fin 10) None dc
    = ([], Done (dc, [], None)).
Proof.
  intros ext dc. split; [reflexivity|].
  apply (generate_models_of_controls_only ext 0 Demo.controls_only [["B"]] (fin 10)
           None dc).
  reflexivity.
Defined.

(** a control drug without conditions, none of the others modeled *)
Lemma prepend_controls_missing (c : Cocktail) (fuel : nat) :
  forall (control_drugs : list Cocktail) (dc : store) own,
  c <> Control ->
  Exists (fun cd => Dict.mem dc cd = false) control_drugs ->
  Forall (fun cd => cd = Control \/ Dict.mem dc cd = false) control_drugs ->
  (List.length (conditions_of dc Control) < fuel)%nat ->
  Dict.get dc c = Some own ->
  prepend_controls fuel dc c control_drugs = Raise KeyError.
Proof.
  induction control_drugs as [|cd cds IH]; intros dc own Hc Hmissing Hnone Hfuel Hown.
  - inversion Hmissing.
  - simpl. destruct (Dict.get dc cd) as [l|] eqn:Hcd; [|reflexivity].
    inversion Hnone as [|? ? Hhead Htail]; subst.
    assert (Ecd : cd = Control).
    { destruct Hhead as [E|E]; [assumption|].
      apply mem_false_iff in E. congruence. }
    subst cd.
    rewrite (insert_controls_all c Control fuel dc own Hc Hown Hfuel).
    assert (Hget : forall x, x <> c ->
              Dict.get (Dict.set dc c (rev (conditions_of dc Control) ++ own)) x
              = Dict.get dc x)
      by (intros x Hx; apply get_set_neq; congruence).
    assert (Hmem : forall x, Dict.mem dc x = false ->
              Dict.mem (Dict.set dc c (rev (conditions_of dc Control) ++ own)) x = false).
    { intros x Hx. apply mem_false_iff. apply mem_false_iff in Hx.
      rewrite Hget; [assumption|]. intros ->. congruence. }
    apply (IH _ (rev (conditions_of dc Control) ++ own)); try assumption.
    + inversion Hmissing as [? ? Hm|? ? Hm]; subst.
      * apply mem_false_iff in Hm. congruence.
      * apply Exists_exists in Hm as (x & Hx & Hm). apply Exists_exists.
        exists x. auto.
    + apply Forall_forall. intros x Hx. rewrite Forall_forall in Htail.
      destruct (Htail x Hx) as [E|E]; auto.
    + unfold conditions_of. rewrite Hget by congruence. exact Hfuel.
    + apply get_set_eq.
Qed.

(** X14.  When a control drug has no conditions, none of the control drugs
    is itself a modeled Cocktail and some Cocktail is modeled, the model loop
    raises [KeyError] at the first modeled Cocktail: no Model is built and
    nothing is charted. *)
Theorem generate_models_without_control (ext : Collaborators) (fuel : nat)
  (results : Results) (control_drugs : list Cocktail) (pcv : float)
  (plate_info : option string) (dc : store) :
  Exists (fun cd => Dict.mem dc cd = false) control_drugs ->
  Forall (fun cd => cd = Control \/ Dict.mem dc cd = false) control_drugs ->
  modeled dc <> [] ->
  (List.length (conditions_of dc Control) < fuel)%nat ->
  generate_models ext fuel results control_drugs pcv plate_info dc = ([], Raise KeyError).
Proof.
  intros Hmissing Hnone Hmodeled Hfuel.
  destruct (first_modeled dc Hmodeled) as (ks1 & c & ks2 & Hkeys & Hks1 & Hc).
  destruct (In_keys_get dc c) as [own Hown].
  { rewrite Hkeys. apply in_or_app. right. now left. }
  unfold generate_models. rewrite Hkeys. clear Hkeys.
  assert (Hloop : forall (models : Dict.t Cocktail Model) (solution : option Solution),
            for_ (ks1 ++ c :: ks2)
              (generate_model ext fuel results control_drugs pcv plate_info)
              (dc, models, solution) = ([], Raise KeyError)); [|apply Hloop].
  induction ks1 as [|k ks1 IH]; intros models solution; cbn [app for_].
  - unfold generate_model. destruct (eq_dec c Control); [contradiction|].
    now rewrite (prepend_controls_missing c fuel control_drugs dc own Hc Hmissing Hnone
                   Hfuel Hown).
  - unfold generate_model at 1.
    destruct (eq_dec k Control) as [_|N]; [|elim N; apply Hks1; now left].
    unfold ret. rewrite bind_Done. cbv beta. rewrite IH; [reflexivity|].
    intros k' Hk'. apply Hks1. now right.
Qed.

(** The default control label B on a plate that has no B. *)
Lemma generate_models_without_control_witness :
  let ext := Demo.collaborators Demo.without_B in
  let dc := _parse_results ext Demo.without_B [] in
  Exists (fun cd => Dict.mem dc cd = false) [["B"]] /\
  Forall (fun cd => cd = Control \/ Dict.mem dc cd = false) [["B"]] /\
  modeled dc <> [] /\
  (List.length (conditions_of dc Control) < 8)%nat /\
  generate_models ext 8 Demo.without_B [["B"]] (fin 51) None dc = ([], Raise KeyError).
Proof.
  intros ext dc.
  assert (H1 : Exists (fun cd => Dict.mem dc cd = false) [["B"]])
    by (left; reflexivity).
  assert (H2 : Forall (fun cd => cd = Control \/ Dict.mem dc cd = false) [["B"]])
    by (constructor; [right; reflexivity | constructor]).
  assert (H3 : modeled dc <> []) by discriminate.
  assert (H4 : (List.length (conditions_of dc Control) < 8)%nat) by (vm_compute; lia).
  split; [exact H1 | split; [exact H2 | split; [exact H3 | split; [exact H4|]]]].
  exact (generate_models_without_control ext 8 Demo.without_B [["B"]] (fin 51) None dc
           H1 H2 H3 H4).
Defined.

(** X15.  Whenever one of the control drugs is itself a modeled Cocktail
    that has Solutions, at whatever place among the control drugs, the model
    loop does not end normally, however much fuel it is given: it either
    raises before it comes to that Cocktail or prepends to the list it is
    reading for ever. *)
Theorem model_loop_with_modeled_control (ext : Collaborators) (fuel : nat)
  (results : Results) (control_drugs : list Cocktail) (pcv : float)
  (plate_info : option string) (dc : store) (c : Cocktail) :
  In c control_drugs -> c <> Control ->
  In c (Dict.keys dc) -> conditions_of dc c <> [] ->
  forall evs st,
    generate_models ext fuel results control_drugs pcv plate_info dc <> (evs, Done st).
Proof.
  intros Hin Hc Hkey Hne evs st.
  now apply (generate_models_never_ends ext fuel results control_drugs pcv plate_info
               dc c evs st).
Qed.

(** The control drugs "Control" and B on the plate of the scenario, where B
    is a drug of its own. *)
Lemma model_loop_with_modeled_control_witness :
  let ext := Demo.collaborators Demo.scenario in
  let dc := _parse_results ext Demo.scenario [] in
  In ["B"] [Control; ["B"]] /\ ["B"] <> Control /\
  In ["B"] (Dict.keys dc) /\ conditions_of dc ["B"] <> [] /\
  forall evs st,
    generate_models ext 100 Demo.scenario [Control; ["B"]] (fin 51) None dc
      <> (evs, Done st).
Proof.
  intros ext dc.
  assert (H1 : In ["B"] [Control; ["B"]]) by (right; left; reflexivity).
  assert (H2 : ["B"] <> Control) by discriminate.
  assert (H3 : In ["B"] (Dict.keys dc)) by (right; left; reflexivity).
  assert (H4 : conditions_of dc ["B"] <> []) by discriminate.
  split; [exact H1 | split; [exact H2 | split; [exact H3 | split; [exact H4|]]]].
  exact (model_loop_with_modeled_control ext 100 Demo.scenario [Control; ["B"]] (fin 51)
           None dc ["B"] H1 H2 H3 H4).
Defined.

(** ** The Models and their charts *)

Lemma score_conditions_Done (results : Results) : forall conds cs ss cs' ss',
  score_conditions results conds cs ss = Done (cs', ss') ->
  ss' = ss ++ map (fun s => np.nanmedian (results_of results s)) conds /\
  cs' = fold_left (fun d s => Dict.set d s (results_of results s)) conds cs /\
  forall s, In s conds -> exists scores, Dict.get results s = Some scores.
Proof.
  induction conds as [|s conds IH]; intros cs ss cs' ss'; simpl.
  - intros [= <- <-]. rewrite app_nil_r. split; [reflexivity|].
    split; [reflexivity|]. intros s [].
  - destruct (Dict.get results s) as [scores|] eqn:E; [|discriminate].
    intros Hrun. apply IH in Hrun as (-> & -> & Hkeys).
    assert (Es : results_of results s = scores) by (unfold results_of; now rewrite E).
    rewrite Es, <- app_assoc. split; [reflexivity|]. split; [reflexivity|].
    intros x [<-|Hx]; [eauto | now apply Hkeys].
Qed.

(** What an iteration for a modeled Cocktail has done when it ends. *)
Lemma generate_model_Done_full (ext : Collaborators) fuel results control_drugs pcv
  plate_info c (dc : store) models solution evs st' :
  c <> Control ->
  generate_model ext fuel results control_drugs pcv plate_info c (dc, models, solution)
    = (evs, Done st') ->
  exists dc' solution',
    prepend_controls fuel dc c control_drugs = Done dc' /\
    solution' = match last_opt (conditions_of dc' c) with
                | Some s => Some s
                | None => solution
                end /\
    st' = (dc', Dict.set models c (model_of results pcv c (conditions_of dc' c)), solution') /\
    exists s, solution' = Some s /\
      evs = [Chart (model_of results pcv c (conditions_of dc' c)) (results_of results s)
               (datapoints_of results (conditions_of dc' c))
               (chart_name ext plate_info c) (pcv, 100)].
Proof.
  intros Hc. unfold generate_model. destruct (eq_dec c Control); [contradiction|].
  destruct (prepend_controls fuel dc c control_drugs) as [dc'| |]; try discriminate.
  rewrite bind_lift_Done.
  destruct (score_conditions results (conditions_of dc' c) [] []) as [[cs ss]| |] eqn:Es;
    try discriminate.
  apply score_conditions_Done in Es as (-> & -> & _).
  rewrite bind_lift_Done.
  destruct (match last_opt (conditions_of dc' c) with
            | Some s => Some s
            | None => solution
            end) as [s|] eqn:El; try discriminate.
  simpl of_option. rewrite bind_lift_Done.
  destruct (Dict.get results s) as [scores|] eqn:Eg; try discriminate.
  simpl. intros [= <- <-]. exists dc', (Some s).
  split; [reflexivity|]. split; [now rewrite El|]. split; [reflexivity|].
  exists s. split; [reflexivity|].
  assert (Es : results_of results s = scores) by (unfold results_of; now rewrite Eg).
  now rewrite Es.
Qed.

(** X16.  In a run of the model loop that ends, every Model has the
    positive-control value as its [E_max], is kept under its own Cocktail,
    has as summary scores the medians of the Solutions of its series, one
    for each in their order, and its series is the list that the loop has
    left under its Cocktail in the resolved conditions. *)
Theorem models_are_consistent (ext : Collaborators) (fuel : nat) (results : Results)
  (control_drugs : list Cocktail) (pcv : float) (plate_info : option string)
  (dc : store) (evs : list event) (st : build_state) :
  generate_models ext fuel results control_drugs pcv plate_info dc = (evs, Done st) ->
  forall c m, Dict.get (models_of st) c = Some m ->
    m = model_of results pcv c (conditions m) /\
    conditions m = conditions_of (fst (fst st)) c.
Proof.
  intros Hrun. unfold generate_models in Hrun.
  refine (for_invariant
            (fun s : build_state =>
               forall c m, Dict.get (models_of s) c = Some m ->
                 m = model_of results pcv c (conditions m) /\
                 conditions m = conditions_of (fst (fst s)) c)
            _ _ _ _ _ _ Hrun _); [|intros c m; discriminate].
  intros c [[dc0 models] solution] evs' s' Hbody Hinv.
  destruct (eq_dec c Control) as [Ec|Nc].
  - apply generate_model_Done in Hbody as [[_ ->]|[N _]]; [assumption | contradiction].
  - apply (generate_model_Done_full ext fuel results control_drugs pcv plate_info c dc0
             models solution evs' s' Nc) in Hbody
      as (dc' & solution' & Hp & _ & -> & _).
    unfold models_of in *. cbn [fst snd] in *. intros c' m' Hget.
    destruct (eq_dec c c') as [<-|Hne].
    + rewrite get_set_eq in Hget. injection Hget as <-. split; reflexivity.
    + rewrite get_set_neq in Hget by assumption.
      destruct (Hinv c' m' Hget) as [Hm Hs]. split; [exact Hm|].
      rewrite Hs. symmetry.
      apply (prepend_controls_grows c fuel control_drugs dc0 dc' Hp). congruence.
Qed.

(** The plate with two conditions of the control. *)
Lemma models_are_consistent_witness :
  let ext := Demo.collaborators Demo.two_controls in
  let dc := _parse_results ext Demo.two_controls [] in
  exists evs st,
    generate_models ext 8 Demo.two_controls [Control] (fin 51) None dc = (evs, Done st) /\
    forall c m, Dict.get (models_of st) c = Some m ->
      m = model_of Demo.two_controls (fin 51) c (conditions m) /\
      conditions m = conditions_of (fst (fst st)) c.
Proof.
  intros ext dc. eexists. eexists.
  assert (Hrun : forall r, r = generate_models ext 8 Demo.two_controls [Control] (fin 51)
                               None dc ->
                 generate_models ext 8 Demo.two_controls [Control] (fin 51) None dc = r)
    by (intros r ->; reflexivity).
  split; [apply Hrun; lazy; reflexivity|].
  eapply (models_are_consistent ext 8 Demo.two_controls [Control] (fin 51) None dc).
  apply Hrun. lazy. reflexivity.
Defined.

Lemma prepend_controls_extends (c : Cocktail) (fuel : nat) :
  forall (control_drugs : list Cocktail) (dc dc' : store),
  prepend_controls fuel dc c control_drugs = Done dc' ->
  exists added, conditions_of dc' c = added ++ conditions_of dc c.
Proof.
  induction control_drugs as [|cd cds IH]; intros dc dc'; simpl.
  - intros [= <-]. now exists [].
  - destruct (Dict.get dc cd) as [l|]; [|discriminate].
    destruct (insert_controls fuel dc c cd 0) as [dc1| |] eqn:E; try discriminate.
    intros Hrun. apply IH in Hrun as [added2 H2].
    apply insert_controls_grows in E as [[added1 H1] _].
    exists (added2 ++ added1). now rewrite H2, H1, app_assoc.
Qed.

Section Charts.

Variable ext : Collaborators.
Variable fuel : nat.
Variable results : Results.
Variable control_drugs : list Cocktail.
Variable pcv : float.
Variable plate_info : option string.

Lemma charts_loop : forall (ks : list Cocktail) (dc : store)
    (models : Dict.t Cocktail Model) (solution : option Solution) evs st,
  NoDup ks ->
  (forall c, In c ks -> ~ In c (Dict.keys models)) ->
  (forall c, In c ks -> conditions_of dc c <> []) ->
  for_ ks (generate_model ext fuel results control_drugs pcv plate_info)
    (dc, models, solution) = (evs, Done st) ->
  exists new,
    models_of st = models ++ new /\
    evs = map (chart_of ext results pcv plate_info) new.
Proof.
  induction ks as [|c ks IH]; intros dc models solution evs st Hnd Hfresh Hne Hrun.
  - simpl in Hrun. injection Hrun as <- <-. exists []. now rewrite app_nil_r.
  - inversion Hnd as [|? ? Hc_ks Hnd']; subst.
    cbn [for_] in Hrun.
    apply bind_inv_Done in Hrun as (evs1 & s1 & evs2 & H1 & H2 & ->).
    destruct (eq_dec c Control) as [Ec|Nc].
    + unfold generate_model in H1. destruct (eq_dec c Control); [|contradiction].
      injection H1 as <- <-.
      apply (IH dc models solution evs2 st Hnd') in H2; [exact H2 | |].
      * intros c' Hc'. apply Hfresh. now right.
      * intros c' Hc'. apply Hne. now right.
    + apply (generate_model_Done_full ext fuel results control_drugs pcv plate_info c dc
               models solution evs1 s1 Nc) in H1
        as (dc' & solution' & Hp & Hsol & -> & s & Hs & ->).
      destruct (prepend_controls_extends c fuel control_drugs dc dc' Hp) as [added Hadd].
      assert (Hseries : conditions_of dc' c <> []).
      { rewrite Hadd. intros Happ. apply app_eq_nil in Happ as [_ Hnil].
        apply (Hne c); [now left | exact Hnil]. }
      destruct (last_opt_In (conditions_of dc' c) Hseries) as (s0 & Hlast & _).
      rewrite Hlast in Hsol. rewrite Hsol in Hs. injection Hs as <-.
      rewrite set_new in H2 by (apply Hfresh; now left).
      apply (IH dc' _ solution' evs2 st Hnd') in H2.
      * destruct H2 as (new & Hmodels & ->).
        exists ((c, model_of results pcv c (conditions_of dc' c)) :: new). split.
        -- rewrite Hmodels, <- app_assoc. reflexivity.
        -- cbn [map app]. f_equal. unfold chart_of. cbn [fst snd model_of conditions].
           now rewrite Hlast.
      * intros c' Hc'. unfold Dict.keys. rewrite map_app. intros Hin.
        apply in_app_or in Hin as [Hin|[<-|[]]]; [|contradiction].
        apply (Hfresh c'); [now right | exact Hin].
      * intros c' Hc'.
        rewrite (prepend_controls_grows c fuel control_drugs dc dc' Hp c').
        -- apply Hne. now right.
        -- intros ->. contradiction.
Qed.

End Charts.

(** X17.  In a run of the model loop that ends, every Model is charted once,
    right after it is built and in the order of the Models; the chart is
    given the raw scores of the last Solution of the series only (the one
    the loop variable is left at), the raw scores of every Solution as its
    data points, the positive-control value and 100 as its scale, and a name
    only when there is plate information. *)
Theorem models_are_charted (ext : Collaborators) (fuel : nat) (results : Results)
  (conversions : Dict.t string string) (control_drugs : list Cocktail) (pcv : float)
  (plate_info : option string) (evs : list event) (st : build_state) :
  generate_models ext fuel results control_drugs pcv plate_info
    (_parse_results ext results conversions) = (evs, Done st) ->
  evs = map (chart_of ext results pcv plate_info) (models_of st).
Proof.
  intros Hrun. unfold generate_models in Hrun.
  destruct (parse_results_resolved ext results conversions) as [Hnd Hall].
  apply charts_loop in Hrun.
  - destruct Hrun as (new & Hmodels & ->). now rewrite Hmodels.
  - exact Hnd.
  - intros c _ [].
  - intros c Hc. destruct (In_keys_get _ c Hc) as [l Hl].
    unfold conditions_of. rewrite Hl. now apply (Hall c l Hl).
Qed.

(** The charts of the plate with two conditions of the control. *)
Lemma models_are_charted_witness :
  let ext := Demo.collaborators Demo.two_controls in
  exists evs st,
    generate_models ext 8 Demo.two_controls [Control] (fin 51) (Some "plate1")
      (_parse_results ext Demo.two_controls []) = (evs, Done st) /\
    evs = map (chart_of ext Demo.two_controls (fin 51) (Some "plate1")) (models_of st).
Proof.
  intros ext. eexists. eexists.
  assert (Hrun : forall r, r = generate_models ext 8 Demo.two_controls [Control] (fin 51)
                               (Some "plate1") (_parse_results ext Demo.two_controls []) ->
                 generate_models ext 8 Demo.two_controls [Control] (fin 51)
                   (Some "plate1") (_parse_results ext Demo.two_controls []) = r)
    by (intros r ->; reflexivity).
  split; [apply Hrun; lazy; reflexivity|].
  eapply (models_are_charted ext 8 Demo.two_controls [] [Control] (fin 51)
            (Some "plate1")).
  apply Hrun. lazy. reflexivity.
Defined.

(** ** Combinations, again *)

Lemma skipped_is_unpaired (models : Dict.t Cocktail Model) (model_combo : Model) :
  skipped models model_combo = true -> paired models model_combo = None.
Proof.
  unfold skipped, paired, Dict.mem.
  destruct (nth_error (cocktail model_combo) 0) as [drug_a|]; [|discriminate].
  destruct (Dict.get models (Cocktail_of drug_a)); [discriminate|].
  now destruct (nth_error (cocktail model_combo) 1).
Qed.

(** X18.  In checkerboard mode the first combination alone decides the two
    single-drug Models, and the one analysis and the one chart are given all
    the combinations.  When a drug of the first combination has no Model (or
    the combination has fewer than two drugs) the run raises before any
    analysis: nothing is skipped in this mode, whatever the other
    combinations are. *)
Theorem checkerboard_of_first_combination (ext : Collaborators)
  (plate_info : option string) (models : Dict.t Cocktail Model)
  (model_combo : Model) (others : list Model) :
  models_combo_of ext models = model_combo :: others ->
  match paired models model_combo with
  | Some (model_a, model_b) =>
      analyze_checkerboard ext plate_info models =
        ([AnalyzeCheckerboard model_a model_b (model_combo :: others) plate_info;
          ChartCheckerboard model_a model_b (model_combo :: others) plate_info],
         Done tt)
  | None =>
      exists e, (e = KeyError \/ e = IndexError) /\
        analyze_checkerboard ext plate_info models = ([], Raise e)
  end.
Proof.
  intros Hcombos. unfold analyze_checkerboard, paired. cbv zeta. rewrite Hcombos.
  destruct (cocktail model_combo) as [|drug_a [|drug_b rest]] eqn:Ec;
    simpl; rewrite ?Ec; simpl.
  - exists IndexError. auto.
  - destruct (Dict.get models (Cocktail_of drug_a)); simpl.
    + exists IndexError. auto.
    + exists KeyError. auto.
  - destruct (Dict.get models (Cocktail_of drug_a)) as [model_a|]; simpl.
    + destruct (Dict.get models (Cocktail_of drug_b)) as [model_b|]; simpl.
      * reflexivity.
      * exists KeyError. auto.
    + destruct (Dict.get models (Cocktail_of drug_b)); exists KeyError; auto.
Qed.

(** The plate with the combinations A+B and A+C and no drug C alone.  The
    first combination, A+B, gives the Models of A and of B; the analysis and
    the chart are given both combinations, and the missing Model of C is
    never looked up.  These Models are the ones that [main] builds. *)
Lemma checkerboard_of_first_combination_witness :
  let ext := Demo.collaborators Demo.without_C in
  let pcv := fin (np.mean [50; 52]) in
  let model_a := model_of Demo.without_C pcv ["A"] ["Control"; "A 1mM"] in
  let model_b := model_of Demo.without_C pcv ["B"] ["Control"; "B 1mM"] in
  let model_ab := model_of Demo.without_C pcv ["A"; "B"] ["Control"; "A 1mM+B 1mM"] in
  let model_ac := model_of Demo.without_C pcv ["A"; "C"] ["Control"; "A 1mM+C 1mM"] in
  let models :=
    [ (["A"], model_a); (["B"], model_b);
      (["A"; "B"], model_ab); (["A"; "C"], model_ac) ] in
  let r := snd (main ext 8 Demo.no_files (Demo.args ["Control"] ["A 1mM"] true)) in
  models_combo_of ext models = [model_ab; model_ac] /\
  analyze_checkerboard ext None models =
    ([AnalyzeCheckerboard model_a model_b [model_ab; model_ac] None;
      ChartCheckerboard model_a model_b [model_ab; model_ac] None],
     Done tt) /\
  result r = Done tt /\
  firstn 2 (rev (events r))
    = [ChartCheckerboard model_a model_b [model_ab; model_ac] None;
       AnalyzeCheckerboard model_a model_b [model_ab; model_ac] None].
Proof.
  intros ext pcv model_a model_b model_ab model_ac models r.
  split; [reflexivity|]. split.
  - exact (checkerboard_of_first_combination ext None models model_ab [model_ac]
             eq_refl).
  - split; vm_compute; reflexivity.
Defined.

(** X19.  When there are combinations and the first drug of every one of
    them has no Model, the diamond analysis skips them all, sets the axes to
    the floor of 1, and then raises [UnboundLocalError] where it saves the
    figure: no analysis has named a plot file. *)
Theorem diamond_with_all_skipped (ext : Collaborators) (models : Dict.t Cocktail Model) :
  models_combo_of ext models <> [] ->
  Forall (fun model_combo => skipped models model_combo = true)
    (models_combo_of ext models) ->
  analyze_diamonds ext models = ([Figure; Xlim 1; Ylim 1], Raise UnboundLocalError).
Proof.
  intros Hsome Hskipped. unfold analyze_diamonds. cbv zeta.
  rewrite (diamond_loop ext models _ 1 1 None).
  - assert (Hnone : forall l : list Model,
               Forall (fun model_combo => skipped models model_combo = true) l ->
               flat_map
                 (fun model_combo =>
                    match paired models model_combo with
                    | Some (model_a, model_b) => [(model_a, model_b, model_combo)]
                    | None => []
                    end) l = []).
    { intros l Hl. induction Hl as [|mc l Hmc _ IH]; [reflexivity|].
      cbn [flat_map]. rewrite (skipped_is_unpaired _ _ Hmc). exact IH. }
    cbv zeta. rewrite (Hnone _ Hskipped).
    destruct (models_combo_of ext models); [contradiction | reflexivity].
  - apply Forall_forall. intros mc Hmc. left.
    rewrite Forall_forall in Hskipped. now apply Hskipped.
Qed.

(** The combination A+B on a plate where A was not tested alone. *)
Lemma diamond_with_all_skipped_witness :
  let ext := Demo.collaborators Demo.without_A in
  let models :=
    [ (["B"], model_of Demo.without_A (fin 51) ["B"] ["Control"; "B 1mM"]);
      (["A"; "B"],
       model_of Demo.without_A (fin 51) ["A"; "B"] ["Control"; "A 1mM+B 1mM"]) ] in
  models_combo_of ext models <> [] /\
  Forall (fun model_combo => skipped models model_combo = true)
    (models_combo_of ext models) /\
  analyze_diamonds ext models = ([Figure; Xlim 1; Ylim 1], Raise UnboundLocalError).
Proof.
  intros ext models.
  assert (H1 : models_combo_of ext models <> []) by discriminate.
  assert (H2 : Forall (fun model_combo => skipped models model_combo = true)
                 (models_combo_of ext models))
    by (repeat constructor).
  split; [exact H1 | split; [exact H2|]].
  exact (diamond_with_all_skipped ext models H1 H2).
Defined.

Lemma for_app_Done {A S : Type} (body : A -> S -> run S) (ys : list A) :
  forall (xs : list A) (s : S) (evs : list event) (s' : S),
  for_ xs body s = (evs, Done s') ->
  for_ (xs ++ ys) body s = (evs ++ fst (for_ ys body s'), snd (for_ ys body s')).
Proof.
  induction xs as [|x xs IH]; intros s evs s' Hrun.
  - injection Hrun as <- <-. simpl. now destruct (for_ ys body s).
  - cbn [for_] in Hrun.
    apply bind_inv_Done in Hrun as (evs1 & s1 & evs2 & H1 & H2 & ->).
    cbn [app for_]. rewrite H1, bind_Done, (IH _ _ _ H2). cbn [fst snd].
    now rewrite app_assoc.
Qed.

Lemma diamond_raises (ext : Collaborators) (models : Dict.t Cocktail Model)
  (model_combo : Model) (st : diamond_state) :
  skipped models model_combo = false -> paired models model_combo = None ->
  exists e, (e = KeyError \/ e = IndexError) /\
    diamond ext models model_combo st = ([], Raise e).
Proof.
  destruct st as [[total_max_x total_max_y] plot_filename].
  unfold skipped, paired, diamond, Dict.mem.
  destruct (cocktail model_combo) as [|drug_a [|drug_b rest]]; simpl.
  - intros _ _. exists IndexError. auto.
  - destruct (Dict.get models (Cocktail_of drug_a)) as [model_a|]; simpl;
      [|discriminate].
    intros _ _. exists IndexError. auto.
  - destruct (Dict.get models (Cocktail_of drug_a)) as [model_a|]; simpl;
      [|discriminate].
    destruct (Dict.get models (Cocktail_of drug_b)) as [model_b|]; simpl;
      [discriminate|].
    intros _ _. exists KeyError. auto.
Qed.

(** X20.  The diamond analysis stops at the first combination that is
    neither skipped nor has both of its single-drug Models: the combinations
    before it have been analyzed and charted, the run raises [KeyError] (or
    [IndexError], for a combination of fewer than two drugs), and the figure
    is neither scaled nor saved, whatever combinations follow. *)
Theorem diamond_stops_at_first_unpaired (ext : Collaborators)
  (models : Dict.t Cocktail Model) (before : list Model) (model_combo : Model)
  (after : list Model) :
  models_combo_of ext models = before ++ model_combo :: after ->
  Forall (fun model_combo =>
            skipped models model_combo = true \/ paired models model_combo <> None)
    before ->
  skipped models model_combo = false ->
  paired models model_combo = None ->
  exists e, (e = KeyError \/ e = IndexError) /\
    analyze_diamonds ext models =
      (Figure ::
         flat_map diamond_events
           (flat_map
              (fun model_combo =>
                 match paired models model_combo with
                 | Some (model_a, model_b) => [(model_a, model_b, model_combo)]
                 | None => []
                 end)
              before),
       Raise e).
Proof.
  intros Hcombos Hbefore Hskipped Hpaired.
  pose proof (diamond_loop ext models before 1 1 None Hbefore) as Hloop.
  cbv zeta in Hloop.
  unfold analyze_diamonds. cbv zeta. rewrite Hcombos.
  rewrite (for_app_Done _ _ _ _ _ _ Hloop). cbn [for_].
  match goal with
  | |- context [diamond ext models model_combo ?st] =>
      destruct (diamond_raises ext models model_combo st Hskipped Hpaired)
        as (e & He & ->)
  end.
  exists e. split; [exact He|].
  simpl. now rewrite app_nil_r.
Qed.

(** The combination A+B on a plate where B was not tested alone. *)
Lemma diamond_stops_at_first_unpaired_witness :
  let ext := Demo.collaborators Demo.without_B in
  let model_ab :=
    model_of Demo.without_B (fin 51) ["A"; "B"] ["Control"; "A 1mM+B 1mM"] in
  let models :=
    [ (["A"], model_of Demo.without_B (fin 51) ["A"] ["Control"; "A 1mM"]);
      (["A"; "B"], model_ab) ] in
  exists e, (e = KeyError \/ e = IndexError) /\
    analyze_diamonds ext models = ([Figure], Raise e).
Proof.
  intros ext model_ab models.
  exact (diamond_stops_at_first_unpaired ext models [] model_ab []
           eq_refl (Forall_nil _) eq_refl eq_refl).
Defined.
